(** * data_police: the MCP filesystem client and the validation pipeline

    A shallow embedding of [filesystem_mcp.py]: the subprocess-backed
    JSON-RPC client [MCPFilesystemClient], the policy resolver
    [get_project_guidelines], the directory snapshotter
    [list_project_structure_sync], the orchestrator [run_validation_async]
    and its synchronous entry point [run_validation]; of the crawlers
    [crawl_directory] of [main.py] and [main_web.py]; and of the report
    renderer [_md_to_details] of [main_web.py]. The definitions are followed
    by the properties the specification states about them and by further
    properties of the code.

    Conventions of the embedding.
    - A Python [str] (and a [bytes] object) is a [string]; one [ascii] stands
      for one code point below 256.
    - Values decoded from JSON are the inductive [value].
    - An exception is a class tag with the text that [str(e)] yields, for
      the exceptions of the interpreter as CPython 3.11 words it.  Only
      instances of [Exception] are modelled: [KeyboardInterrupt],
      [SystemExit] and [asyncio.CancelledError] are signals to the
      interpreter, not failures of a pipeline step.
    - A coroutine is a function from the state (the client's [process]
      attribute and the log of calls made to the outside world) to an outcome
      and a new state.  What the outside world answers to each call is read
      from an oracle [Env] applied to the log so far, so that a failure can be
      placed at any call.
    - Library functions that are not part of the repository ([json.dumps],
      [json.loads], [repr], [bytes.decode] with the text of its error,
      [os.path.join], [os.path.dirname], [os.path.relpath]) are fields of a
      record [Lib].
    - A crawler sees the paths that [rglob] yields as a list of records with
      what it asks about each path. *)

From Stdlib Require Import String Ascii List ZArith Bool Arith Lia.
From Stdlib Require Import Permutation Sorted DecimalString.
Import ListNotations.

Set Warnings "-register-all".

Local Open Scope list_scope.
Local Open Scope string_scope.

(** ** Python values and exceptions *)

Inductive value : Type :=
| VNone
| VBool (b : bool)
| VInt (n : Z)
| VFloat (is_zero : bool) (text : string)
| VStr (s : string)
| VList (items : list value)
| VDict (items : list (string * value)).

Inductive exn_class : Type :=
| RuntimeError
| ValueError
| TypeError
| AttributeError
| KeyError
| FileNotFoundError
| PermissionError
| NotADirectoryError
| ProcessLookupError
| TimeoutError
| JSONDecodeError
| UnicodeDecodeError
| CalledProcessError
| OtherError (qualname : string).

Record exn : Type := Exn { exn_cls : exn_class; exn_str : string }.

Definition exn_class_eqb (a b : exn_class) : bool :=
  match a, b with
  | RuntimeError, RuntimeError
  | ValueError, ValueError
  | TypeError, TypeError
  | AttributeError, AttributeError
  | KeyError, KeyError
  | FileNotFoundError, FileNotFoundError
  | PermissionError, PermissionError
  | NotADirectoryError, NotADirectoryError
  | ProcessLookupError, ProcessLookupError
  | TimeoutError, TimeoutError
  | JSONDecodeError, JSONDecodeError
  | UnicodeDecodeError, UnicodeDecodeError
  | CalledProcessError, CalledProcessError => true
  | OtherError x, OtherError y => String.eqb x y
  | _, _ => false
  end.

Definition is_instance (e : exn) (c : exn_class) : bool :=
  exn_class_eqb (exn_cls e) c.

(** The line feed, [chr(10)]. *)
Definition LF : string := String "010"%char EmptyString.

(** [str.isspace] on the code points below 256. *)
Definition isspace (c : ascii) : bool :=
  let n := nat_of_ascii c in
  ((9 <=? n)%nat && (n <=? 13)%nat) || ((28 <=? n)%nat && (n <=? 32)%nat)
  || (n =? 133)%nat || (n =? 160)%nat.

Fixpoint lstrip (s : string) : string :=
  match s with
  | EmptyString => EmptyString
  | String c s' => if isspace c then lstrip s' else s
  end.

Fixpoint rstrip (s : string) : string :=
  match s with
  | EmptyString => EmptyString
  | String c s' =>
      match rstrip s' with
      | EmptyString => if isspace c then EmptyString else String c EmptyString
      | r => String c r
      end
  end.

(** [str.strip()] with no argument. *)
Definition strip (s : string) : string := lstrip (rstrip s).

(** [s.startswith(p)]. *)
Definition startswith (s p : string) : bool := String.prefix p s.

(** Truth value of a decoded value, as [if v:] tests it. *)
Definition truthy (v : value) : bool :=
  match v with
  | VNone => false
  | VBool b => b
  | VInt n => negb (n =? 0)%Z
  | VFloat z _ => negb z
  | VStr s => negb (s =? "")
  | VList l => match l with [] => false | _ => true end
  | VDict d => match d with [] => false | _ => true end
  end.

(** Lookup in a [dict], first binding first. *)
Fixpoint dict_lookup (k : string) (d : list (string * value)) : option value :=
  match d with
  | [] => None
  | (k', v) :: d' => if k' =? k then Some v else dict_lookup k d'
  end.

Inductive outcome (A : Type) : Type :=
| Return (a : A)
| Raise (e : exn).
Arguments Return {A} a.
Arguments Raise {A} e.

(** [type(v).__name__]. *)
Definition py_type_name (v : value) : string :=
  match v with
  | VNone => "NoneType"
  | VBool _ => "bool"
  | VInt _ => "int"
  | VFloat _ _ => "float"
  | VStr _ => "str"
  | VList _ => "list"
  | VDict _ => "dict"
  end.

(** [k in v] for a string [k]. A [dict] tests its keys, a [list] its
    elements, a [str] its substrings; the other values are not containers. *)
Definition py_contains (k : string) (v : value) : outcome bool :=
  match v with
  | VDict d => Return (match dict_lookup k d with Some _ => true | None => false end)
  | VList l =>
      Return (existsb (fun x => match x with VStr s => s =? k | _ => false end) l)
  | VStr s => Return (match String.index 0 k s with Some _ => true | None => false end)
  | _ =>
      Raise (Exn TypeError
               ("argument of type '" ++ py_type_name v ++ "' is not iterable"))
  end.

(** [v[k]] for a string [k]. The text of the [KeyError] is [repr(k)],
    written out for a key that holds no quote and needs no escape. *)
Definition py_getitem (v : value) (k : string) : outcome value :=
  match v with
  | VDict d =>
      match dict_lookup k d with
      | Some x => Return x
      | None => Raise (Exn KeyError ("'" ++ k ++ "'"))
      end
  | VStr _ => Raise (Exn TypeError "string indices must be integers, not 'str'")
  | VList _ => Raise (Exn TypeError "list indices must be integers or slices, not str")
  | _ => Raise (Exn TypeError ("'" ++ py_type_name v ++ "' object is not subscriptable"))
  end.

(** [v.get(k, default)]: only a [dict] has the method. *)
Definition py_get (v : value) (k : string) (default : value) : outcome value :=
  match v with
  | VDict d =>
      match dict_lookup k d with
      | Some x => Return x
      | None => Return default
      end
  | _ =>
      Raise (Exn AttributeError
               ("'" ++ py_type_name v ++ "' object has no attribute 'get'"))
  end.

(** ** Library functions the module calls *)

Record Lib : Type := {
  json_dumps : value -> string;
  (** [json.loads]: [inl msg] stands for a [JSONDecodeError] whose text is [msg]. *)
  json_loads : string -> string + value;
  py_repr : value -> string;
  (** [bytes.decode()]: [None] stands for a [UnicodeDecodeError]. *)
  bytes_decode : string -> option string;
  (** The text of that [UnicodeDecodeError]: it names the codec, the byte
      that does not decode, its position and the reason. *)
  bytes_decode_error : string -> string;
  os_path_join : string -> string -> string;
  os_path_dirname : string -> string;
  os_path_relpath : string -> string -> string
}.

(** [str(v)]: a [str] is its own text, anything else prints as its [repr]. *)
Definition py_str (lib : Lib) (v : value) : string :=
  match v with
  | VStr s => s
  | _ => py_repr lib v
  end.

(** ** The outside world *)

(** One entry per call that leaves the module. [EvCloseCalled] is a ghost
    entry: it marks an entry into [MCPFilesystemClient.close] and stands for
    no action on the worker. *)
Inductive event : Type :=
| EvNpxVersion
| EvSpawn (argv : list string)
| EvSleep (seconds : Z)
| EvStderrRead
| EvStdinWrite (data : string)
| EvStdinDrain
| EvReadline (timeout : Z)
| EvTerminate
| EvWait (timeout : option Z)
| EvKill
| EvChatCompletion (provider api_key model system user : string) (max_tokens : Z)
| EvCloseCalled.

Inductive read_reply : Type :=
| ReadTimeout
| ReadRaises (e : exn)
| ReadBytes (line : string).

Inductive wait_reply : Type :=
| WaitTimeout
| WaitRaises (e : exn)
| WaitExited (rc : Z).

(** The answers of the outside world, each a function of the log of calls
    made so far (newest first, the call being answered at its head). *)
Record Env : Type := {
  env_npx_version : list event -> option exn;
  env_spawn : list event -> option exn;
  (** Has the worker exited on its own by now, and with which code? *)
  env_exited : list event -> option Z;
  env_stderr_read : list event -> exn + string;
  env_stdin_write : list event -> option exn;
  env_stdin_drain : list event -> option exn;
  env_readline : list event -> read_reply;
  env_terminate : list event -> option exn;
  env_wait_for : list event -> wait_reply;
  env_kill : list event -> option exn;
  env_wait : list event -> Z;
  env_chat : list event -> exn + value
}.

(** ** State and the coroutine monad *)

(** An [asyncio.subprocess.Process] as the client sees it. *)
Record proc : Type := { returncode : option Z }.

Record state : Type := {
  self_process : option proc;   (** [self.process] of the run's client *)
  trace : list event            (** calls made so far, newest first *)
}.

Definition M (A : Type) : Type := state -> outcome A * state.

Definition ret {A} (a : A) : M A := fun s => (Return a, s).

Definition raise {A} (e : exn) : M A := fun s => (Raise e, s).

Definition bind {A B} (c : M A) (k : A -> M B) : M B :=
  fun s =>
    match c s with
    | (Return a, s') => k a s'
    | (Raise e, s') => (Raise e, s')
    end.

(** [try: c  except ...: h e], where [h] re-raises what no clause matches. *)
Definition try_except {A} (c : M A) (h : exn -> M A) : M A :=
  fun s =>
    match c s with
    | (Return a, s') => (Return a, s')
    | (Raise e, s') => h e s'
    end.

(** [try: c  finally: f]. An exception of [f] replaces the outcome of [c]. *)
Definition try_finally {A} (c : M A) (f : M unit) : M A :=
  fun s =>
    match c s with
    | (r, s') =>
        match f s' with
        | (Return _, s'') => (r, s'')
        | (Raise e, s'') => (Raise e, s'')
        end
    end.

Definition lift {A} (o : outcome A) : M A := fun s => (o, s).

Declare Scope py_scope.
Delimit Scope py_scope with py.
Notation "x <- c ;; k" := (bind c (fun x => k))
  (at level 61, c at next level, right associativity) : py_scope.
Notation "c ;; k" := (bind c (fun _ => k))
  (at level 61, right associativity) : py_scope.
Local Open Scope py_scope.

Definition emit (ev : event) : M unit :=
  fun s => (Return tt, {| self_process := self_process s; trace := ev :: trace s |}).

Definition ask {A} (oracle : list event -> A) : M A :=
  fun s => (Return (oracle (trace s)), s).

Definition get_process : M (option proc) :=
  fun s => (Return (self_process s), s).

Definition set_process (p : option proc) : M unit :=
  fun s => (Return tt, {| self_process := p; trace := trace s |}).

Definition or_raise (r : option exn) : M unit :=
  match r with
  | None => ret tt
  | Some e => raise e
  end.

(** ** [MCPFilesystemClient]

    The methods of the class, over the state of the one client a run
    constructs. *)

Module MCPFilesystemClient.

Section Client.

Variable lib : Lib.
Variable env : Env.
Variable project_path : string.

(** [subprocess.run(["npx", "--version"], check=True, capture_output=True)]. *)
Definition subprocess_run_npx_version : M unit :=
  emit EvNpxVersion ;;
  r <- ask (env_npx_version env) ;;
  or_raise r.

(** [asyncio.create_subprocess_exec(...)] with the three pipes; the new
    process has no return code yet. *)
Definition create_subprocess_exec (argv : list string) : M proc :=
  emit (EvSpawn argv) ;;
  r <- ask (env_spawn env) ;;
  or_raise r ;;
  ret {| returncode := None |}.

Definition asyncio_sleep (seconds : Z) : M unit := emit (EvSleep seconds).

(** A read of [self.process.returncode]: a code seen once stays; otherwise
    the world says whether the worker has exited in the meantime. *)
Definition process_returncode : M (option Z) :=
  p <- get_process ;;
  match p with
  | None => raise (Exn AttributeError "'NoneType' object has no attribute 'returncode'")
  | Some pr =>
      match returncode pr with
      | Some rc => ret (Some rc)
      | None =>
          rc <- ask (env_exited env) ;;
          set_process (Some {| returncode := rc |}) ;;
          ret rc
      end
  end.

Definition decode (b : string) : M string :=
  match bytes_decode lib b with
  | Some s => ret s
  | None => raise (Exn UnicodeDecodeError (bytes_decode_error lib b))
  end.

(** [await self.process.stderr.read()]. *)
Definition stderr_read : M string :=
  emit EvStderrRead ;;
  r <- ask (env_stderr_read env) ;;
  match r with
  | inl e => raise e
  | inr b => ret b
  end.

Definition start_server : M bool :=
  try_except subprocess_run_npx_version
    (fun e =>
       if is_instance e CalledProcessError || is_instance e FileNotFoundError
       then raise (Exn RuntimeError "npx is not available. Please install Node.js and npm.")
       else raise e) ;;
  p <- create_subprocess_exec
         ["npx"; "-y"; "@modelcontextprotocol/server-filesystem"; project_path] ;;
  set_process (Some p) ;;
  asyncio_sleep 2 ;;
  rc <- process_returncode ;;
  match rc with
  | Some _ =>
      stderr <- stderr_read ;;
      text <- decode stderr ;;
      raise (Exn RuntimeError ("MCP server failed to start: " ++ text))
  | None => ret true
  end.

(** [self.process.stdin.write(data)]. *)
Definition stdin_write (data : string) : M unit :=
  emit (EvStdinWrite data) ;;
  r <- ask (env_stdin_write env) ;;
  or_raise r.

(** [await self.process.stdin.drain()]. *)
Definition stdin_drain : M unit :=
  emit EvStdinDrain ;;
  r <- ask (env_stdin_drain env) ;;
  or_raise r.

(** [await asyncio.wait_for(self.process.stdout.readline(), timeout)]. *)
Definition stdout_readline (timeout : Z) : M string :=
  emit (EvReadline timeout) ;;
  r <- ask (env_readline env) ;;
  match r with
  | ReadTimeout => raise (Exn TimeoutError "")
  | ReadRaises e => raise e
  | ReadBytes b => ret b
  end.

(** The request of [send_request]: [params or {}] keeps a non-empty
    mapping and turns [None] and the empty mapping into [{}]. *)
Definition request_envelope (method : string) (params : option value) : value :=
  VDict [ ("jsonrpc", VStr "2.0");
          ("id", VInt 1);
          ("method", VStr method);
          ("params", match params with
                     | Some p => if truthy p then p else VDict []
                     | None => VDict []
                     end) ].

(** [not self.process or self.process.returncode is not None]. *)
Definition not_running : M bool :=
  p <- get_process ;;
  match p with
  | None => ret true
  | Some _ =>
      rc <- process_returncode ;;
      ret (match rc with Some _ => true | None => false end)
  end.

Definition send_request (method : string) (params : option value) : M value :=
  stopped <- not_running ;;
  if stopped then raise (Exn RuntimeError "MCP server is not running")
  else
    let request := request_envelope method params in
    let request_json := json_dumps lib request ++ LF in
    try_except
      (stdin_write request_json ;;
       stdin_drain ;;
       response_line <- stdout_readline 15 ;;
       if response_line =? "" then raise (Exn RuntimeError "No response from MCP server")
       else
         text <- decode response_line ;;
         match json_loads lib (strip text) with
         | inl msg => raise (Exn JSONDecodeError msg)
         | inr response =>
             has_error <- lift (py_contains "error" response) ;;
             if has_error then
               err <- lift (py_getitem response "error") ;;
               raise (Exn RuntimeError ("MCP server error: " ++ py_str lib err))
             else lift (py_get response "result" (VDict []))
         end)
      (fun e =>
         if is_instance e TimeoutError
         then raise (Exn RuntimeError "MCP server request timed out")
         else if is_instance e JSONDecodeError
         then raise (Exn RuntimeError ("Invalid JSON response from MCP server: " ++ exn_str e))
         else raise e).

Definition initialize : M value :=
  send_request "initialize"
    (Some (VDict [ ("protocolVersion", VStr "2024-11-05");
                   ("capabilities", VDict [("tools", VDict [])]);
                   ("clientInfo", VDict [ ("name", VStr "project-validator");
                                          ("version", VStr "1.0.0") ]) ])).

Definition call_tool (tool_name : string) (arguments : value) : M value :=
  send_request "tools/call"
    (Some (VDict [("name", VStr tool_name); ("arguments", arguments)])).

(** [self.process.terminate()]. *)
Definition process_terminate : M unit :=
  emit EvTerminate ;;
  r <- ask (env_terminate env) ;;
  or_raise r.

(** [self.process.kill()]. *)
Definition process_kill : M unit :=
  emit EvKill ;;
  r <- ask (env_kill env) ;;
  or_raise r.

(** [await asyncio.wait_for(self.process.wait(), timeout)]: returns at once
    when the worker has exited already. *)
Definition process_wait_for (timeout : Z) : M Z :=
  emit (EvWait (Some timeout)) ;;
  rc <- process_returncode ;;
  match rc with
  | Some c => ret c
  | None =>
      r <- ask (env_wait_for env) ;;
      match r with
      | WaitTimeout => raise (Exn TimeoutError "")
      | WaitRaises e => raise e
      | WaitExited c => set_process (Some {| returncode := Some c |}) ;; ret c
      end
  end.

(** [await self.process.wait()]. *)
Definition process_wait : M Z :=
  emit (EvWait None) ;;
  rc <- process_returncode ;;
  match rc with
  | Some c => ret c
  | None =>
      c <- ask (env_wait env) ;;
      set_process (Some {| returncode := Some c |}) ;;
      ret c
  end.

Definition close : M unit :=
  emit EvCloseCalled ;;
  p <- get_process ;;
  match p with
  | None => ret tt
  | Some _ =>
      process_terminate ;;
      try_except (process_wait_for 5 ;; ret tt)
        (fun e =>
           if is_instance e TimeoutError
           then process_kill ;; process_wait ;; ret tt
           else raise e)
  end.

End Client.

End MCPFilesystemClient.

Import MCPFilesystemClient.

(** ** [get_project_guidelines] *)

Section Resolver.

Variable lib : Lib.

(** [client.call_tool]: the resolver uses nothing else of its client. *)
Variable client_call_tool : string -> value -> M value.

(** [policy_content and policy_content.strip()]. *)
Definition supplied (policy_content : option string) : bool :=
  match policy_content with
  | Some s => negb (s =? "") && negb (strip s =? "")
  | None => false
  end.

(** What either attempt makes of the tool's result: the [text] of the first
    block when [content] is a non-empty list, the printed [content]
    otherwise. *)
Definition policy_of_result (result : value) : outcome value :=
  match py_get result "content" (VList []) with
  | Raise e => Raise e
  | Return content =>
      match content with
      | VList (first :: _) => py_get first "text" (VStr "")
      | _ =>
          match py_get result "content" (VStr "") with
          | Raise e => Raise e
          | Return c => Return (VStr (py_str lib c))
          end
      end
  end.

Definition read_policy (policy_path : string) : M value :=
  result <- client_call_tool "read_file" (VDict [("path", VStr policy_path)]) ;;
  lift (policy_of_result result).

(** [try: return c  except Exception: pass]: [None] when control falls
    through to the statement after the [try]. *)
Definition attempt (c : M value) : M (option value) :=
  try_except (v <- c ;; ret (Some v)) (fun _ => ret None).

Definition get_project_guidelines (project_path : string)
    (policy_content : option string) : M value :=
  if supplied policy_content then
    ret (VStr (match policy_content with Some s => s | None => "" end))
  else
    r <- attempt (read_policy (os_path_join lib project_path "policy.txt")) ;;
    match r with
    | Some text => ret text
    | None =>
        let parent_dir := os_path_dirname lib project_path in
        r <- attempt (read_policy (os_path_join lib parent_dir "policy.txt")) ;;
        match r with
        | Some text => ret text
        | None =>
            raise (Exn FileNotFoundError
                     "policy.txt not found and no policy content provided")
        end
    end.

End Resolver.

(** ** [list_project_structure_sync] *)

(** What [os.listdir], [os.path.isfile] and [os.path.isdir] show of the
    directory tree: a regular file; a directory with its entries in the order
    [os.listdir] enumerates them; a directory whose listing raises (a
    [PermissionError] for one that may not be read); anything that is neither
    a regular file nor a directory. The tree is finite: links that close a
    cycle are not modelled. *)
Inductive node : Type :=
| File
| Dir (entries : list (string * node))
| DirError (e : exn)
| Special.

Definition isfile (t : node) : bool :=
  match t with File => true | _ => false end.

Definition isdir (t : node) : bool :=
  match t with Dir _ | DirError _ => true | _ => false end.

(** [sorted] on a list of [str]: the order of [str] is the lexicographic
    order of the code points. The order is total and antisymmetric, so every
    sorting algorithm yields the same list; insertion stands for the
    interpreter's. *)
Fixpoint insert_sorted (x : string) (l : list string) : list string :=
  match l with
  | [] => [x]
  | y :: l' => if String.leb x y then x :: l else y :: insert_sorted x l'
  end.

Definition sorted (l : list string) : list string :=
  fold_right insert_sorted [] l.

Section Snapshot.

Variable lib : Lib.
Variable project_path : string.

(** The inner function; [path] is the directory being listed and [t] what
    the file system holds there. *)
Fixpoint get_files_recursive (path : string) (t : node) : outcome (list string) :=
  match t with
  | Dir entries =>
      (fix loop (items : list (string * node)) : outcome (list string) :=
         match items with
         | [] => Return []
         | (item, child) :: rest =>
             if startswith item "." then loop rest
             else
               let item_path := os_path_join lib path item in
               let relative_path := os_path_relpath lib item_path project_path in
               if isfile child then
                 match loop rest with
                 | Raise e => Raise e
                 | Return files => Return (relative_path :: files)
                 end
               else if isdir child then
                 match get_files_recursive item_path child with
                 | Raise e => Raise e
                 | Return subfiles =>
                     match loop rest with
                     | Raise e => Raise e
                     | Return files =>
                         Return ((relative_path ++ "/") :: (subfiles ++ files)%list)
                     end
                 end
               else loop rest
         end) entries
  | DirError e => if is_instance e PermissionError then Return [] else Raise e
  | File | Special =>
      Raise (Exn NotADirectoryError
               ("[Errno 20] Not a directory: " ++ py_repr lib (VStr path)))
  end.

Definition list_project_structure_sync (t : node) : outcome (list string) :=
  match get_files_recursive project_path t with
  | Raise e => Raise e
  | Return files => Return (sorted files)
  end.

End Snapshot.

(** ** [run_validation_async] *)

Inductive validation_result : Type :=
| Success (policy : value) (project_files : list string) (report : value)
| Failure (error : string).

Definition system_prompt : string :=
  "You are a software project structure reviewer. Analyze project structures against given policies and provide detailed feedback.".

Definition user_prompt (lib : Lib) (policy : value) (project_files : list string) : string :=
  "Project Structure Policy:" ++ LF ++ py_str lib policy ++ LF ++ LF
  ++ "Actual Project Files:" ++ LF ++ String.concat LF project_files ++ LF ++ LF
  ++ "Please analyze whether the project structure follows the policy guidelines. Identify any missing components, incorrect organization, or deviations from the expected structure.".

Section Orchestrator.

Variable lib : Lib.
Variable env : Env.

(** The directory tree found at [project_path]. *)
Variable fs : node.

(** The request to the model endpoint of [provider], from the construction
    of the provider's client to the content of the first reply block
    ([response.choices[0].message.content], [response.content[0].text]). *)
Definition chat_completion (provider api_key model system user : string)
    (max_tokens : Z) : M value :=
  emit (EvChatCompletion provider api_key model system user max_tokens) ;;
  r <- ask (env_chat env) ;;
  match r with
  | inl e => raise e
  | inr content => ret content
  end.

(** The steps of the [try] block up to the provider dispatch. *)
Definition prepare (project_path : string) (policy_content : option string)
    : M (value * list string) :=
  start_server lib env project_path ;;
  initialize lib env ;;
  policy <- get_project_guidelines lib (call_tool lib env) project_path policy_content ;;
  project_files <- lift (list_project_structure_sync lib project_path fs) ;;
  ret (policy, project_files).

(** The provider dispatch and the result of the [try] block. *)
Definition evaluate (llm_provider model api_key : string)
    (policy : value) (project_files : list string) : M validation_result :=
  report <-
    (if llm_provider =? "OpenAI" then
       chat_completion "OpenAI" api_key model system_prompt
         (user_prompt lib policy project_files) 2000
     else if llm_provider =? "Anthropic" then
       chat_completion "Anthropic" api_key model system_prompt
         (user_prompt lib policy project_files) 2000
     else raise (Exn ValueError ("Unsupported LLM provider: " ++ llm_provider))) ;;
  ret (Success policy project_files report).

Definition run_validation_async (project_path llm_provider model api_key : string)
    (policy_content : option string) : M validation_result :=
  (* client = MCPFilesystemClient(project_path) *)
  set_process None ;;
  try_finally
    (try_except
       (pf <- prepare project_path policy_content ;;
        evaluate llm_provider model api_key (fst pf) (snd pf))
       (fun e => ret (Failure (exn_str e))))
    (close env).

End Orchestrator.


(** ** [run_async] and [run_validation] *)

(** What [asyncio.get_event_loop()] finds in the calling thread: no loop (it
    raises [RuntimeError], as in a thread that never set one), a loop that
    is not running, or the loop the caller itself runs in. *)
Inductive event_loop : Type :=
| NoEventLoop
| IdleLoop
| RunningLoop.

(** [run_async(coro)]. With an idle loop the coroutine runs to completion on
    it; with a running loop it runs to completion under [asyncio.run] in a
    thread of its own while the caller waits for [future.result()]. The
    [except RuntimeError] clause covers the whole [try] block, so it also
    catches a [RuntimeError] the coroutine raised; [asyncio.run(coro)] in the
    handler then finds the coroutine already awaited, or refuses to start
    inside the running loop, and raises without running it again. Only when
    [get_event_loop] itself raised is the coroutine still fresh, and the
    handler runs it. *)
Definition run_async {A} (loop : event_loop) (coro : M A) : M A :=
  try_except
    (match loop with
     | NoEventLoop => raise (Exn RuntimeError "There is no current event loop")
     | IdleLoop => coro
     | RunningLoop => coro
     end)
    (fun e =>
       if is_instance e RuntimeError then
         match loop with
         | NoEventLoop => coro
         | IdleLoop =>
             raise (Exn RuntimeError "cannot reuse already awaited coroutine")
         | RunningLoop =>
             raise (Exn RuntimeError
                      "asyncio.run() cannot be called from a running event loop")
         end
       else raise e).

Definition run_validation (lib : Lib) (env : Env) (fs : node) (loop : event_loop)
    (project_path llm_provider model api_key : string)
    (policy_content : option string) : M validation_result :=
  run_async loop
    (run_validation_async lib env fs project_path llm_provider model api_key
       policy_content).

(** ** [main_web.py]: the collapsible rendering of a report *)

(** [str(n)] for a natural number. *)
Definition str_of_nat (n : nat) : string := NilZero.string_of_uint (Nat.to_uint n).

(** The line boundaries of [str.splitlines] among the code points below
    256: LF, VT, FF, CR, FS, GS, RS and NEL. *)
Definition is_line_boundary (c : ascii) : bool :=
  let n := nat_of_ascii c in
  ((10 <=? n)%nat && (n <=? 13)%nat) || ((28 <=? n)%nat && (n <=? 30)%nat)
  || (n =? 133)%nat.

(** [s.splitlines()]: the lines without their boundaries; CR LF is one
    boundary, and a boundary at the very end opens no further line. *)
Fixpoint splitlines (s : string) : list string :=
  match s with
  | EmptyString => []
  | String c r =>
      if is_line_boundary c then
        match r with
        | String d r' =>
            if Ascii.eqb c "013" && Ascii.eqb d "010"
            then EmptyString :: splitlines r'
            else EmptyString :: splitlines r
        | EmptyString => [EmptyString]
        end
      else
        match splitlines r with
        | [] => [String c EmptyString]
        | line :: lines => String c line :: lines
        end
  end.

(** [s.split()]: the maximal runs of characters that are not whitespace. *)
Fixpoint str_split (s : string) : list string :=
  match s with
  | EmptyString => []
  | String c r =>
      if isspace c then str_split r
      else
        match r with
        | EmptyString => [String c EmptyString]
        | String d _ =>
            if isspace d then String c EmptyString :: str_split r
            else
              match str_split r with
              | [] => [String c EmptyString]
              | word :: words => String c word :: words
              end
        end
  end.

(** ** [crawl_directory] in [main.py] and [main_web.py] *)

(** One path that [path.rglob('*')] yields, with what the loop asks about
    it: [str(fp.relative_to(path))], [fp.name], [fp.is_file()],
    [fp.stat().st_size] and [fp.read_text(errors="ignore")], which is [None]
    when the read raises. The calls [is_file] and [stat] are taken to
    return: the file system does not change under the crawl. *)
Record found_path : Type := {
  relative_to : string;
  name : string;
  is_file : bool;
  st_size : Z;
  read_text : option string
}.

Module Main.

(** An entry of the structure: the keys [path], [size] and [content]. *)
Record file_entry : Type := {
  path : string;
  size : Z;
  content : option string
}.

(** [crawl_directory(path, max_file_size)] over the paths that [rglob]
    yields. *)
Fixpoint crawl_directory (found : list found_path) (max_file_size : Z)
    : list file_entry :=
  match found with
  | [] => []
  | file_path :: rest =>
      if is_file file_path then
        {| path := relative_to file_path;
           size := st_size file_path;
           content :=
             if (st_size file_path <? max_file_size)%Z then
               match read_text file_path with
               | Some text => Some (String.substring 0 500 text)
               | None => None
               end
             else None |}
        :: crawl_directory rest max_file_size
      else crawl_directory rest max_file_size
  end.

End Main.

Module MainWeb.

(** An entry of the structure: the keys [path] and [size], and the key
    [content] when the file is small enough to be read ([None] for a file
    over the limit, [Some None] for a file whose read raised). *)
Record file_entry : Type := {
  path : string;
  size : Z;
  content : option (option string)
}.

(** The preview of a text: its first two lines, cut down to the first 200
    words, joined by single spaces, when it has more than 100 words. *)
Definition snippet_of (text : string) : string :=
  let snippet := String.concat LF (firstn 2 (splitlines text)) in
  let words := str_split snippet in
  if (100 <? List.length words)%nat then String.concat " " (firstn 200 words)
  else snippet.

(** [crawl_directory(path, max_file_size)] over the paths that [rglob]
    yields. *)
Fixpoint crawl_directory (found : list found_path) (max_file_size : Z)
    : list file_entry :=
  match found with
  | [] => []
  | fp :: rest =>
      if negb (is_file fp) && ((name fp =? "venv") || (name fp =? ".venv"))
      then crawl_directory rest max_file_size
      else if is_file fp then
        {| path := relative_to fp;
           size := st_size fp;
           content :=
             if (st_size fp <=? max_file_size)%Z then
               Some (match read_text fp with
                     | Some text => Some (snippet_of text)
                     | None => None
                     end)
             else None |}
        :: crawl_directory rest max_file_size
      else crawl_directory rest max_file_size
  end.


(** The leading run of [#] of a line: its length and what follows it. *)
Fixpoint span_hashes (s : string) : nat * string :=
  match s with
  | String c r =>
      if Ascii.eqb c "#" then let (n, rest) := span_hashes r in (S n, rest)
      else (O, s)
  | EmptyString => (O, EmptyString)
  end.

(** What the last group of the pattern (any characters but a line feed, up
    to the end of the line) makes of the text behind the spaces: all of it
    when it holds no line feed, all but a line feed that ends it, and no
    match when a line feed stands anywhere else. *)
Fixpoint title_of (s : string) : option string :=
  match s with
  | EmptyString => Some EmptyString
  | String c r =>
      if Ascii.eqb c "010" then
        match r with EmptyString => Some EmptyString | _ => None end
      else
        match title_of r with
        | Some t => Some (String c t)
        | None => None
        end
  end.

(** [re.match] of the heading pattern on a line: one to six [#] at the
    start of the line, then whitespace, then the rest of the line. The
    result is the level [len(m.group(1))] with the title [m.group(2)], or
    [None] when the line does not match. *)
Definition match_heading (line : string) : option (nat * string) :=
  let (level, rest) := span_hashes line in
  if (1 <=? level)%nat && (level <=? 6)%nat then
    match rest with
    | String c _ =>
        if isspace c then
          match title_of (lstrip rest) with
          | Some title => Some (level, title)
          | None => None
          end
        else None
    | EmptyString => None
    end
  else None.

(** [line.strip().startswith("```")]. *)
Definition is_fence (line : string) : bool := startswith (strip line) "```".

Definition closing_tag : string := "</details>".

(** The line that opens the section of a heading. *)
Definition opening_tag (level : nat) (title : string) : string :=
  "<details><summary><h" ++ str_of_nat level ++ " style='display:inline'>"
  ++ title ++ "</h" ++ str_of_nat level ++ "></summary>".

(** The inner function [close(to)]: while the stack is not empty and [to] is
    [None] or the level on top is at least [to], append a closing tag and
    pop. The stack has its top at the head of the list. *)
Fixpoint close (to : option nat) (stack : list nat) (html : list string)
    : list string * list nat :=
  match stack with
  | [] => (html, [])
  | top :: below =>
      if match to with None => true | Some level => (level <=? top)%nat end
      then close to below (html ++ [closing_tag])%list
      else (html, stack)
  end.

(** The variables of the loop: [html], [stack] and [in_code]. *)
Record loop_state : Type := {
  html : list string;
  stack : list nat;
  in_code : bool
}.

(** One turn of the loop over the lines. *)
Definition step (st : loop_state) (line : string) : loop_state :=
  if is_fence line then
    {| html := (html st ++ [line])%list; stack := stack st;
       in_code := negb (in_code st) |}
  else
    match (if in_code st then None else match_heading line) with
    | Some (level, title) =>
        let (html', stack') := close (Some level) (stack st) (html st) in
        {| html := (html' ++ [opening_tag level title])%list;
           stack := level :: stack';
           in_code := in_code st |}
    | None =>
        {| html := (html st ++ [line])%list; stack := stack st;
           in_code := in_code st |}
    end.

(** The list [html] as it stands when it is joined: after the loop and the
    final [close()]. *)
Definition details_lines (lines : list string) : list string :=
  let st := fold_left step lines {| html := []; stack := []; in_code := false |} in
  fst (close None (stack st) (html st)).

(** [_md_to_details(md)]; [mdlib] is the function [markdown.markdown] with
    the two extensions when the package can be imported. *)
Definition _md_to_details (mdlib : option (string -> string)) (md : string) : string :=
  let joined := String.concat LF (details_lines (splitlines md)) in
  match mdlib with
  | Some markdown => markdown joined
  | None => joined
  end.

End MainWeb.
(** ** What a coroutine adds to the log *)

(** [extends P c]: whatever the start state, [c] only adds entries to the
    log, and each entry it adds satisfies [P]. *)
Definition extends (P : event -> Prop) {A} (c : M A) : Prop :=
  forall s, exists evs,
    trace (snd (c s)) = (evs ++ trace s)%list /\ Forall P evs.


(** ** A sample library and sample worlds

    Concrete instances of [Lib] and [Env] on which the model is run in the
    examples: compact JSON text for values whose strings need no escape, a
    decoder that inverts it on the replies listed in [sample_replies], and
    POSIX path arithmetic for normalised paths. *)
Module Sample.

Definition DQ : string := String "034"%char EmptyString.

Definition decimal (n : Z) : string := NilZero.string_of_int (Z.to_int n).

Fixpoint dumps (v : value) : string :=
  match v with
  | VNone => "null"
  | VBool b => if b then "true" else "false"
  | VInt n => decimal n
  | VFloat _ t => t
  | VStr s => DQ ++ s ++ DQ
  | VList l => "[" ++ String.concat ", " (map dumps l) ++ "]"
  | VDict d =>
      "{" ++ String.concat ", "
               (map (fun kv : string * value => let (k, x) := kv in DQ ++ k ++ DQ ++ ": " ++ dumps x) d)
      ++ "}"
  end.

Definition text_block (s : string) : value :=
  VDict [("type", VStr "text"); ("text", VStr s)].

Definition tool_result (s : string) : value :=
  VDict [("jsonrpc", VStr "2.0"); ("id", VInt 1);
         ("result", VDict [("content", VList [text_block s])])].

Definition policy_text : string := "Expect README.md, src/, tests/".

Definition initialize_reply : value :=
  VDict [("jsonrpc", VStr "2.0"); ("id", VInt 1);
         ("result", VDict [("protocolVersion", VStr "2024-11-05")])].

Definition error_reply : value :=
  VDict [("jsonrpc", VStr "2.0"); ("id", VInt 1);
         ("error", VDict [("code", VInt (-32602)); ("message", VStr "ENOENT")])].

Definition sample_replies : list value :=
  [ initialize_reply; tool_result policy_text; tool_result ""; error_reply;
    VList []; VDict []; VNone ].

Definition loads (s : string) : string + value :=
  match find (fun v => dumps v =? s) sample_replies with
  | Some v => inr v
  | None => inl "Expecting value: line 1 column 1 (char 0)"
  end.

Fixpoint repr (v : value) : string :=
  match v with
  | VNone => "None"
  | VBool b => if b then "True" else "False"
  | VInt n => decimal n
  | VFloat _ t => t
  | VStr s => "'" ++ s ++ "'"
  | VList l => "[" ++ String.concat ", " (map repr l) ++ "]"
  | VDict d =>
      "{" ++ String.concat ", "
               (map (fun kv : string * value => let (k, x) := kv in "'" ++ k ++ "': " ++ repr x) d)
      ++ "}"
  end.

Fixpoint endswith_slash (s : string) : bool :=
  match s with
  | EmptyString => false
  | String c EmptyString => Ascii.eqb c "/"
  | String _ s' => endswith_slash s'
  end.

(** [posixpath.join(a, b)]: [b] alone when it is absolute, else [a] and [b]
    with one slash between them unless [a] is empty or ends with one. *)
Definition join (a b : string) : string :=
  if startswith b "/" then b
  else if (a =? "") || endswith_slash a then a ++ b
  else a ++ "/" ++ b.

(** The part of [s] up to and including its last slash. *)
Fixpoint head_of (s : string) : option string :=
  match s with
  | EmptyString => None
  | String c r =>
      match head_of r with
      | Some h => Some (String c h)
      | None => if Ascii.eqb c "/" then Some "/" else None
      end
  end.

Fixpoint rstrip_slash (s : string) : string :=
  match s with
  | EmptyString => EmptyString
  | String c s' =>
      match rstrip_slash s' with
      | EmptyString => if Ascii.eqb c "/" then EmptyString else String c EmptyString
      | r => String c r
      end
  end.

(** [posixpath.dirname(p)]: the part of [p] up to its last slash, without
    the slashes that end it unless it holds nothing else. *)
Definition dirname (p : string) : string :=
  match head_of p with
  | None => ""
  | Some h => match rstrip_slash h with EmptyString => h | r => r end
  end.

Fixpoint drop_prefix (p s : string) : option string :=
  match p, s with
  | EmptyString, _ => Some s
  | String c p', String d s' => if Ascii.eqb c d then drop_prefix p' s' else None
  | String _ _, EmptyString => None
  end.

(** [os.path.relpath] of a path that lies below [start]. *)
Definition relpath (path start : string) : string :=
  match drop_prefix (start ++ "/") path with
  | Some r => r
  | None => path
  end.

Definition lib : Lib := {|
  json_dumps := dumps;
  json_loads := loads;
  py_repr := repr;
  bytes_decode := fun b => Some b;
  bytes_decode_error := fun _ => "";
  os_path_join := join;
  os_path_dirname := dirname;
  os_path_relpath := relpath
|}.

Definition reads (t : list event) : nat :=
  List.length (filter (fun ev => match ev with EvReadline _ => true | _ => false end) t).

(** A world in which the launcher and the pipes work, the worker answers the
    [n]-th request with the [n]-th of [replies] and with silence after the
    last, [exits] says when it exits on its own, [term] is what
    [terminate()] raises and [chat] is the answer of the model endpoint. *)
Definition world (exits : list event -> option Z) (replies : list read_reply)
    (term : option exn) (chat : exn + value) : Env := {|
  env_npx_version := fun _ => None;
  env_spawn := fun _ => None;
  env_exited := exits;
  env_stderr_read := fun _ => inr "npm error code E404";
  env_stdin_write := fun _ => None;
  env_stdin_drain := fun _ => None;
  env_readline := fun t => nth (reads t - 1) replies ReadTimeout;
  env_terminate := fun _ => term;
  env_wait_for := fun _ => WaitExited (-15);
  env_kill := fun _ => None;
  env_wait := fun _ => (-9)%Z;
  env_chat := fun _ => chat
|}.

Definition line (v : value) : read_reply := ReadBytes (dumps v ++ LF).

Definition alive : list event -> option Z := fun _ => None.

(** The project of the specification's end-to-end scenario, with two hidden
    entries added. *)
Definition project : node :=
  Dir [ ("tests", Dir [("test_main.x", File)]);
        (".env", File);
        ("src", Dir [("main.x", File); (".cache", Dir [("main.o", File)])]);
        ("policy.txt", File);
        ("README.md", File) ].

Definition start : state := {| self_process := None; trace := [] |}.

Definition started : state :=
  {| self_process := Some {| returncode := None |}; trace := [] |}.

End Sample.

(** ** Vocabulary of the statements *)

Definition is_close_call (ev : event) : bool :=
  match ev with EvCloseCalled => true | _ => false end.

(** How often [close] was entered according to a log. *)
Definition closes (t : list event) : nat := List.length (filter is_close_call t).

Definition is_chat (ev : event) : bool :=
  match ev with EvChatCompletion _ _ _ _ _ _ => true | _ => false end.

(** The requests to a model endpoint recorded in a log. *)
Definition chats (t : list event) : list event := filter is_chat t.

Definition is_worker_action (ev : event) : bool :=
  match ev with EvTerminate | EvKill => true | _ => false end.

(** The terminate and kill actions recorded in a log. *)
Definition worker_actions (t : list event) : list event := filter is_worker_action t.

(** [data] is one request of the protocol: one JSON object with the version
    tag 2.0 and the id 1, followed by a line feed. *)
Definition is_request_line (lib : Lib) (data : string) : Prop :=
  exists method params,
    data = json_dumps lib (VDict [ ("jsonrpc", VStr "2.0"); ("id", VInt 1);
                                   ("method", VStr method); ("params", params) ])
           ++ LF.

(** What was written to the worker's standard input according to a log. *)
Definition writes_requests (lib : Lib) (ev : event) : Prop :=
  match ev with
  | EvStdinWrite data => is_request_line lib data
  | _ => True
  end.

(** The state in which a run finds its newly constructed client. *)
Definition fresh (s : state) : state :=
  {| self_process := None; trace := trace s |}.

(** The test at the head of [send_request]: the client has a process whose
    return code is unset and which has not exited in the meantime. *)
Definition is_running (env : Env) (s : state) : bool :=
  match self_process s with
  | None => false
  | Some p =>
      match returncode p with
      | Some _ => false
      | None => match env_exited env (trace s) with Some _ => false | None => true end
      end
  end.

(** The line [send_request] writes. *)
Definition request_line (lib : Lib) (method : string) (params : option value) : string :=
  json_dumps lib (request_envelope method params) ++ LF.



(** The calls [close] makes on the worker process do not raise. *)
Definition close_calls_succeed (env : Env) : Prop :=
  (forall t, env_terminate env t = None)
  /\ (forall t, env_kill env t = None)
  /\ (forall t e, env_wait_for env t <> WaitRaises e).

(** [close] called [n] times in a row. *)
Fixpoint close_times (env : Env) (n : nat) : M unit :=
  match n with
  | O => ret tt
  | S k => close env ;; close_times env k
  end.



Definition not_chat (ev : event) : Prop := is_chat ev = false.

(** *** Directory trees *)

Definition hidden (name : string) : bool := startswith name ".".

(** [entry_at t names child]: from the directory [t], the names lead to
    [child] through directories that can be listed, and none of the names is
    hidden. *)
Inductive entry_at : node -> list string -> node -> Prop :=
| entry_here (entries : list (string * node)) (name : string) (child : node) :
    In (name, child) entries -> hidden name = false ->
    entry_at (Dir entries) [name] child
| entry_below (entries : list (string * node)) (name : string) (d : node)
    (names : list string) (child : node) :
    In (name, d) entries -> hidden name = false ->
    entry_at d names child ->
    entry_at (Dir entries) (name :: names) child.

(** [os.path.join] applied along a chain of names. *)
Definition path_of (lib : Lib) (root : string) (names : list string) : string :=
  fold_left (os_path_join lib) names root.

(** How an entry is listed: a file as its path relative to the project root,
    a directory as that path followed by a slash, anything else not at all. *)
Definition render (lib : Lib) (project_path item_path : string) (child : node)
    : option string :=
  if isfile child then Some (os_path_relpath lib item_path project_path)
  else if isdir child then Some (os_path_relpath lib item_path project_path ++ "/")
  else None.

(** The same directory tree under another enumeration order: the entries of
    every directory are the same up to their order. *)
Inductive same_tree : node -> node -> Prop :=
| same_file : same_tree File File
| same_special : same_tree Special Special
| same_dir_error (e : exn) : same_tree (DirError e) (DirError e)
| same_dir (es1 es2 : list (string * node)) :
    same_entries es1 es2 -> same_tree (Dir es1) (Dir es2)
with same_entries : list (string * node) -> list (string * node) -> Prop :=
| same_nil : same_entries [] []
| same_cons (name : string) (t1 t2 : node) (l1 l2 : list (string * node)) :
    same_tree t1 t2 -> same_entries l1 l2 ->
    same_entries ((name, t1) :: l1) ((name, t2) :: l2)
| same_swap (x y : string * node) (l : list (string * node)) :
    same_entries (x :: y :: l) (y :: x :: l)
| same_trans (l1 l2 l3 : list (string * node)) :
    same_entries l1 l2 -> same_entries l2 l3 -> same_entries l1 l3.

Scheme same_tree_mut := Minimality for same_tree Sort Prop
  with same_entries_mut := Minimality for same_entries Sort Prop.

(** The tree without its hidden entries and all that lies below them. *)
Fixpoint prune_hidden (t : node) : node :=
  match t with
  | Dir entries =>
      Dir ((fix prune (items : list (string * node)) : list (string * node) :=
              match items with
              | [] => []
              | (name, child) :: rest =>
                  if hidden name then prune rest
                  else (name, prune_hidden child) :: prune rest
              end) entries)
  | _ => t
  end.

(** The order of [str] as a relation. *)
Definition str_le (a b : string) : Prop := String.leb a b = true.

(** Two outcomes agree when both are lists with the same elements, or both
    are exceptions. *)
Definition agree (r1 r2 : outcome (list string)) : Prop :=
  match r1, r2 with
  | Return l1, Return l2 => Permutation l1 l2
  | Raise _, Raise _ => True
  | _, _ => False
  end.

(** What one entry of a directory adds to the listing. *)
Definition walk_item (lib : Lib) (project_path path : string)
    (entry : string * node) : outcome (list string) :=
  let (item, child) := entry in
  if startswith item "." then Return []
  else
    let item_path := os_path_join lib path item in
    let relative_path := os_path_relpath lib item_path project_path in
    if isfile child then Return [relative_path]
    else if isdir child then
      match get_files_recursive lib project_path item_path child with
      | Raise e => Raise e
      | Return subfiles => Return ((relative_path ++ "/") :: subfiles)
      end
    else Return [].

(** One list after the other, the first exception winning. *)
Definition both (r1 r2 : outcome (list string)) : outcome (list string) :=
  match r1 with
  | Raise e => Raise e
  | Return a =>
      match r2 with
      | Raise e => Raise e
      | Return b => Return (a ++ b)%list
      end
  end.

(** [listed lib project_path path t s]: [s] is the rendering of an entry found
    below the directory [t], which lies at [path], through visible names. *)
Definition listed (lib : Lib) (project_path path : string) (t : node) (s : string)
    : Prop :=
  exists names child,
    entry_at t names child
    /\ render lib project_path (path_of lib path names) child = Some s.

(** *** Relative paths as text *)

(** Does the text, read as a path, have a component that begins with a dot?
    [at_start] tells whether the text begins a component. *)
Fixpoint hidden_component_from (at_start : bool) (s : string) : bool :=
  match s with
  | EmptyString => false
  | String c r =>
      (at_start && Ascii.eqb c ".") || hidden_component_from (Ascii.eqb c "/") r
  end.

Definition has_hidden_component (s : string) : bool := hidden_component_from true s.

Fixpoint has_slash (s : string) : bool :=
  match s with
  | EmptyString => false
  | String c r => Ascii.eqb c "/" || has_slash r
  end.

(** A name as [os.listdir] yields them: not empty and without a slash. *)
Definition plain (name : string) : bool := negb (name =? "") && negb (has_slash name).

(** Every name in the tree is plain. *)
Fixpoint plain_names (t : node) : bool :=
  match t with
  | Dir entries =>
      (fix all (items : list (string * node)) : bool :=
         match items with
         | [] => true
         | (name, child) :: rest => plain name && plain_names child && all rest
         end) entries
  | _ => true
  end.

(** [os.path.relpath] and [os.path.join] on the paths of the walk: below
    the project root, the relative path of an entry is its chain of names
    joined by slashes. *)
Definition relative_below (lib : Lib) (project_path : string) : Prop :=
  forall names,
    names <> [] ->
    Forall (fun name => plain name = true /\ hidden name = false) names ->
    os_path_relpath lib (path_of lib project_path names) project_path
    = String.concat "/" names.

(** The sample project as another enumeration order shows it. *)
Definition sample_project_reordered : node :=
  Dir [ ("README.md", File);
        ("src", Dir [(".cache", Dir [("main.o", File)]); ("main.x", File)]);
        (".env", File);
        ("tests", Dir [("test_main.x", File)]);
        ("policy.txt", File) ].

(** The names of a chain, each behind a slash. *)
Fixpoint slashed (names : list string) : string :=
  match names with
  | [] => ""
  | name :: rest => "/" ++ name ++ slashed rest
  end.

Definition not_worker_action (ev : event) : Prop := is_worker_action ev = false.

(** A world without the launcher: the probe [npx --version] finds no
    executable. *)
Definition sample_no_launcher : Env := {|
  env_npx_version :=
    fun _ => Some (Exn FileNotFoundError "[Errno 2] No such file or directory: 'npx'");
  env_spawn := fun _ => None;
  env_exited := Sample.alive;
  env_stderr_read := fun _ => inr "";
  env_stdin_write := fun _ => None;
  env_stdin_drain := fun _ => None;
  env_readline := fun _ => ReadTimeout;
  env_terminate := fun _ => None;
  env_wait_for := fun _ => WaitExited 0;
  env_kill := fun _ => None;
  env_wait := fun _ => 0%Z;
  env_chat := fun _ => inr (VStr "report")
|}.

(** The world of the end-to-end scenario: the worker answers the handshake
    and the read of [policy.txt], and the model endpoint answers [report]. *)
Definition sample_world (report : string) : Env :=
  Sample.world Sample.alive
    [Sample.line Sample.initialize_reply;
     Sample.line (Sample.tool_result Sample.policy_text)]
    None (inr (VStr report)).

(** A directory with two subdirectories whose listing fails, each with an
    error of its own, in the two orders in which they can be enumerated. *)
Definition sample_broken (first second : string) : node :=
  Dir [ (first, DirError (Exn (OtherError "OSError") first));
        (second, DirError (Exn (OtherError "OSError") second)) ].



(** *** Rendered reports *)

(** A line that closes a collapsible section. *)
Definition closes_section (line : string) : bool := line =? MainWeb.closing_tag.

(** The headings of a document: the lines outside fenced code that the
    heading pattern matches, with their levels and titles. *)
Fixpoint headings (in_code : bool) (lines : list string) : list (nat * string) :=
  match lines with
  | [] => []
  | line :: rest =>
      if MainWeb.is_fence line then headings (negb in_code) rest
      else if in_code then headings in_code rest
      else
        match MainWeb.match_heading line with
        | Some h => h :: headings in_code rest
        | None => headings in_code rest
        end
  end.

(** The document with each heading replaced by the line that opens its
    section and every other line kept. *)
Fixpoint with_headings_opened (in_code : bool) (lines : list string) : list string :=
  match lines with
  | [] => []
  | line :: rest =>
      if MainWeb.is_fence line then line :: with_headings_opened (negb in_code) rest
      else if in_code then line :: with_headings_opened in_code rest
      else
        match MainWeb.match_heading line with
        | Some (level, title) =>
            MainWeb.opening_tag level title :: with_headings_opened in_code rest
        | None => line :: with_headings_opened in_code rest
        end
  end.

(** How many levels [close(to)] pops off a stack. *)
Fixpoint popped (to : option nat) (stack : list nat) : nat :=
  match stack with
  | [] => O
  | top :: below =>
      if match to with None => true | Some level => (level <=? top)%nat end
      then S (popped to below)
      else O
  end.

(** The levels on the stack grow strictly towards its top. *)
Definition nested_levels (stack : list nat) : Prop :=
  StronglySorted (fun upper lower => (lower < upper)%nat) stack
  /\ Forall (fun level => (1 <= level <= 6)%nat) stack.

Definition sample_report : list string :=
  [ "# Summary"; "fine"; "## Missing"; "- tests/"; "```"; "# not a heading"; "```";
    "## Extra"; "# Verdict"; "ok" ].

(** *** Crawled structures *)

(** The path [fp] under another name. *)
Definition with_name (f : found_path -> string) (fp : found_path) : found_path :=
  {| relative_to := relative_to fp;
     name := f fp;
     is_file := is_file fp;
     st_size := st_size fp;
     read_text := read_text fp |}.

(** Every character of [s] satisfies [p]. *)
Fixpoint all_chars (p : ascii -> bool) (s : string) : bool :=
  match s with
  | EmptyString => true
  | String c r => p c && all_chars p r
  end.

(** A word: not empty and free of whitespace. *)
Definition is_word (w : string) : Prop :=
  w <> "" /\ all_chars (fun c => negb (isspace c)) w = true.

(** A line: free of line boundaries. *)
Definition is_line (l : string) : Prop :=
  all_chars (fun c => negb (is_line_boundary c)) l = true.

(** *** The worker *)

(** The command line of the worker. *)
Definition server_argv (project_path : string) : list string :=
  ["npx"; "-y"; "@modelcontextprotocol/server-filesystem"; project_path].

(** The log after [start_server] has probed for the launcher, spawned the
    worker and slept through the two seconds of grace. *)
Definition after_grace (project_path : string) (t : list event) : list event :=
  EvSleep 2 :: EvSpawn (server_argv project_path) :: EvNpxVersion :: t.

(** The client holds no worker that could still be running. *)
Definition no_live_worker (s : state) : Prop :=
  match self_process s with
  | None => True
  | Some p => returncode p <> None
  end.

(** *** What reaches the model endpoint *)

(** The request a run sends for a policy and a snapshot. *)
Definition model_request (lib : Lib) (llm_provider api_key model : string)
    (policy : value) (project_files : list string) : event :=
  EvChatCompletion llm_provider api_key model system_prompt
    (user_prompt lib policy project_files) 2000.

(** *** How much a run does *)

Definition is_spawn (ev : event) : bool :=
  match ev with EvSpawn _ => true | _ => false end.

Definition is_write (ev : event) : bool :=
  match ev with EvStdinWrite _ => true | _ => false end.

Definition is_read (ev : event) : bool :=
  match ev with EvReadline _ => true | _ => false end.

(** How many of the entries [evs] satisfy [p]. *)
Definition count (p : event -> bool) (evs : list event) : nat :=
  List.length (filter p evs).

(** [adds_at_most p n c]: whatever the start state, [c] only adds entries to
    the log, and at most [n] of them satisfy [p]. *)
Definition adds_at_most (p : event -> bool) (n : nat) {A} (c : M A) : Prop :=
  forall s, exists evs,
    trace (snd (c s)) = (evs ++ trace s)%list /\ (count p evs <= n)%nat.

(** *** What the walk can see *)

(** The tree as the walk sees it: a directory that may not be read counts as
    an empty one, and an entry that is neither a regular file nor a
    directory is not there. *)
Fixpoint readable_part (t : node) : node :=
  match t with
  | Dir entries =>
      Dir ((fix keep (items : list (string * node)) : list (string * node) :=
              match items with
              | [] => []
              | (name, child) :: rest =>
                  match child with
                  | Special => keep rest
                  | _ => (name, readable_part child) :: keep rest
                  end
              end) entries)
  | DirError e => if is_instance e PermissionError then Dir [] else t
  | File | Special => t
  end.

(** A project with a directory that may not be read and a socket. *)
Definition sample_guarded : node :=
  Dir [ ("README.md", File);
        ("private", DirError (Exn PermissionError "[Errno 13] Permission denied"));
        ("run.sock", Special);
        ("src", Dir [("main.x", File); ("fifo", Special)]) ].

(** The walk can list the tree: it is a directory, and every directory the
    walk enters (it enters none below a hidden name) can be listed or may
    not be read; any other error of a listing stops the walk. *)
Fixpoint listable (t : node) : bool :=
  match t with
  | Dir entries =>
      (fix all (items : list (string * node)) : bool :=
         match items with
         | [] => true
         | (name, child) :: rest =>
             (hidden name || negb (isdir child) || listable child) && all rest
         end) entries
  | DirError e => is_instance e PermissionError
  | File | Special => false
  end.

(** The walk returned a list. *)
Definition returns (r : outcome (list string)) : bool :=
  match r with Return _ => true | Raise _ => false end.

(** *** Paths of the policy file *)




(** *** What a run does to its worker *)

(** The client holds a process. *)
Definition has_process (s : state) : Prop := self_process s <> None.

(** [keeps_process c]: a client that holds a process still holds one after
    [c]. *)
Definition keeps_process {A} (c : M A) : Prop :=
  forall s, has_process s -> has_process (snd (c s)).

(** The log at the moment [close], entered with the log [t], waits for the
    worker after [terminate()]. *)
Definition at_wait (t : list event) : list event :=
  EvWait (Some 5%Z) :: EvTerminate :: EvCloseCalled :: t.

(** [close], entered in the state [s], finds that the worker does not exit
    within the 5 time units it waits: the worker has no return code, has not
    exited by itself, and the wait ends with a [TimeoutError]. *)
Definition wait_times_out (env : Env) (s : state) : bool :=
  match self_process s with
  | Some {| returncode := None |} =>
      match env_exited env (at_wait (trace s)) with
      | Some _ => false
      | None =>
          match env_wait_for env (at_wait (trace s)) with
          | WaitTimeout => true
          | WaitRaises e => is_instance e TimeoutError
          | WaitExited _ => false
          end
      end
  | _ => false
  end.

(** The launcher probe or the spawn of the worker fails in a run that
    starts with the log [t]. *)
Definition no_worker_spawned (env : Env) (project_path : string) (t : list event)
    : Prop :=
  env_npx_version env (EvNpxVersion :: t) <> None
  \/ env_spawn env (EvSpawn (server_argv project_path) :: EvNpxVersion :: t) <> None.

(** A world in which the worker ignores [terminate()]: the wait of [close]
    times out. *)
Definition sample_stubborn : Env := {|
  env_npx_version := fun _ => None;
  env_spawn := fun _ => None;
  env_exited := Sample.alive;
  env_stderr_read := fun _ => inr "";
  env_stdin_write := fun _ => None;
  env_stdin_drain := fun _ => None;
  env_readline := fun _ => ReadTimeout;
  env_terminate := fun _ => None;
  env_wait_for := fun _ => WaitTimeout;
  env_kill := fun _ => None;
  env_wait := fun _ => (-9)%Z;
  env_chat := fun _ => inr (VStr "report")
|}.

(** *** The sections of a rendered report *)

(** The text holds no [<]: it has no markup of its own. *)
Definition no_markup (s : string) : bool :=
  all_chars (fun c => negb (Ascii.eqb c "<")) s.

(** The tags of collapsible sections in a text, in the order in which they
    begin: [true] where a [<] is followed by [details], [false] where it is
    followed by [/details]. *)
Fixpoint section_tags (s : string) : list bool :=
  match s with
  | EmptyString => []
  | String c r =>
      if Ascii.eqb c "<" then
        if String.prefix "details" r then true :: section_tags r
        else if String.prefix "/details" r then false :: section_tags r
        else section_tags r
      else section_tags r
  end.

(** The number of sections left open after the tags are read from [depth]
    open sections; [None] when a closing tag meets no open section or when
    more than [bound] sections are open at once. *)
Fixpoint open_sections (bound depth : nat) (tags : list bool) : option nat :=
  match tags with
  | [] => Some depth
  | true :: rest =>
      if (S depth <=? bound)%nat then open_sections bound (S depth) rest else None
  | false :: rest =>
      match depth with
      | O => None
      | S d => open_sections bound d rest
      end
  end.

(** The lines the rendering writes for a report without markup: a line of
    the report, the line that opens a section, or the line that closes one. *)
Inductive rendered_line : string -> Prop :=
| rendered_text (line : string) : no_markup line = true -> rendered_line line
| rendered_opening (level : nat) (title : string) :
    (1 <= level <= 6)%nat -> no_markup title = true ->
    rendered_line (MainWeb.opening_tag level title)
| rendered_closing : rendered_line MainWeb.closing_tag.

(** The sample report as one text. *)
Definition sample_report_text : string := String.concat LF sample_report.
Section Extends.

Variable P : event -> Prop.

Lemma extends_ret {A} (a : A) : extends P (ret a).
Proof. intro s. exists []. split; [reflexivity | constructor]. Qed.

Lemma extends_raise {A} (e : exn) : extends P (@raise A e).
Proof. intro s. exists []. split; [reflexivity | constructor]. Qed.

Lemma extends_lift {A} (o : outcome A) : extends P (lift o).
Proof. intro s. exists []. split; [reflexivity | constructor]. Qed.

Lemma extends_ask {A} (f : list event -> A) : extends P (ask f).
Proof. intro s. exists []. split; [reflexivity | constructor]. Qed.

Lemma extends_get_process : extends P get_process.
Proof. intro s. exists []. split; [reflexivity | constructor]. Qed.

Lemma extends_set_process p : extends P (set_process p).
Proof. intro s. exists []. split; [reflexivity | constructor]. Qed.

Lemma extends_or_raise r : extends P (or_raise r).
Proof. destruct r; [apply extends_raise | apply extends_ret]. Qed.

Lemma extends_emit ev : P ev -> extends P (emit ev).
Proof.
  intros H s. exists [ev]. split; [reflexivity | repeat constructor; exact H].
Qed.

Lemma extends_bind {A B} (c : M A) (k : A -> M B) :
  extends P c -> (forall a, extends P (k a)) -> extends P (bind c k).
Proof.
  intros Hc Hk s. unfold bind.
  destruct (Hc s) as (evs & Ht & Hevs).
  destruct (c s) as [[a | e] s1]; simpl in *.
  - destruct (Hk a s1) as (evs' & Ht' & Hevs').
    exists (evs' ++ evs)%list. rewrite Ht', Ht, app_assoc.
    split; [reflexivity | apply Forall_app; split; assumption].
  - exists evs. split; assumption.
Qed.

Lemma extends_try_except {A} (c : M A) (h : exn -> M A) :
  extends P c -> (forall e, extends P (h e)) -> extends P (try_except c h).
Proof.
  intros Hc Hh s. unfold try_except.
  destruct (Hc s) as (evs & Ht & Hevs).
  destruct (c s) as [[a | e] s1]; simpl in *.
  - exists evs. split; assumption.
  - destruct (Hh e s1) as (evs' & Ht' & Hevs').
    exists (evs' ++ evs)%list. rewrite Ht', Ht, app_assoc.
    split; [reflexivity | apply Forall_app; split; assumption].
Qed.

Lemma extends_try_finally {A} (c : M A) (f : M unit) :
  extends P c -> extends P f -> extends P (try_finally c f).
Proof.
  intros Hc Hf s. unfold try_finally.
  destruct (Hc s) as (evs & Ht & Hevs).
  destruct (c s) as [r s1]; simpl in *.
  destruct (Hf s1) as (evs' & Ht' & Hevs').
  exists (evs' ++ evs)%list.
  destruct (f s1) as [[u | e] s2]; simpl in *;
    (rewrite Ht', Ht, app_assoc;
     split; [reflexivity | apply Forall_app; split; assumption]).
Qed.

End Extends.

Create HintDb py_ops.
#[local] Hint Unfold subprocess_run_npx_version create_subprocess_exec asyncio_sleep
  process_returncode decode stderr_read start_server stdin_write stdin_drain
  stdout_readline not_running send_request initialize call_tool process_terminate
  process_kill process_wait_for process_wait close read_policy attempt
  get_project_guidelines chat_completion prepare evaluate run_validation_async
  : py_ops.

(** One step of a proof of [extends P c] along the structure of [c];
    [side] proves [P] of an emitted entry. *)
Ltac extends_step side :=
  lazymatch goal with
  | |- extends _ (ret _) => apply extends_ret
  | |- extends _ (raise _) => apply extends_raise
  | |- extends _ (lift _) => apply extends_lift
  | |- extends _ (ask _) => apply extends_ask
  | |- extends _ get_process => apply extends_get_process
  | |- extends _ (set_process _) => apply extends_set_process
  | |- extends _ (or_raise _) => apply extends_or_raise
  | |- extends _ (emit _) => apply extends_emit; side
  | |- extends _ (bind _ _) => apply extends_bind; [ | intro ]
  | |- extends _ (try_except _ _) => apply extends_try_except; [ | intro ]
  | |- extends _ (try_finally _ _) => apply extends_try_finally
  | |- extends _ (match ?x with _ => _ end) => destruct x
  | |- extends _ _ => progress (autounfold with py_ops; cbv zeta)
  end.

Ltac extends_auto side := repeat (extends_step side).

(** ** C4: [close] is entered exactly once per run *)






(** ** C10: every request carries the version tag 2.0 and the id 1 *)

Ltac request_side :=
  first [ exact I
        | simpl; unfold is_request_line, request_envelope;
          do 2 eexists; reflexivity ].

Lemma send_request_writes_requests lib env method params :
  extends (writes_requests lib) (send_request lib env method params).
Proof. extends_auto request_side. Qed.

Lemma run_validation_async_writes_requests
    lib env fs project_path llm_provider model api_key policy_content :
  extends (writes_requests lib)
    (run_validation_async lib env fs project_path llm_provider model api_key
       policy_content).
Proof. extends_auto request_side. Qed.

(** C10. Whatever [send_request] writes to the worker is one JSON object with
    ["jsonrpc"] bound to ["2.0"] and ["id"] bound to the number 1, followed by
    a line feed; and everything a whole run writes to the worker (the
    initialize request and every tool call) is such a line, so all requests of
    a run carry the same id 1. *)
Theorem request_id_is_always_one (lib : Lib) (env : Env) :
  (forall method params s,
     exists evs,
       trace (snd (send_request lib env method params s)) = (evs ++ trace s)%list
       /\ Forall (writes_requests lib) evs)
  /\ (forall fs project_path llm_provider model api_key policy_content s,
        exists evs,
          trace (snd (run_validation_async lib env fs project_path llm_provider
                        model api_key policy_content s)) = (evs ++ trace s)%list
          /\ Forall (writes_requests lib) evs).
Proof.
  split; intros.
  - apply send_request_writes_requests.
  - apply run_validation_async_writes_requests.
Qed.

(** ** C9: an unsupported provider *)

Lemma chats_app_none (evs t : list event) :
  Forall not_chat evs -> chats (evs ++ t) = chats t.
Proof.
  unfold chats. induction 1 as [| ev evs Hev _ IH]; simpl; [reflexivity |].
  rewrite Hev. exact IH.
Qed.

Lemma prepare_not_chat lib env fs pp pc :
  extends not_chat (prepare lib env fs pp pc).
Proof. extends_auto ltac:(reflexivity). Qed.

Lemma close_not_chat env : extends not_chat (close env).
Proof. extends_auto ltac:(reflexivity). Qed.

Lemma evaluate_unsupported lib env prov model key policy files s :
  prov <> "OpenAI" -> prov <> "Anthropic" ->
  evaluate lib env prov model key policy files s
  = (Raise (Exn ValueError ("Unsupported LLM provider: " ++ prov)), s).
Proof.
  intros H1 H2. unfold evaluate, bind.
  apply String.eqb_neq in H1, H2. rewrite H1, H2. reflexivity.
Qed.

Lemma run_validation_async_unsupported lib env fs pp prov model key pc s :
  prov <> "OpenAI" -> prov <> "Anthropic" ->
  run_validation_async lib env fs pp prov model key pc s
  = let (r, s1) := prepare lib env fs pp pc (fresh s) in
    let msg := match r with
               | Return _ => "Unsupported LLM provider: " ++ prov
               | Raise e => exn_str e
               end in
    match close env s1 with
    | (Return _, s2) => (Return (Failure msg), s2)
    | (Raise e, s2) => (Raise e, s2)
    end.
Proof.
  intros H1 H2.
  unfold run_validation_async, bind, set_process, try_finally, try_except.
  fold (fresh s).
  destruct (prepare lib env fs pp pc (fresh s)) as [[pf | e] s1].
  - rewrite evaluate_unsupported by assumption. reflexivity.
  - reflexivity.
Qed.

(** C9 as stated fails: with the provider ["Gemini"] in a world without the
    launcher, the run fails at [start_server], and the error of the record
    it returns is the one of the launcher; it does not mention the provider. *)
Lemma unsupported_provider_after_failed_start :
  fst (run_validation_async Sample.lib sample_no_launcher Sample.project "/tmp/p"
         "Gemini" "gpt-4" "key" None Sample.start)
  = Return (Failure "npx is not available. Please install Node.js and npm.").
Proof. vm_compute. reflexivity. Qed.

(** C9, amended. For a provider name other than ["OpenAI"] and ["Anthropic"]
    a run sends no request to a model endpoint and never returns a success
    record; when the steps before the dispatch succeed (and [close] returns)
    its result is the failure record whose error is
    ["Unsupported LLM provider: "] followed by the name. *)
Theorem unsupported_provider_fails
    (lib : Lib) (env : Env) (fs : node)
    (project_path llm_provider model api_key : string)
    (policy_content : option string) (s : state) :
  llm_provider <> "OpenAI" -> llm_provider <> "Anthropic" ->
  let run := run_validation_async lib env fs project_path llm_provider model
               api_key policy_content s in
  chats (trace (snd run)) = chats (trace s)
  /\ (forall policy files report, fst run <> Return (Success policy files report))
  /\ (forall pf s1 s2,
        prepare lib env fs project_path policy_content (fresh s) = (Return pf, s1) ->
        close env s1 = (Return tt, s2) ->
        run = (Return (Failure ("Unsupported LLM provider: " ++ llm_provider)), s2)).
Proof.
  intros H1 H2 run. subst run.
  rewrite run_validation_async_unsupported by assumption.
  destruct (prepare_not_chat lib env fs project_path policy_content (fresh s))
    as (evs & Ht & Hevs).
  destruct (prepare lib env fs project_path policy_content (fresh s)) as [r s1].
  simpl in Ht.
  destruct (close_not_chat env s1) as (evs' & Ht' & Hevs').
  destruct (close env s1) as [[[] | e] s2] eqn:Hc0; simpl in Ht' |- *.
  - split; [ | split ].
    + rewrite Ht', chats_app_none, Ht, chats_app_none by assumption. reflexivity.
    + intros; discriminate.
    + intros pf s1' s2' Hp Hc. inversion Hp; subst.
      rewrite Hc0 in Hc. inversion Hc; subst. reflexivity.
  - split; [ | split ].
    + rewrite Ht', chats_app_none, Ht, chats_app_none by assumption. reflexivity.
    + intros; discriminate.
    + intros pf s1' s2' Hp Hc. inversion Hp; subst.
      rewrite Hc0 in Hc. discriminate.
Qed.

(** The scenario of the specification: the provider ["Gemini"] on the sample
    project, in a world where every other step works. *)
Lemma unsupported_provider_fails_witness :
  let run := run_validation_async Sample.lib (sample_world "report") Sample.project
               "/tmp/p" "Gemini" "gpt-4" "key" None Sample.start in
  fst run = Return (Failure "Unsupported LLM provider: Gemini")
  /\ chats (trace (snd run)) = [].
Proof.
  intros run.
  destruct (unsupported_provider_fails Sample.lib (sample_world "report")
              Sample.project "/tmp/p" "Gemini" "gpt-4" "key" None Sample.start)
    as (Hchat & _ & Hres).
  - discriminate.
  - discriminate.
  - subst run. split.
    + erewrite Hres; [reflexivity | vm_compute; reflexivity | vm_compute; reflexivity].
    + exact Hchat.
Defined.

(** ** C1: what [run_validation_async] hands to its caller *)

(** The [try] block with its handler always yields a record. *)
Lemma guarded_body_returns lib env fs pp prov model key pc s :
  exists r,
    fst (try_except
           (pf <- prepare lib env fs pp pc ;;
            evaluate lib env prov model key (fst pf) (snd pf))
           (fun e => ret (Failure (exn_str e))) s) = Return r.
Proof.
  unfold try_except.
  destruct ((pf <- prepare lib env fs pp pc ;;
             evaluate lib env prov model key (fst pf) (snd pf)) s)
    as [[r | e] s1]; simpl; eauto.
Qed.

Lemma close_returns env s :
  close_calls_succeed env -> fst (close env s) = Return tt.
Proof.
  intros (Hterm & Hkill & Hwait).
  unfold close, process_terminate, process_wait_for, process_kill, process_wait,
    process_returncode, try_except, bind, emit, ask, get_process, set_process,
    or_raise, ret, raise; simpl.
  destruct (self_process s) as [p |]; simpl; [ | reflexivity ].
  rewrite Hterm; simpl.
  destruct (returncode p) as [rc |]; simpl; [ reflexivity | ].
  match goal with |- context [env_exited env ?t] => destruct (env_exited env t) end;
    simpl; [ reflexivity | ].
  match goal with
  | |- context [env_wait_for env ?t] =>
      pose proof (Hwait t) as Hw; destruct (env_wait_for env t) as [| e |]
  end; simpl.
  - rewrite Hkill; simpl.
    match goal with |- context [env_exited env ?t] => destruct (env_exited env t) end;
      reflexivity.
  - exfalso. exact (Hw e eq_refl).
  - reflexivity.
Qed.

(** X1. When the calls of [close] on the worker do not raise, every run hands a
    record to its caller, whatever fails before. *)
Lemma run_validation_async_returns lib env fs pp prov model key pc s :
  close_calls_succeed env ->
  exists r, fst (run_validation_async lib env fs pp prov model key pc s) = Return r.
Proof.
  intro Hc.
  unfold run_validation_async, bind at 1, set_process, try_finally.
  match goal with
  | |- context [try_except ?c ?h ?s0] =>
      destruct (guarded_body_returns lib env fs pp prov model key pc s0) as (r & Hr);
      destruct (try_except c h s0) as [r0 s1]
  end.
  simpl in Hr. subst r0.
  pose proof (close_returns env s1 Hc) as Hcl.
  destruct (close env s1) as [[u | e] s2]; simpl in *; [ eauto | discriminate ].
Qed.

(** X2. What a run hands to its caller: the [try] block with its handler leaves a
    record, and [close] decides whether the caller receives it. An exception
    reaches the caller exactly when [close] raises it. *)
Theorem run_validation_async_outcome
    (lib : Lib) (env : Env) (fs : node)
    (project_path llm_provider model api_key : string)
    (policy_content : option string) (s : state) :
  exists r s1,
    try_except
      (pf <- prepare lib env fs project_path policy_content ;;
       evaluate lib env llm_provider model api_key (fst pf) (snd pf))
      (fun e => ret (Failure (exn_str e))) (fresh s) = (Return r, s1)
    /\ run_validation_async lib env fs project_path llm_provider model api_key
         policy_content s
       = match close env s1 with
         | (Return _, s2) => (Return r, s2)
         | (Raise e, s2) => (Raise e, s2)
         end.
Proof.
  pose proof (guarded_body_returns lib env fs project_path llm_provider model api_key
                policy_content (fresh s)) as (r & Hr).
  change (run_validation_async lib env fs project_path llm_provider model api_key
            policy_content s)
    with (let (r0, s1) :=
            try_except
              (pf <- prepare lib env fs project_path policy_content ;;
               evaluate lib env llm_provider model api_key (fst pf) (snd pf))
              (fun e => ret (Failure (exn_str e))) (fresh s) in
          match close env s1 with
          | (Return _, s2) => (r0, s2)
          | (Raise e, s2) => (Raise e, s2)
          end).
  set (body := try_except _ _) in *.
  destruct (body (fresh s)) as [r0 s1].
  simpl in Hr. subst r0. exists r, s1. split; [ reflexivity | ].
  destruct (close env s1) as [[u | e] s2]; reflexivity.
Qed.

(** C1, at the failing input. The worker exits during the start-up grace
    period, so [start_server] raises and the handler builds the failure
    record; [close] then calls [terminate()] on the process that is gone,
    which raises [ProcessLookupError], and that exception is what the caller
    of [run_validation_async] receives. *)
Theorem run_validation_async_close_exception_escapes :
  fst (run_validation_async Sample.lib
         (Sample.world (fun _ => Some 1%Z) [] (Some (Exn ProcessLookupError ""))
            (inr (VStr "report")))
         Sample.project "/tmp/p" "OpenAI" "gpt-4" "key" None Sample.start)
  = Raise (Exn ProcessLookupError "").
Proof. vm_compute. reflexivity. Qed.

(** ** C3: repeating [close] *)

(** C3 as stated fails: on a started client in a world where the worker obeys
    [terminate()], the first [close] returns, and a second [close] on the
    state it leaves issues [terminate()] once more. *)
Lemma close_twice_terminates_twice :
  let env := Sample.world Sample.alive [] None (inr (VStr "report")) in
  let s1 := snd (close env Sample.started) in
  fst (close env Sample.started) = Return tt
  /\ worker_actions (trace s1) = [EvTerminate]
  /\ worker_actions (trace (snd (close env s1))) = [EvTerminate; EvTerminate].
Proof. vm_compute. repeat split. Qed.

Lemma close_not_started env s :
  self_process s = None ->
  close env s = (Return tt, {| self_process := None; trace := EvCloseCalled :: trace s |}).
Proof.
  intro H. unfold close, bind, emit, get_process, ret. simpl. rewrite H. reflexivity.
Qed.

Lemma close_times_not_started env n :
  forall s, self_process s = None ->
  exists s', close_times env n s = (Return tt, s')
             /\ self_process s' = None
             /\ worker_actions (trace s') = worker_actions (trace s).
Proof.
  induction n as [| n IH]; intros s H; simpl.
  - exists s. split; [ reflexivity | split; [ exact H | reflexivity ] ].
  - unfold bind. rewrite (close_not_started env s H).
    destruct (IH {| self_process := None; trace := EvCloseCalled :: trace s |} eq_refl)
      as (s' & Hrun & Hp & Hw).
    exists s'. repeat split; assumption.
Qed.

Lemma close_started_terminates env s p :
  self_process s = Some p ->
  exists evs,
    trace (snd (close env s)) = (evs ++ EvTerminate :: EvCloseCalled :: trace s)%list.
Proof.
  intro H.
  assert (He : extends (fun _ => True)
                 (try_except (process_wait_for env 5 ;; ret tt)
                    (fun e => if is_instance e TimeoutError
                              then process_kill env ;; process_wait env ;; ret tt
                              else raise e))).
  { extends_auto ltac:(exact I). }
  unfold close, process_terminate, bind at 1 2 3 4 5, emit, get_process, ask.
  simpl. rewrite H.
  match goal with |- context [or_raise ?x] => destruct x end; simpl.
  - exists []. reflexivity.
  - match goal with
    | |- context [try_except ?c ?h ?s1] => destruct (He s1) as (evs & Ht & _)
    end.
    exists evs. exact Ht.
Qed.

Lemma close_leaves_worker_exited env s p s' :
  self_process s = Some p ->
  close env s = (Return tt, s') ->
  exists rc, self_process s' = Some {| returncode := Some rc |}.
Proof.
  intros H.
  unfold close, process_terminate, process_wait_for, process_kill, process_wait,
    process_returncode, try_except, bind, emit, ask, get_process, set_process,
    or_raise, ret, raise; simpl.
  rewrite H. destruct p as [rc0].
  repeat match goal with
         | |- context [match ?x with _ => _ end] =>
             match x with
             | env_terminate _ _ => destruct x
             | env_exited _ _ => destruct x
             | env_wait_for _ _ => destruct x
             | env_kill _ _ => destruct x
             | is_instance _ _ => destruct x
             | rc0 => destruct x
             end; simpl
         end;
    intro Heq; inversion Heq; subst; simpl; eauto.
Qed.

Lemma send_request_not_running lib env method params s :
  is_running env s = false ->
  fst (send_request lib env method params s)
  = Raise (Exn RuntimeError "MCP server is not running").
Proof.
  unfold is_running, send_request, not_running, process_returncode, bind,
    get_process, set_process, ask, ret, raise.
  destruct s as [[[[rc |]] |] t]; simpl; try reflexivity.
  destruct (env_exited env t); simpl; [ reflexivity | discriminate ].
Qed.

(** C3, amended. On a client that was never started [close] neither raises
    nor acts on a worker, however often it is repeated. On a client that has
    a process, every call of [close] (a repeated one as well) issues
    [terminate()]; a call that returns leaves the process handle in place with
    the return code of the exited worker, so that [send_request] fails from
    then on with "MCP server is not running". *)
Theorem close_repeated (env : Env) (s : state) :
  (self_process s = None ->
   forall n, exists s',
     close_times env n s = (Return tt, s')
     /\ self_process s' = None
     /\ worker_actions (trace s') = worker_actions (trace s))
  /\ (forall p, self_process s = Some p ->
      exists evs,
        trace (snd (close env s))
        = (evs ++ EvTerminate :: EvCloseCalled :: trace s)%list)
  /\ (forall p s', self_process s = Some p ->
      close env s = (Return tt, s') ->
      (exists rc, self_process s' = Some {| returncode := Some rc |})
      /\ (forall lib method params,
            fst (send_request lib env method params s')
            = Raise (Exn RuntimeError "MCP server is not running"))).
Proof.
  split; [ | split ].
  - intros H n. apply close_times_not_started. exact H.
  - intros p H. eapply close_started_terminates. exact H.
  - intros p s' H Hc.
    destruct (close_leaves_worker_exited env s p s' H Hc) as (rc & Hrc).
    split; [ eauto | ].
    intros. apply send_request_not_running.
    unfold is_running. rewrite Hrc. reflexivity.
Qed.

Lemma close_repeated_witness :
  let env := Sample.world Sample.alive [] None (inr (VStr "report")) in
  let s1 := snd (close env Sample.started) in
  (exists s', close_times env 3 Sample.start = (Return tt, s')
              /\ self_process s' = None
              /\ worker_actions (trace s') = [])
  /\ (exists evs, trace (snd (close env s1))
                  = (evs ++ EvTerminate :: EvCloseCalled :: trace s1)%list)
  /\ fst (send_request Sample.lib env "initialize" None s1)
     = Raise (Exn RuntimeError "MCP server is not running").
Proof.
  intros env s1.
  split; [ | split ].
  - destruct (close_repeated env Sample.start) as (H1 & _ & _).
    exact (H1 eq_refl 3).
  - destruct (close_repeated env s1) as (_ & H2 & _).
    eapply H2. vm_compute. reflexivity.
  - destruct (close_repeated env Sample.started) as (_ & _ & H3).
    eapply H3; [ reflexivity | vm_compute; reflexivity ].
Defined.

(** ** C2: the cases of [send_request] *)





Lemma sample_close_calls_succeed exits replies chat :
  close_calls_succeed (Sample.world exits replies None chat).
Proof. repeat split; intros; discriminate. Qed.


(** ** Further properties of a run *)

Lemma run_validation_async_returns_witness :
  exists r,
    fst (run_validation_async Sample.lib
           (Sample.world (fun _ => Some 1%Z) [] None (inr (VStr "report")))
           Sample.project "/tmp/p" "OpenAI" "gpt-4" "key" None Sample.start)
    = Return r.
Proof.
  apply run_validation_async_returns. apply sample_close_calls_succeed.
Defined.

(** The end-to-end scenario of the specification: the project holds
    [README.md], [src/main.x], [tests/test_main.x] and a [policy.txt] with the
    text "Expect README.md, src/, tests/" (and two hidden entries); no policy
    text is supplied. The run returns the success record with the text of
    the file, the sorted listing and the reply of the model, after the
    requests [initialize] and [tools/call], one request to the model endpoint
    and one [terminate()]. *)
Example end_to_end_scenario :
  let run := run_validation_async Sample.lib (sample_world "The structure follows the policy.")
               Sample.project "/tmp/p" "OpenAI" "gpt-4" "key" None Sample.start in
  fst run
  = Return (Success (VStr "Expect README.md, src/, tests/")
              ["README.md"; "policy.txt"; "src/"; "src/main.x"; "tests/";
               "tests/test_main.x"]
              (VStr "The structure follows the policy."))
  /\ List.length (chats (trace (snd run))) = 1
  /\ worker_actions (trace (snd run)) = [EvTerminate]
  /\ closes (trace (snd run)) = 1.
Proof. vm_compute. repeat split. Qed.

Lemma prepare_not_worker_action lib env fs pp pc :
  extends not_worker_action (prepare lib env fs pp pc).
Proof. extends_auto ltac:(reflexivity). Qed.

Lemma evaluate_not_worker_action lib env prov model key policy files :
  extends not_worker_action (evaluate lib env prov model key policy files).
Proof. extends_auto ltac:(reflexivity). Qed.

Lemma worker_actions_app_none (evs t : list event) :
  Forall not_worker_action evs -> worker_actions (evs ++ t) = worker_actions t.
Proof.
  unfold worker_actions. induction 1 as [| ev evs Hev _ IH]; simpl; [ reflexivity | ].
  rewrite Hev. exact IH.
Qed.

(** ** C5 and C6: the policy resolver *)

Lemma supplied_true (text : string) :
  strip text <> "" -> supplied (Some text) = true.
Proof.
  intro H. unfold supplied.
  assert (Ht : text <> "") by (intro; subst; apply H; reflexivity).
  apply String.eqb_neq in H, Ht. rewrite H, Ht. reflexivity.
Qed.

Lemma supplied_false (policy_content : option string) :
  policy_content = None
  \/ (exists text, policy_content = Some text /\ strip text = "") ->
  supplied policy_content = false.
Proof.
  intros [-> | (text & -> & H)]; [ reflexivity | ].
  unfold supplied. rewrite H. simpl. apply andb_false_r.
Qed.

Lemma supplied_cases (policy_content : option string) :
  (exists text, policy_content = Some text /\ strip text <> ""
                /\ supplied policy_content = true)
  \/ ((policy_content = None
       \/ exists text, policy_content = Some text /\ strip text = "")
      /\ supplied policy_content = false).
Proof.
  destruct policy_content as [text |].
  - destruct (String.eqb_spec (strip text) "") as [He | Hne].
    + right. split; [ right; eauto | apply supplied_false; right; eauto ].
    + left. exists text. repeat split; [ exact Hne | apply supplied_true; exact Hne ].
  - right. split; [ left; reflexivity | reflexivity ].
Qed.

(** The resolver once the supplied text is ruled out: the read at the root,
    then the read at its [dirname], then the error. *)
Lemma get_project_guidelines_fallback lib ct project_path policy_content s :
  supplied policy_content = false ->
  get_project_guidelines lib ct project_path policy_content s
  = match read_policy lib ct (os_path_join lib project_path "policy.txt") s with
    | (Return policy, s1) => (Return policy, s1)
    | (Raise _, s1) =>
        match read_policy lib ct
                (os_path_join lib (os_path_dirname lib project_path) "policy.txt") s1
        with
        | (Return policy, s2) => (Return policy, s2)
        | (Raise _, s2) =>
            (Raise (Exn FileNotFoundError
                      "policy.txt not found and no policy content provided"), s2)
        end
    end.
Proof.
  intro H. unfold get_project_guidelines. rewrite H.
  unfold attempt, try_except, bind, ret, raise.
  destruct (read_policy lib ct (os_path_join lib project_path "policy.txt") s)
    as [[policy | e] s1]; [ reflexivity | ].
  destruct (read_policy lib ct
              (os_path_join lib (os_path_dirname lib project_path) "policy.txt") s1)
    as [[policy | e'] s2]; reflexivity.
Qed.

(** The resolution order of [get_project_guidelines], for any client and any
    path functions.
    (1) A supplied text that is non-empty after trimming is returned as it
    was supplied, and the client is not used: the state is unchanged.
    Otherwise (2) [policy.txt] is read through the client at the project
    root, and what the read yields is returned; when that attempt raises,
    whatever it raises, (3) the same read is made at [os.path.dirname] of
    the project root, and what it yields is returned;
    when that raises as well, (4) the resolver raises the [FileNotFoundError]
    and none of the attempts' exceptions. *)
Theorem get_project_guidelines_order
    (lib : Lib) (client_call_tool : string -> value -> M value)
    (project_path : string) (policy_content : option string) (s : state) :
  let root_file := os_path_join lib project_path "policy.txt" in
  let parent_file :=
    os_path_join lib (os_path_dirname lib project_path) "policy.txt" in
  let run := get_project_guidelines lib client_call_tool project_path policy_content s in
  (forall text,
     policy_content = Some text -> strip text <> "" ->
     run = (Return (VStr text), s))
  /\ (policy_content = None
      \/ (exists text, policy_content = Some text /\ strip text = "") ->
      match read_policy lib client_call_tool root_file s with
      | (Return policy, s1) => run = (Return policy, s1)
      | (Raise _, s1) =>
          match read_policy lib client_call_tool parent_file s1 with
          | (Return policy, s2) => run = (Return policy, s2)
          | (Raise _, s2) =>
              run = (Raise (Exn FileNotFoundError
                              "policy.txt not found and no policy content provided"),
                     s2)
          end
      end).
Proof.
  intros root_file parent_file run. subst root_file parent_file run. split.
  - intros text -> H. unfold get_project_guidelines.
    rewrite (supplied_true text H). reflexivity.
  - intro H. rewrite (get_project_guidelines_fallback _ _ _ _ _ (supplied_false _ H)).
    destruct (read_policy lib client_call_tool
                (os_path_join lib project_path "policy.txt") s)
      as [[policy | e] s1]; [ reflexivity | ].
    destruct (read_policy lib client_call_tool
                (os_path_join lib (os_path_dirname lib project_path) "policy.txt") s1)
      as [[policy | e'] s2]; reflexivity.
Qed.

(** The four cases on the sample client: a supplied text with blanks around
    it; [policy.txt] at the root; an error at the root and [policy.txt] at
    its [dirname]; errors at both places. *)
Lemma get_project_guidelines_order_witness :
  let found := Sample.line (Sample.tool_result Sample.policy_text) in
  let missing := Sample.line Sample.error_reply in
  let client replies :=
    call_tool Sample.lib (Sample.world Sample.alive replies None (inr (VStr "report"))) in
  let resolve replies policy_content :=
    get_project_guidelines Sample.lib (client replies) "/tmp/p" policy_content
      Sample.started in
  resolve [found] (Some " use src/ ") = (Return (VStr " use src/ "), Sample.started)
  /\ fst (resolve [found] None) = Return (VStr Sample.policy_text)
  /\ fst (resolve [missing; found] (Some "  ")) = Return (VStr Sample.policy_text)
  /\ fst (resolve [missing; missing] None)
     = Raise (Exn FileNotFoundError
                "policy.txt not found and no policy content provided").
Proof.
  intros found missing client resolve. subst resolve.
  split; [ | split; [ | split ] ].
  - destruct (get_project_guidelines_order Sample.lib (client [found]) "/tmp/p"
                (Some " use src/ ") Sample.started) as (H & _).
    apply H; [ reflexivity | vm_compute; discriminate ].
  - destruct (get_project_guidelines_order Sample.lib (client [found]) "/tmp/p"
                None Sample.started) as (_ & H).
    specialize (H (or_introl eq_refl)).
    vm_compute in H. vm_compute. congruence.
  - destruct (get_project_guidelines_order Sample.lib (client [missing; found]) "/tmp/p"
                (Some "  ") Sample.started) as (_ & H).
    specialize (H (or_intror (ex_intro _ "  " (conj eq_refl eq_refl)))).
    vm_compute in H. vm_compute. congruence.
  - destruct (get_project_guidelines_order Sample.lib (client [missing; missing])
                "/tmp/p" None Sample.started) as (_ & H).
    specialize (H (or_introl eq_refl)).
    vm_compute in H. vm_compute. congruence.
Defined.

(** The same order as the worker sees it: with no supplied text and no
    [policy.txt] at either place, the client writes one [read_file] request
    for the file at the project root and then one for the file one level
    up. *)
Example get_project_guidelines_requests :
  let env := Sample.world Sample.alive
               [Sample.line Sample.error_reply; Sample.line Sample.error_reply]
               None (inr (VStr "report")) in
  let read path :=
    request_line Sample.lib "tools/call"
      (Some (VDict [("name", VStr "read_file");
                    ("arguments", VDict [("path", VStr path)])])) in
  rev (trace (snd (get_project_guidelines Sample.lib (call_tool Sample.lib env)
                     "/tmp/p" None Sample.started)))
  = [ EvStdinWrite (read "/tmp/p/policy.txt"); EvStdinDrain; EvReadline 15;
      EvStdinWrite (read "/tmp/policy.txt"); EvStdinDrain; EvReadline 15 ].
Proof. vm_compute. reflexivity. Qed.

(** C6 as stated fails: when [policy.txt] at the root is an empty file, the
    tool answers with an empty text block and the resolver returns the empty
    string. *)
Lemma get_project_guidelines_returns_empty :
  fst (get_project_guidelines Sample.lib
         (call_tool Sample.lib
            (Sample.world Sample.alive [Sample.line (Sample.tool_result "")] None
               (inr (VStr "report"))))
         "/tmp/p" None Sample.started)
  = Return (VStr "").
Proof. vm_compute. reflexivity. Qed.

(** C6, amended. The resolver returns the supplied text when that is
    non-empty after trimming (hence a non-empty string); otherwise it returns
    what [policy_of_result] makes of the result of a [read_file] call (the
    text of the first content block, with the empty string where the block
    has no text or the result no content, so possibly an empty string), or it
    raises the [FileNotFoundError]. It raises nothing else. *)
Theorem get_project_guidelines_outcomes
    (lib : Lib) (client_call_tool : string -> value -> M value)
    (project_path : string) (policy_content : option string) (s : state) :
  let run := get_project_guidelines lib client_call_tool project_path policy_content s in
  (exists text,
     policy_content = Some text /\ text <> "" /\ strip text <> ""
     /\ fst run = Return (VStr text))
  \/ (supplied policy_content = false
      /\ exists path s0 result policy,
           fst (client_call_tool "read_file" (VDict [("path", VStr path)]) s0)
           = Return result
           /\ policy_of_result lib result = Return policy
           /\ fst run = Return policy)
  \/ (supplied policy_content = false
      /\ fst run = Raise (Exn FileNotFoundError
                            "policy.txt not found and no policy content provided")).
Proof.
  intro run. subst run.
  destruct (supplied_cases policy_content) as [(text & -> & Hne & Hs) | (Hc & Hs)].
  - left. exists text. repeat split.
    + intro; subst; apply Hne; reflexivity.
    + exact Hne.
    + unfold get_project_guidelines. rewrite Hs. reflexivity.
  - right. rewrite (get_project_guidelines_fallback _ _ _ _ _ Hs).
    assert (Hread : forall path s0 policy s1,
               read_policy lib client_call_tool path s0 = (Return policy, s1) ->
               exists result,
                 fst (client_call_tool "read_file" (VDict [("path", VStr path)]) s0)
                 = Return result
                 /\ policy_of_result lib result = Return policy).
    { intros path s0 policy s1. unfold read_policy, bind, lift.
      destruct (client_call_tool "read_file" (VDict [("path", VStr path)]) s0)
        as [[result | e] s']; simpl; [ | discriminate ].
      intro H. exists result. split; [ reflexivity | congruence ]. }
    destruct (read_policy lib client_call_tool
                (os_path_join lib project_path "policy.txt") s)
      as [[policy | e] s1] eqn:H1.
    + left. split; [ exact Hs | ].
      destruct (Hread _ _ _ _ H1) as (result & Hr & Hp).
      exists (os_path_join lib project_path "policy.txt"), s, result, policy.
      repeat split; assumption.
    + destruct (read_policy lib client_call_tool
                  (os_path_join lib (os_path_dirname lib project_path) "policy.txt") s1)
        as [[policy | e'] s2] eqn:H2.
      * left. split; [ exact Hs | ].
        destruct (Hread _ _ _ _ H2) as (result & Hr & Hp).
        exists (os_path_join lib (os_path_dirname lib project_path) "policy.txt"),
          s1, result, policy.
        repeat split; assumption.
      * right. split; [ exact Hs | reflexivity ].
Qed.

(** ** C7 and C8: the directory snapshotter *)

(** *** The order of strings and [sorted] *)

Lemma ascii_compare_lt_trans (a b c : ascii) :
  Ascii.compare a b = Lt -> Ascii.compare b c = Lt -> Ascii.compare a c = Lt.
Proof.
  unfold Ascii.compare. rewrite !N.compare_lt_iff. apply N.lt_trans.
Qed.

Lemma string_leb_trans (a b c : string) :
  String.leb a b = true -> String.leb b c = true -> String.leb a c = true.
Proof.
  unfold String.leb. revert b c.
  induction a as [| x a IH]; intros [| y b] [| z c]; simpl; try congruence.
  destruct (Ascii.compare x y) eqn:Hxy; try congruence;
    destruct (Ascii.compare y z) eqn:Hyz; try congruence.
  - apply Ascii.compare_eq_iff in Hxy, Hyz. subst.
    replace (Ascii.compare z z) with Eq
      by (symmetry; unfold Ascii.compare; apply N.compare_refl).
    apply IH.
  - apply Ascii.compare_eq_iff in Hxy. subst. rewrite Hyz. congruence.
  - apply Ascii.compare_eq_iff in Hyz. subst. rewrite Hxy. congruence.
  - rewrite (ascii_compare_lt_trans _ _ _ Hxy Hyz). congruence.
Qed.

Lemma insert_sorted_perm (x : string) (l : list string) :
  Permutation (insert_sorted x l) (x :: l).
Proof.
  induction l as [| y l IH]; simpl; [ reflexivity | ].
  destruct (String.leb x y); [ reflexivity | ].
  rewrite IH. apply perm_swap.
Qed.

Lemma sorted_perm (l : list string) : Permutation (sorted l) l.
Proof.
  induction l as [| x l IH]; simpl; [ reflexivity | ].
  rewrite insert_sorted_perm. constructor. exact IH.
Qed.

Lemma insert_sorted_strongly (x : string) (l : list string) :
  StronglySorted str_le l -> StronglySorted str_le (insert_sorted x l).
Proof.
  induction 1 as [| y l Hl IH Hy]; simpl.
  - repeat constructor.
  - destruct (String.leb x y) eqn:Hxy.
    + constructor; [ constructor; assumption | ].
      constructor; [ exact Hxy | ].
      eapply Forall_impl; [ | exact Hy ].
      intros z Hz. eapply string_leb_trans; eassumption.
    + constructor; [ exact IH | ].
      assert (Hyx : str_le y x).
      { destruct (String.leb_total x y) as [H | H]; [ congruence | exact H ]. }
      eapply Permutation_Forall; [ symmetry; apply insert_sorted_perm | ].
      constructor; assumption.
Qed.

Lemma sorted_strongly (l : list string) : StronglySorted str_le (sorted l).
Proof.
  induction l as [| x l IH]; simpl; [ constructor | ].
  apply insert_sorted_strongly. exact IH.
Qed.

Lemma strongly_sorted_unique (l1 l2 : list string) :
  StronglySorted str_le l1 -> StronglySorted str_le l2 ->
  Permutation l1 l2 -> l1 = l2.
Proof.
  intro H1. revert l2.
  induction H1 as [| x l1 Hl1 IH Hx]; intros l2 H2 Hp.
  - apply Permutation_nil in Hp. congruence.
  - destruct H2 as [| y l2 Hl2 Hy].
    + symmetry in Hp. apply Permutation_nil in Hp. discriminate.
    + assert (Hxy : x = y).
      { assert (Hin1 : In x (y :: l2))
          by (eapply Permutation_in; [ exact Hp | left; reflexivity ]).
        assert (Hin2 : In y (x :: l1))
          by (eapply Permutation_in; [ symmetry; exact Hp | left; reflexivity ]).
        destruct Hin1 as [-> | Hin1]; [ reflexivity | ].
        destruct Hin2 as [-> | Hin2]; [ reflexivity | ].
        rewrite Forall_forall in Hx, Hy.
        apply String.leb_antisym; [ apply Hx; exact Hin2 | apply Hy; exact Hin1 ]. }
      subst y. f_equal. apply IH; [ exact Hl2 | ].
      eapply Permutation_cons_inv. exact Hp.
Qed.

Lemma sorted_of_permutation (l1 l2 : list string) :
  Permutation l1 l2 -> sorted l1 = sorted l2.
Proof.
  intro Hp. apply strongly_sorted_unique; try apply sorted_strongly.
  rewrite !sorted_perm. exact Hp.
Qed.

(** *** The walk, entry by entry *)

Lemma node_induction (P : node -> Prop) :
  P File -> (forall e, P (DirError e)) -> P Special ->
  (forall entries, Forall (fun entry => P (snd entry)) entries -> P (Dir entries)) ->
  forall t, P t.
Proof.
  intros HFile HErr HSpecial HDir.
  refine (fix IH (t : node) : P t :=
            match t with
            | File => HFile
            | DirError e => HErr e
            | Special => HSpecial
            | Dir entries =>
                HDir entries
                  ((fix all (l : list (string * node))
                      : Forall (fun entry => P (snd entry)) l :=
                      match l with
                      | [] => Forall_nil _
                      | entry :: l' => Forall_cons entry (IH (snd entry)) (all l')
                      end) entries)
            end).
Qed.

Lemma both_nil_l (r : outcome (list string)) : both (Return []) r = r.
Proof. destruct r; reflexivity. Qed.

Section Walk.

Variable lib : Lib.
Variable project_path : string.

Let walk := get_files_recursive lib project_path.

Lemma walk_dir_nil path : walk path (Dir []) = Return [].
Proof. reflexivity. Qed.

Lemma walk_dir_cons path entry entries :
  walk path (Dir (entry :: entries))
  = both (walk_item lib project_path path entry) (walk path (Dir entries)).
Proof.
  destruct entry as [item child]. unfold walk, walk_item. simpl.
  destruct (startswith item ".").
  - symmetry. apply both_nil_l.
  - destruct child; simpl; try (symmetry; apply both_nil_l).
    + reflexivity.
    + match goal with
      | |- context [both (match ?x with _ => _ end) _] => destruct x
      end; reflexivity.
    + destruct (is_instance e PermissionError); reflexivity.
Qed.

Lemma both_return r1 r2 l :
  both r1 r2 = Return l ->
  exists a b, r1 = Return a /\ r2 = Return b /\ l = (a ++ b)%list.
Proof.
  destruct r1 as [a | e]; [ | discriminate ].
  destruct r2 as [b | e]; [ | discriminate ].
  simpl. intro H. inversion H. eauto.
Qed.

Lemma entry_at_leaf t names child :
  entry_at t names child -> exists entries, t = Dir entries.
Proof. destruct 1; eauto. Qed.

Lemma listed_leaf path t s :
  (forall entries, t <> Dir entries) -> ~ listed lib project_path path t s.
Proof.
  intros Ht (names & child & He & _).
  destruct (entry_at_leaf _ _ _ He) as (entries & ->). eapply Ht. reflexivity.
Qed.

Lemma listed_nil path s : ~ listed lib project_path path (Dir []) s.
Proof.
  intros (names & child & He & _). inversion He; subst; contradiction.
Qed.

Lemma listed_cons path name d entries s :
  listed lib project_path path (Dir ((name, d) :: entries)) s
  <-> (hidden name = false
       /\ (render lib project_path (os_path_join lib path name) d = Some s
           \/ listed lib project_path (os_path_join lib path name) d s))
      \/ listed lib project_path path (Dir entries) s.
Proof.
  split.
  - intros (names & child & He & Hr).
    inversion He as [es n c Hin Hv | es n d' ch c Hin Hv Hbelow]; subst.
    + destruct Hin as [Heq | Hin].
      * inversion Heq; subst. left. split; [ assumption | left; exact Hr ].
      * right. exists [n], child. split; [ constructor; assumption | exact Hr ].
    + destruct Hin as [Heq | Hin].
      * inversion Heq; subst. left. split; [ assumption | right ].
        exists ch, child. split; [ assumption | exact Hr ].
      * right. exists (n :: ch), child.
        split; [ econstructor; eassumption | exact Hr ].
  - intros [(Hv & [Hr | (names & child & He & Hr)]) | (names & child & He & Hr)].
    + exists [name], d. split; [ constructor; [ left; reflexivity | exact Hv ] | exact Hr ].
    + exists (name :: names), child.
      split; [ econstructor; [ left; reflexivity | exact Hv | exact He ] | exact Hr ].
    + exists names, child. split; [ | exact Hr ].
      inversion He as [es n c Hin Hv | es n d' ch c Hin Hv Hbelow]; subst.
      * constructor; [ right; assumption | assumption ].
      * econstructor; [ right; eassumption | assumption | assumption ].
Qed.

(** What [walk_item] returns, given what the walk of the child returns. *)
Lemma walk_item_listed path name d a :
  (forall p l, walk p d = Return l ->
               forall s, In s l <-> listed lib project_path p d s) ->
  walk_item lib project_path path (name, d) = Return a ->
  forall s,
    In s a
    <-> hidden name = false
        /\ (render lib project_path (os_path_join lib path name) d = Some s
            \/ listed lib project_path (os_path_join lib path name) d s).
Proof.
  intros IH. unfold walk_item, hidden, render.
  destruct (startswith name ".") eqn:Hh.
  - intros Ha s. inversion Ha; subst. simpl. split; [ contradiction | ].
    intros (Hf & _). discriminate.
  - destruct d as [| entries | e |]; cbn [isfile isdir].
    + intros Ha s. inversion Ha; subst. simpl. split.
      * intros [<- | []]. split; [ reflexivity | left; reflexivity ].
      * intros (_ & [Hr | Hl]).
        -- inversion Hr. left. reflexivity.
        -- exfalso. revert Hl. apply listed_leaf. discriminate.
    + fold walk.
      destruct (walk (os_path_join lib path name) (Dir entries)) as [sub | e] eqn:Hsub;
        [ | discriminate ].
      intros Ha s. inversion Ha; subst. simpl.
      rewrite (IH _ _ Hsub s). split.
      * intros [<- | Hl]; (split; [ reflexivity | ]); [ left; reflexivity | right; exact Hl ].
      * intros (_ & [Hr | Hl]); [ left; congruence | right; exact Hl ].
    + fold walk.
      destruct (walk (os_path_join lib path name) (DirError e)) as [sub | e'] eqn:Hsub;
        [ | discriminate ].
      intros Ha s. inversion Ha; subst. simpl.
      rewrite (IH _ _ Hsub s). split.
      * intros [<- | Hl]; (split; [ reflexivity | ]); [ left; reflexivity | right; exact Hl ].
      * intros (_ & [Hr | Hl]); [ left; congruence | right; exact Hl ].
    + intros Ha s. inversion Ha; subst. simpl. split; [ contradiction | ].
      intros (_ & [Hr | Hl]); [ discriminate | ].
      exfalso. revert Hl. apply listed_leaf. discriminate.
Qed.

(** The walk returns exactly the renderings of the entries reached through
    visible names. *)
Lemma walk_listed t :
  forall path l, walk path t = Return l ->
  forall s, In s l <-> listed lib project_path path t s.
Proof.
  pattern t. apply node_induction; clear t.
  - discriminate.
  - intros e path l Hw s. unfold walk in Hw. simpl in Hw.
    destruct (is_instance e PermissionError); [ | discriminate ].
    inversion Hw; subst. simpl. split; [ contradiction | ].
    apply listed_leaf. discriminate.
  - discriminate.
  - intros entries IH path l Hw s. revert l Hw. induction IH as [| [name d] entries Hd _ IHentries]; intros l Hw.
    + rewrite walk_dir_nil in Hw. inversion Hw; subst. simpl.
      split; [ contradiction | apply listed_nil ].
    + rewrite walk_dir_cons in Hw.
      destruct (both_return _ _ _ Hw) as (a & b & Ha & Hb & ->).
      rewrite in_app_iff, listed_cons, (IHentries b Hb).
      rewrite (walk_item_listed path name d a Hd Ha s). reflexivity.
Qed.

(** *** Independence of the enumeration order *)

Lemma agree_refl r : agree r r.
Proof. destruct r; simpl; [ reflexivity | exact I ]. Qed.

Lemma agree_trans r1 r2 r3 : agree r1 r2 -> agree r2 r3 -> agree r1 r3.
Proof.
  destruct r1, r2, r3; simpl; try tauto. apply Permutation_trans.
Qed.

Lemma both_agree a1 a2 b1 b2 :
  agree a1 a2 -> agree b1 b2 -> agree (both a1 b1) (both a2 b2).
Proof.
  destruct a1, a2, b1, b2; simpl; try tauto. apply Permutation_app.
Qed.

Lemma both_swap_agree a b r : agree (both a (both b r)) (both b (both a r)).
Proof.
  destruct a, b, r; simpl; try exact I.
  rewrite !app_assoc. apply Permutation_app_tail. apply Permutation_app_comm.
Qed.

Lemma walk_item_agree path name t1 t2 :
  same_tree t1 t2 ->
  (forall p, agree (walk p t1) (walk p t2)) ->
  agree (walk_item lib project_path path (name, t1))
        (walk_item lib project_path path (name, t2)).
Proof.
  intros Hs IH. unfold walk_item.
  destruct (startswith name "."); [ apply agree_refl | ].
  destruct Hs; cbn [isfile isdir]; try apply agree_refl.
  fold walk. specialize (IH (os_path_join lib path name)).
  destruct (walk (os_path_join lib path name) (Dir es1)),
           (walk (os_path_join lib path name) (Dir es2)); simpl in *;
    try tauto.
  constructor. exact IH.
Qed.

Lemma walk_same_tree t1 t2 :
  same_tree t1 t2 -> forall path, agree (walk path t1) (walk path t2).
Proof.
  apply (same_tree_mut
           (fun t1 t2 => forall path, agree (walk path t1) (walk path t2))
           (fun l1 l2 => forall path, agree (walk path (Dir l1)) (walk path (Dir l2)))).
  - intro. apply agree_refl.
  - intro. apply agree_refl.
  - intros. apply agree_refl.
  - intros es1 es2 _ IH. exact IH.
  - intro. apply agree_refl.
  - intros name c1 c2 l1 l2 Hc IHc _ IHl path.
    rewrite !walk_dir_cons.
    apply both_agree; [ apply walk_item_agree; assumption | apply IHl ].
  - intros x y l path. rewrite !walk_dir_cons. apply both_swap_agree.
  - intros l1 l2 l3 _ IH1 _ IH2 path. eapply agree_trans; [ apply IH1 | apply IH2 ].
Qed.

(** *** Hidden entries *)

Lemma walk_item_prune path name d :
  (forall p, walk p (prune_hidden d) = walk p d) ->
  walk_item lib project_path path (name, prune_hidden d)
  = walk_item lib project_path path (name, d).
Proof.
  intro IH. unfold walk_item.
  destruct (startswith name "."); [ reflexivity | ].
  destruct d; try reflexivity.
  cbn [isfile isdir]. simpl isfile. simpl isdir. cbv iota.
  fold walk. fold (prune_hidden (Dir entries)). rewrite IH. reflexivity.
Qed.

Lemma walk_prune_hidden t :
  forall path, walk path (prune_hidden t) = walk path t.
Proof.
  pattern t. apply node_induction; clear t; try reflexivity.
  intros entries IH path.
  induction IH as [| [name d] entries Hd _ IHentries]; [ reflexivity | ].
  rewrite walk_dir_cons.
  change (prune_hidden (Dir ((name, d) :: entries)))
    with (match prune_hidden (Dir entries) with
          | Dir rest =>
              Dir (if hidden name then rest else (name, prune_hidden d) :: rest)
          | other => other
          end).
  simpl in Hd.
  destruct (prune_hidden (Dir entries)) as [| rest | |] eqn:Hp;
    try (simpl in Hp; discriminate).
  destruct (hidden name) eqn:Hh.
  - unfold walk_item. unfold hidden in Hh. rewrite Hh, both_nil_l. exact IHentries.
  - rewrite walk_dir_cons, IHentries, (walk_item_prune path name d Hd). reflexivity.
Qed.

Lemma entry_at_visible t names child :
  entry_at t names child -> Forall (fun name => hidden name = false) names.
Proof.
  induction 1; constructor; try assumption. constructor.
Qed.

End Walk.

(** C7. The snapshot does not depend on the enumeration order: when
    [list_project_structure_sync] returns a list for a tree, it returns the
    same list for the same tree under any other enumeration order. That list
    is sorted in the order of [str], and its elements are exactly the
    renderings of the entries reached through visible names: a file as its
    path relative to the project root, a directory as that path followed by a
    slash. *)
Theorem list_project_structure_sync_deterministic
    (lib : Lib) (project_path : string) (t1 t2 : node) (files : list string) :
  same_tree t1 t2 ->
  list_project_structure_sync lib project_path t1 = Return files ->
  list_project_structure_sync lib project_path t2 = Return files
  /\ StronglySorted str_le files
  /\ (forall s,
        In s files
        <-> exists names child,
              entry_at t1 names child
              /\ render lib project_path (path_of lib project_path names) child
                 = Some s).
Proof.
  intros Hsame. unfold list_project_structure_sync.
  pose proof (walk_same_tree lib project_path t1 t2 Hsame project_path) as Hagree.
  destruct (get_files_recursive lib project_path project_path t1) as [l1 | e1] eqn:H1;
    [ | discriminate ].
  destruct (get_files_recursive lib project_path project_path t2) as [l2 | e2];
    [ | contradiction ].
  simpl in Hagree. intro Hf. inversion Hf; subst. split; [ | split ].
  - f_equal. symmetry. apply sorted_of_permutation. exact Hagree.
  - apply sorted_strongly.
  - intro s. rewrite <- (walk_listed lib project_path t1 project_path l1 H1 s).
    split; apply Permutation_in; [ apply sorted_perm | symmetry; apply sorted_perm ].
Qed.

Lemma sample_same_tree : same_tree Sample.project sample_project_reordered.
Proof.
  unfold Sample.project, sample_project_reordered.
  set (tests := ("tests", Dir [("test_main.x", File)])).
  set (env := (".env", File)).
  set (policy := ("policy.txt", File)).
  set (readme := ("README.md", File)).
  set (src1 := Dir [("main.x", File); (".cache", Dir [("main.o", File)])]).
  set (src2 := Dir [(".cache", Dir [("main.o", File)]); ("main.x", File)]).
  assert (Htests : same_tree (snd tests) (snd tests)).
  { constructor. repeat constructor. }
  assert (Hsrc : same_tree src1 src2).
  { constructor. apply same_swap. }
  constructor.
  (* tests, env, src, policy, readme *)
  apply same_trans with [env; tests; ("src", src1); policy; readme].
  { apply same_swap. }
  apply same_trans with [env; ("src", src1); tests; policy; readme].
  { apply (same_cons ".env" File File); [ constructor | ]. apply same_swap. }
  apply same_trans with [("src", src1); env; tests; policy; readme].
  { apply same_swap. }
  apply same_trans with [("src", src1); env; tests; readme; policy].
  { apply (same_cons "src" src1 src1).
    - constructor. repeat constructor.
    - apply (same_cons ".env" File File); [ constructor | ].
      apply (same_cons "tests" _ _ _ _ Htests). apply same_swap. }
  apply same_trans with [("src", src1); env; readme; tests; policy].
  { apply (same_cons "src" src1 src1).
    - constructor. repeat constructor.
    - apply (same_cons ".env" File File); [ constructor | ]. apply same_swap. }
  apply same_trans with [("src", src1); readme; env; tests; policy].
  { apply (same_cons "src" src1 src1).
    - constructor. repeat constructor.
    - apply same_swap. }
  apply same_trans with [readme; ("src", src1); env; tests; policy].
  { apply same_swap. }
  apply (same_cons "README.md" File File); [ constructor | ].
  apply (same_cons "src" src1 src2 _ _ Hsrc).
  apply (same_cons ".env" File File); [ constructor | ].
  apply (same_cons "tests" _ _ _ _ Htests).
  apply (same_cons "policy.txt" File File); constructor.
Qed.

(** The end-to-end scenario of the specification, under two enumeration
    orders. *)
Lemma list_project_structure_sync_deterministic_witness :
  list_project_structure_sync Sample.lib "/tmp/p" sample_project_reordered
  = Return ["README.md"; "policy.txt"; "src/"; "src/main.x"; "tests/";
            "tests/test_main.x"].
Proof.
  apply (list_project_structure_sync_deterministic Sample.lib "/tmp/p"
           Sample.project sample_project_reordered).
  - exact sample_same_tree.
  - vm_compute. reflexivity.
Defined.

(** X4. Whether the snapshot fails does not depend on the enumeration order
    either; which exception surfaces does, as it is the one of the first
    failing directory met. *)
Theorem list_project_structure_sync_failure
    (lib : Lib) (project_path : string) (t1 t2 : node) (e : exn) :
  same_tree t1 t2 ->
  list_project_structure_sync lib project_path t1 = Raise e ->
  exists e', list_project_structure_sync lib project_path t2 = Raise e'.
Proof.
  intros Hsame. unfold list_project_structure_sync.
  pose proof (walk_same_tree lib project_path t1 t2 Hsame project_path) as Hagree.
  destruct (get_files_recursive lib project_path project_path t1) as [l1 | e1];
    [ discriminate | ].
  destruct (get_files_recursive lib project_path project_path t2) as [l2 | e2];
    [ contradiction | ].
  intros _. exists e2. reflexivity.
Qed.

Lemma list_project_structure_sync_failure_witness :
  list_project_structure_sync Sample.lib "/tmp/p" (sample_broken "a" "b")
  = Raise (Exn (OtherError "OSError") "a")
  /\ list_project_structure_sync Sample.lib "/tmp/p" (sample_broken "b" "a")
     = Raise (Exn (OtherError "OSError") "b")
  /\ exists e',
       list_project_structure_sync Sample.lib "/tmp/p" (sample_broken "b" "a")
       = Raise e'.
Proof.
  split; [ reflexivity | split; [ reflexivity | ] ].
  apply (list_project_structure_sync_failure Sample.lib "/tmp/p"
           (sample_broken "a" "b") (sample_broken "b" "a")
           (Exn (OtherError "OSError") "a")).
  - constructor. apply same_swap.
  - reflexivity.
Defined.

(** *** Relative paths as text *)

Lemma hidden_component_skip_name (name rest : string) :
  has_slash name = false ->
  hidden_component_from false (name ++ rest) = hidden_component_from false rest.
Proof.
  induction name as [| c name IH]; simpl; [ reflexivity | ].
  intro H. apply orb_false_iff in H. destruct H as (Hc & Hn).
  rewrite Hc. apply IH. exact Hn.
Qed.

Lemma hidden_head (c : ascii) (name : string) :
  hidden (String c name) = Ascii.eqb c ".".
Proof.
  unfold hidden, startswith.
  change (String.prefix "." (String c name))
    with (if ascii_dec "." c then String.prefix "" name else false).
  destruct (ascii_dec "." c) as [<- | Hne].
  - destruct name; reflexivity.
  - symmetry. apply Ascii.eqb_neq. congruence.
Qed.

Lemma hidden_component_visible_name (name rest : string) :
  plain name = true -> hidden name = false ->
  hidden_component_from true (name ++ rest) = hidden_component_from false rest.
Proof.
  unfold plain. destruct name as [| c name]; [ discriminate | ].
  rewrite hidden_head. simpl. intros Hs Hh.
  apply negb_true_iff, orb_false_iff in Hs. destruct Hs as (Hc & Hn).
  rewrite Hh, Hc. simpl. apply hidden_component_skip_name. exact Hn.
Qed.

Lemma string_app_assoc (a b c : string) : ((a ++ b) ++ c = a ++ (b ++ c))%string.
Proof. induction a as [| x a IH]; simpl; [ reflexivity | rewrite IH; reflexivity ]. Qed.

Lemma string_app_empty_r (a : string) : (a ++ "")%string = a.
Proof. induction a as [| x a IH]; simpl; [ reflexivity | rewrite IH; reflexivity ]. Qed.

Lemma concat_no_hidden_component (names : list string) (tail : string) :
  names <> [] ->
  Forall (fun name => plain name = true /\ hidden name = false) names ->
  hidden_component_from false tail = false ->
  has_hidden_component (String.concat "/" names ++ tail) = false.
Proof.
  unfold has_hidden_component. intros Hne Hall Htail.
  induction Hall as [| name names (Hp & Hv) Hall IH]; [ contradiction | ].
  destruct names as [| next names].
  - simpl. rewrite (hidden_component_visible_name name tail Hp Hv). exact Htail.
  - change (String.concat "/" (name :: next :: names))
      with (name ++ "/" ++ String.concat "/" (next :: names)).
    rewrite string_app_assoc, (hidden_component_visible_name _ _ Hp Hv).
    simpl. apply IH. discriminate.
Qed.

Lemma plain_names_entry entries name child :
  plain_names (Dir entries) = true -> In (name, child) entries ->
  plain name = true /\ plain_names child = true.
Proof.
  induction entries as [| [n c] entries IH]; simpl; [ contradiction | ].
  intros H [Heq | Hin].
  - inversion Heq; subst. apply andb_true_iff in H. destruct H as (H & _).
    apply andb_true_iff in H. exact H.
  - apply IH; [ | exact Hin ]. apply andb_true_iff in H. apply H.
Qed.

Lemma entry_at_plain t names child :
  plain_names t = true -> entry_at t names child ->
  Forall (fun name => plain name = true /\ hidden name = false) names.
Proof.
  intros Hp He. induction He as [es n c Hin Hv | es n d ch c Hin Hv Hbelow IH].
  - destruct (plain_names_entry es n c Hp Hin) as (Hn & _).
    repeat constructor; assumption.
  - destruct (plain_names_entry es n d Hp Hin) as (Hn & Hd).
    constructor; [ split; assumption | apply IH; exact Hd ].
Qed.

Lemma entry_at_nonempty t names child : entry_at t names child -> names <> [].
Proof. destruct 1; discriminate. Qed.

(** C8. Hidden entries leave no trace in the snapshot. The snapshot of a tree
    is the snapshot of the tree without its hidden entries and all that lies
    below them; every element of the snapshot renders an entry reached from
    the root through names none of which begins with a dot; and where
    relative paths are the names joined by slashes, no element of the snapshot
    has a path component that begins with a dot. *)
Theorem hidden_entries_never_listed (lib : Lib) (project_path : string) (t : node) :
  list_project_structure_sync lib project_path t
  = list_project_structure_sync lib project_path (prune_hidden t)
  /\ (forall files s,
        list_project_structure_sync lib project_path t = Return files ->
        In s files ->
        exists names child,
          entry_at t names child
          /\ Forall (fun name => hidden name = false) names
          /\ render lib project_path (path_of lib project_path names) child = Some s)
  /\ (relative_below lib project_path ->
      plain_names t = true ->
      forall files s,
        list_project_structure_sync lib project_path t = Return files ->
        In s files ->
        has_hidden_component s = false).
Proof.
  assert (Hlisted : forall files s,
             list_project_structure_sync lib project_path t = Return files ->
             In s files -> listed lib project_path project_path t s).
  { intros files s. unfold list_project_structure_sync.
    destruct (get_files_recursive lib project_path project_path t) as [l | e] eqn:Hw;
      [ | discriminate ].
    intros Hf Hin. inversion Hf; subst.
    apply (walk_listed lib project_path t project_path l Hw).
    eapply Permutation_in; [ apply sorted_perm | exact Hin ]. }
  split; [ | split ].
  - unfold list_project_structure_sync. rewrite walk_prune_hidden. reflexivity.
  - intros files s Hf Hin.
    destruct (Hlisted files s Hf Hin) as (names & child & He & Hr).
    exists names, child. split; [ exact He | split; [ | exact Hr ] ].
    eapply entry_at_visible. exact He.
  - intros Hrel Hplain files s Hf Hin.
    destruct (Hlisted files s Hf Hin) as (names & child & He & Hr).
    pose proof (entry_at_nonempty _ _ _ He) as Hne.
    pose proof (entry_at_plain _ _ _ Hplain He) as Hall.
    unfold render in Hr. rewrite (Hrel names Hne Hall) in Hr.
    destruct (isfile child).
    + inversion Hr; subst.
      rewrite <- (string_app_empty_r (String.concat "/" names)).
      apply (concat_no_hidden_component names "" Hne Hall eq_refl).
    + destruct (isdir child); [ | discriminate ].
      inversion Hr; subst.
      apply (concat_no_hidden_component names "/" Hne Hall eq_refl).
Qed.

(** *** The sample library on the paths of a walk *)

Lemma plain_head (name : string) :
  plain name = true ->
  exists c rest, name = String c rest /\ Ascii.eqb c "/" = false
                 /\ has_slash rest = false.
Proof.
  unfold plain. destruct name as [| c rest]; [ discriminate | ].
  simpl. intro H. apply negb_true_iff, orb_false_iff in H.
  exists c, rest. tauto.
Qed.

Lemma endswith_slash_no_slash (name : string) :
  has_slash name = false -> Sample.endswith_slash name = false.
Proof.
  induction name as [| c name IH]; simpl; [ reflexivity | ].
  intro H. apply orb_false_iff in H. destruct H as (Hc & Hn).
  destruct name; [ exact Hc | apply IH; exact Hn ].
Qed.

Lemma endswith_slash_app (a : string) (c : ascii) (rest : string) :
  Sample.endswith_slash (a ++ String c rest) = Sample.endswith_slash (String c rest).
Proof.
  induction a as [| x a IH]; [ reflexivity | ].
  change ((String x a ++ String c rest)%string) with (String x (a ++ String c rest)).
  rewrite <- IH. destruct a; reflexivity.
Qed.

Lemma sample_join_plain (root name : string) :
  root <> "" -> Sample.endswith_slash root = false -> plain name = true ->
  Sample.join root name = root ++ "/" ++ name
  /\ root ++ "/" ++ name <> ""
  /\ Sample.endswith_slash (root ++ "/" ++ name) = false.
Proof.
  intros Hr Hs Hp. destruct (plain_head name Hp) as (c & rest & -> & Hc & Hrest).
  split; [ | split ].
  - unfold Sample.join, startswith.
    change (String.prefix "/" (String c rest))
      with (if ascii_dec "/" c then String.prefix "" rest else false).
    destruct (ascii_dec "/" c) as [<- | _]; [ discriminate | ].
    apply String.eqb_neq in Hr. rewrite Hr, Hs. reflexivity.
  - destruct root; [ contradiction | discriminate ].
  - change (root ++ "/" ++ String c rest) with (root ++ String "/" (String c rest)).
    rewrite endswith_slash_app.
    change (Sample.endswith_slash (String "/" (String c rest)))
      with (Sample.endswith_slash (String c rest)).
    apply endswith_slash_no_slash. simpl. rewrite Hc, Hrest. reflexivity.
Qed.

Lemma sample_path_of (names : list string) :
  forall root,
    root <> "" -> Sample.endswith_slash root = false ->
    Forall (fun name => plain name = true /\ hidden name = false) names ->
    path_of Sample.lib root names = root ++ slashed names.
Proof.
  induction names as [| name names IH]; intros root Hr Hs Hall.
  - simpl. symmetry. apply string_app_empty_r.
  - inversion Hall as [| ? ? (Hp & _) Hrest]; subst.
    destruct (sample_join_plain root name Hr Hs Hp) as (Hj & Hne & Hend).
    change (path_of Sample.lib root (name :: names))
      with (path_of Sample.lib (Sample.join root name) names).
    rewrite Hj, (IH _ Hne Hend Hrest). simpl slashed.
    rewrite !string_app_assoc. reflexivity.
Qed.

Lemma drop_prefix_app (p rest : string) : Sample.drop_prefix p (p ++ rest) = Some rest.
Proof.
  induction p as [| c p IH]; simpl; [ destruct rest; reflexivity | ].
  rewrite Ascii.eqb_refl. exact IH.
Qed.

Lemma slashed_concat (name : string) (names : list string) :
  slashed (name :: names) = "/" ++ String.concat "/" (name :: names).
Proof.
  revert name. induction names as [| next names IH]; intro name.
  - simpl. rewrite string_app_empty_r. reflexivity.
  - change (slashed (name :: next :: names))
      with ("/" ++ name ++ slashed (next :: names)).
    rewrite IH. reflexivity.
Qed.

(** Below a root that is a normal path, the sample library yields the names
    joined by slashes. *)
Lemma sample_relative_below (root : string) :
  root <> "" -> Sample.endswith_slash root = false ->
  relative_below Sample.lib root.
Proof.
  intros Hr Hs names Hne Hall.
  rewrite (sample_path_of names root Hr Hs Hall).
  destruct names as [| name names]; [ contradiction | ].
  rewrite slashed_concat.
  change (os_path_relpath Sample.lib) with Sample.relpath. unfold Sample.relpath.
  rewrite <- (string_app_assoc root "/" (String.concat "/" (name :: names))).
  rewrite drop_prefix_app. reflexivity.
Qed.

(** The sample project holds [.env] at the root and [.cache] below [src]:
    neither they nor [main.o] below [.cache] are listed. *)
Lemma hidden_entries_never_listed_witness :
  Forall (fun s => has_hidden_component s = false)
    ["README.md"; "policy.txt"; "src/"; "src/main.x"; "tests/"; "tests/test_main.x"].
Proof.
  destruct (hidden_entries_never_listed Sample.lib "/tmp/p" Sample.project)
    as (_ & _ & H).
  apply Forall_forall. intros s Hin.
  apply (H (sample_relative_below "/tmp/p" ltac:(discriminate) eq_refl) eq_refl
           ["README.md"; "policy.txt"; "src/"; "src/main.x"; "tests/";
            "tests/test_main.x"]).
  - vm_compute. reflexivity.
  - exact Hin.
Defined.

(** ** C5: where the resolver looks for the policy file *)












(** ** [_md_to_details]: the sections of a rendered report *)

Lemma close_popped to stack : forall html,
  MainWeb.close to stack html
  = ((html ++ repeat MainWeb.closing_tag (popped to stack))%list,
     skipn (popped to stack) stack).
Proof.
  induction stack as [| top below IH]; intro html; simpl.
  - rewrite app_nil_r. reflexivity.
  - destruct (match to with None => true | Some level => (level <=? top)%nat end).
    + rewrite IH, <- app_assoc. reflexivity.
    + simpl. rewrite app_nil_r. reflexivity.
Qed.

Lemma popped_all stack : popped None stack = List.length stack.
Proof. induction stack as [| top below IH]; simpl; congruence. Qed.

Lemma popped_le to stack : (popped to stack <= List.length stack)%nat.
Proof.
  induction stack as [| top below IH]; simpl; [lia |].
  destruct (match to with None => true | Some level => (level <=? top)%nat end);
    simpl; lia.
Qed.

Lemma closes_opening_tag level title :
  closes_section (MainWeb.opening_tag level title) = false.
Proof. reflexivity. Qed.

Lemma match_heading_level line level title :
  MainWeb.match_heading line = Some (level, title) -> (1 <= level <= 6)%nat.
Proof.
  unfold MainWeb.match_heading.
  destruct (MainWeb.span_hashes line) as [n rest].
  destruct ((1 <=? n)%nat && (n <=? 6)%nat) eqn:Hn; [| discriminate].
  apply andb_prop in Hn. destruct Hn as [H1 H6].
  apply Nat.leb_le in H1, H6.
  destruct rest as [| c r]; [discriminate |].
  destruct (isspace c); [| discriminate].
  destruct (MainWeb.title_of _); [| discriminate].
  intro H. inversion H; subst. lia.
Qed.

(** A stack of nested levels below [limit] is shorter than [limit]. *)
Lemma nested_levels_length stack : forall limit,
  (1 <= limit)%nat ->
  nested_levels stack ->
  Forall (fun level => (level < limit)%nat) stack ->
  (List.length stack < limit)%nat.
Proof.
  induction stack as [| top below IH]; intros limit Hlimit [Hs Hr] Hlt; simpl.
  - lia.
  - inversion Hs as [| ? ? Hs' Hbelow]; subst.
    inversion Hr as [| ? ? Htop Hr']; subst.
    inversion Hlt as [| ? ? Htop' _]; subst.
    assert (List.length below < top)%nat.
    { apply IH; [lia | split; assumption | exact Hbelow]. }
    lia.
Qed.

(** What [close(level)] leaves on the stack lies below [level]. *)
Lemma close_leaves_lower level stack :
  nested_levels stack ->
  nested_levels (skipn (popped (Some level) stack) stack)
  /\ Forall (fun l => (l < level)%nat) (skipn (popped (Some level) stack) stack).
Proof.
  induction stack as [| top below IH]; intros [Hs Hr]; simpl.
  - split; [split |]; constructor.
  - inversion Hs as [| ? ? Hs' Hbelow]; subst.
    inversion Hr as [| ? ? Htop Hr']; subst.
    destruct (level <=? top)%nat eqn:Hcmp; simpl.
    + apply IH. split; assumption.
    + apply Nat.leb_gt in Hcmp. split; [split; assumption |].
      constructor; [exact Hcmp |].
      eapply Forall_impl; [| exact Hbelow]. simpl. intros; lia.
Qed.

Lemma loop_without_headings lines : forall st,
  headings (MainWeb.in_code st) lines = [] ->
  MainWeb.html (fold_left MainWeb.step lines st) = (MainWeb.html st ++ lines)%list
  /\ MainWeb.stack (fold_left MainWeb.step lines st) = MainWeb.stack st.
Proof.
  induction lines as [| line rest IH]; intros st Hnone; cbn [fold_left].
  - rewrite app_nil_r. split; reflexivity.
  - cbn [headings] in Hnone. unfold MainWeb.step at 2 4.
    destruct (MainWeb.is_fence line).
    + destruct (IH {| MainWeb.html := (MainWeb.html st ++ [line])%list;
                      MainWeb.stack := MainWeb.stack st;
                      MainWeb.in_code := negb (MainWeb.in_code st) |} Hnone)
        as [Hh Hs].
      rewrite Hh, Hs. cbn [MainWeb.html MainWeb.stack].
      rewrite <- app_assoc. split; reflexivity.
    + destruct (MainWeb.in_code st) eqn:Hcode.
      * destruct (IH {| MainWeb.html := (MainWeb.html st ++ [line])%list;
                        MainWeb.stack := MainWeb.stack st;
                        MainWeb.in_code := true |} Hnone) as [Hh Hs].
        rewrite Hh, Hs. cbn [MainWeb.html MainWeb.stack].
        rewrite <- app_assoc. split; reflexivity.
      * destruct (MainWeb.match_heading line) as [[level title] |]; [discriminate |].
        destruct (IH {| MainWeb.html := (MainWeb.html st ++ [line])%list;
                        MainWeb.stack := MainWeb.stack st;
                        MainWeb.in_code := false |} Hnone) as [Hh Hs].
        rewrite Hh, Hs. cbn [MainWeb.html MainWeb.stack].
        rewrite <- app_assoc. split; reflexivity.
Qed.

Lemma details_lines_without_headings (lines : list string) :
  headings false lines = [] ->
  MainWeb.details_lines lines = lines.
Proof.
  intro Hnone. unfold MainWeb.details_lines. cbv zeta.
  destruct (loop_without_headings lines
              {| MainWeb.html := []; MainWeb.stack := []; MainWeb.in_code := false |}
              Hnone) as [Hh Hs].
  rewrite Hh, Hs. reflexivity.
Qed.

(** X6. A report without headings is not restructured. When no line outside
    fenced code matches the heading pattern, [_md_to_details] opens and
    closes no section: what it returns (or hands to [markdown.markdown] when
    that package is present) is the lines of the report joined by line
    feeds, and a line that looks like a heading inside fenced code stays as
    it is. *)
Theorem md_to_details_without_headings
    (mdlib : option (string -> string)) (md : string) :
  headings false (splitlines md) = [] ->
  MainWeb._md_to_details mdlib md
  = match mdlib with
    | Some markdown => markdown (String.concat LF (splitlines md))
    | None => String.concat LF (splitlines md)
    end.
Proof.
  intro Hnone. unfold MainWeb._md_to_details. cbv zeta.
  rewrite (details_lines_without_headings _ Hnone). reflexivity.
Qed.

Lemma md_to_details_without_headings_witness :
  let md := "All good." ++ LF ++ "```" ++ LF ++ "# a comment of the listing" ++ LF
            ++ "```" ++ LF ++ "#no space" ++ LF in
  headings false (splitlines md) = []
  /\ MainWeb._md_to_details None md
     = "All good." ++ LF ++ "```" ++ LF ++ "# a comment of the listing" ++ LF
       ++ "```" ++ LF ++ "#no space".
Proof.
  split; [reflexivity |].
  rewrite (md_to_details_without_headings None); reflexivity.
Defined.

Lemma kept_closing k :
  filter (fun line => negb (closes_section line)) (repeat MainWeb.closing_tag k) = [].
Proof. induction k as [| k IH]; [reflexivity | exact IH]. Qed.

Lemma loop_keeps_lines lines : forall st,
  forallb (fun line => negb (closes_section line)) lines = true ->
  filter (fun line => negb (closes_section line))
    (MainWeb.html (fold_left MainWeb.step lines st))
  = (filter (fun line => negb (closes_section line)) (MainWeb.html st)
     ++ with_headings_opened (MainWeb.in_code st) lines)%list.
Proof.
  induction lines as [| line rest IH]; intros st Hlines; cbn [fold_left].
  - rewrite app_nil_r. reflexivity.
  - cbn [forallb] in Hlines. apply andb_prop in Hlines.
    destruct Hlines as [Hline Hrest].
    rewrite (IH _ Hrest). cbn [with_headings_opened]. unfold MainWeb.step.
    destruct (MainWeb.is_fence line).
    + cbn [MainWeb.html MainWeb.in_code]. rewrite filter_app. cbn [filter].
      rewrite Hline, <- app_assoc. reflexivity.
    + destruct (MainWeb.in_code st) eqn:Hcode.
      * cbn [MainWeb.html MainWeb.in_code]. rewrite filter_app. cbn [filter].
        rewrite Hline, <- app_assoc. reflexivity.
      * destruct (MainWeb.match_heading line) as [[level title] |].
        -- rewrite close_popped. cbn [MainWeb.html MainWeb.in_code].
           rewrite !filter_app, kept_closing. cbn [filter].
           rewrite closes_opening_tag. cbn [negb].
           rewrite app_nil_r, <- app_assoc. reflexivity.
        -- cbn [MainWeb.html MainWeb.in_code]. rewrite filter_app. cbn [filter].
           rewrite Hline, <- app_assoc. reflexivity.
Qed.

(** X7. Rendering loses and reorders nothing. When no line of the report is
    itself a closing line, the lines [_md_to_details] joins, with the closing
    lines taken out, are the lines of the report in their order, each
    heading outside fenced code replaced by the one line that opens its
    section: every other line is kept as it is, and all that the rendering
    inserts are closing lines. *)
Theorem md_to_details_keeps_lines (lines : list string) :
  forallb (fun line => negb (closes_section line)) lines = true ->
  filter (fun line => negb (closes_section line)) (MainWeb.details_lines lines)
  = with_headings_opened false lines.
Proof.
  intro Hlines. unfold MainWeb.details_lines. cbv zeta.
  rewrite close_popped. cbn [fst].
  rewrite filter_app, kept_closing, app_nil_r.
  rewrite (loop_keeps_lines lines _ Hlines). reflexivity.
Qed.

Lemma md_to_details_keeps_lines_witness :
  forallb (fun line => negb (closes_section line)) sample_report = true
  /\ filter (fun line => negb (closes_section line)) (MainWeb.details_lines sample_report)
     = [ "<details><summary><h1 style='display:inline'>Summary</h1></summary>";
         "fine";
         "<details><summary><h2 style='display:inline'>Missing</h2></summary>";
         "- tests/"; "```"; "# not a heading"; "```";
         "<details><summary><h2 style='display:inline'>Extra</h2></summary>";
         "<details><summary><h1 style='display:inline'>Verdict</h1></summary>";
         "ok" ].
Proof.
  split; [reflexivity |].
  rewrite (md_to_details_keeps_lines sample_report); reflexivity.
Defined.

(** ** [crawl_directory] *)

Lemma substring_length n : forall s, (String.length (String.substring 0 n s) <= n)%nat.
Proof.
  induction n as [| n IH]; intros [| c s]; simpl; try lia.
  specialize (IH s). lia.
Qed.

Lemma substring_prefix n : forall s, String.prefix (String.substring 0 n s) s = true.
Proof.
  induction n as [| n IH]; intros [| c s]; simpl; try reflexivity.
  destruct (ascii_dec c c); [apply IH | congruence].
Qed.

(** X8. The command-line crawler lists every regular file once, in the order
    [rglob] yields them, and nothing else; an entry has content only if its
    file is smaller than [max_file_size], and the content is then the first
    characters of the file's text, at most 500 of them. *)
Theorem crawl_directory_entries (found : list found_path) (max_file_size : Z) :
  map Main.path (Main.crawl_directory found max_file_size)
  = map relative_to (filter is_file found)
  /\ map Main.size (Main.crawl_directory found max_file_size)
     = map st_size (filter is_file found)
  /\ Forall (fun entry =>
               match Main.content entry with
               | Some text =>
                   (Main.size entry < max_file_size)%Z
                   /\ (String.length text <= 500)%nat
                   /\ exists fp full,
                        In fp found /\ relative_to fp = Main.path entry
                        /\ read_text fp = Some full
                        /\ String.prefix text full = true
               | None => True
               end)
            (Main.crawl_directory found max_file_size).
Proof.
  induction found as [| fp rest (IHp & IHs & IHc)]; simpl.
  - repeat split; constructor.
  - assert (Hrest : Forall (fun entry =>
               match Main.content entry with
               | Some text =>
                   (Main.size entry < max_file_size)%Z
                   /\ (String.length text <= 500)%nat
                   /\ exists fp' full,
                        (fp = fp' \/ In fp' rest) /\ relative_to fp' = Main.path entry
                        /\ read_text fp' = Some full
                        /\ String.prefix text full = true
               | None => True
               end)
            (Main.crawl_directory rest max_file_size)).
    { eapply Forall_impl; [| exact IHc]. intros entry Hentry. cbv beta in *.
      destruct (Main.content entry); [| exact I].
      destruct Hentry as (Hsize & Hlen & fp' & full & Hin & Hrel & Hread & Hpre).
      repeat split; try assumption. exists fp', full. auto. }
    destruct (is_file fp); simpl; [| repeat split; assumption].
    repeat split; try (f_equal; assumption).
    constructor; [| exact Hrest]. simpl.
    destruct (st_size fp <? max_file_size)%Z eqn:Hsize; [| exact I].
    destruct (read_text fp) as [full |] eqn:Hread; [| exact I].
    apply Z.ltb_lt in Hsize. repeat split; [exact Hsize | apply substring_length |].
    exists fp, full. repeat split; auto using substring_prefix.
Qed.

(** *** Words and lines *)

Lemma boundary_isspace c : is_line_boundary c = true -> isspace c = true.
Proof.
  destruct c as [[|] [|] [|] [|] [|] [|] [|] [|]]; vm_compute; intro H;
    first [reflexivity | discriminate H].
Qed.

Lemma word_is_line w : is_word w -> is_line w.
Proof.
  intros [_ Hw]. unfold is_line.
  induction w as [| c w IH]; [reflexivity |].
  cbn [all_chars] in *. apply andb_prop in Hw. destruct Hw as [Hc Hw].
  rewrite (IH Hw), andb_true_r.
  destruct (is_line_boundary c) eqn:Hb; [| reflexivity].
  apply boundary_isspace in Hb. rewrite Hb in Hc. discriminate.
Qed.

Lemma is_line_app a b : is_line a -> is_line b -> is_line (a ++ b).
Proof.
  unfold is_line. induction a as [| c a IH]; intros Ha Hb; [exact Hb |].
  cbn [append all_chars] in *. apply andb_prop in Ha. destruct Ha as [Hc Ha].
  rewrite Hc. apply IH; assumption.
Qed.

Lemma str_split_words s : Forall is_word (str_split s).
Proof.
  induction s as [| c r IH]; cbn [str_split]; [constructor |].
  destruct (isspace c) eqn:Hc; [exact IH |].
  assert (Hone : is_word (String c "")).
  { split; [discriminate | cbn [all_chars]; rewrite Hc; reflexivity]. }
  destruct r as [| d r']; [constructor; [exact Hone | constructor] |].
  destruct (isspace d); [constructor; assumption |].
  destruct (str_split (String d r')) as [| word words];
    [constructor; [exact Hone | constructor] |].
  inversion IH as [| ? ? [_ Hword] Hwords]; subst.
  constructor; [| exact Hwords].
  split; [discriminate | cbn [all_chars]; rewrite Hc, Hword; reflexivity].
Qed.

Lemma str_split_two a b r :
  isspace a = false -> isspace b = false ->
  str_split (String a (String b r))
  = match str_split (String b r) with
    | [] => [String a ""]
    | word :: words => String a word :: words
    end.
Proof.
  intros Ha Hb.
  change (str_split (String a (String b r)))
    with (if isspace a then str_split (String b r)
          else if isspace b then String a "" :: str_split (String b r)
          else match str_split (String b r) with
               | [] => [String a ""]
               | word :: words => String a word :: words
               end).
  rewrite Ha, Hb. reflexivity.
Qed.

Lemma is_word_cons a w :
  is_word (String a w) ->
  isspace a = false /\ (w = "" \/ is_word w).
Proof.
  intros [_ Hw]. cbn [all_chars] in Hw. apply andb_prop in Hw.
  destruct Hw as [Ha Hw]. apply negb_true_iff in Ha. split; [exact Ha |].
  destruct w as [| b w']; [left; reflexivity | right].
  split; [discriminate | exact Hw].
Qed.

(** Splitting a word followed by whitespace. *)
Lemma str_split_word_then w : forall c r,
  is_word w -> isspace c = true ->
  str_split (w ++ String c r) = w :: str_split (String c r).
Proof.
  induction w as [| a w IH]; intros c r Hw Hc; [destruct Hw; congruence |].
  destruct (is_word_cons a w Hw) as [Ha [-> | Hw']].
  - change (str_split ("" ++ String c r)) with (str_split (String c r)).
    change (str_split (String a "" ++ String c r))
      with (if isspace a then str_split (String c r)
            else if isspace c then String a "" :: str_split (String c r)
            else match str_split (String c r) with
                 | [] => [String a ""]
                 | word :: words => String a word :: words
                 end).
    rewrite Ha, Hc. reflexivity.
  - destruct w as [| b w']; [destruct Hw'; congruence |].
    destruct (is_word_cons b w' Hw') as [Hb _].
    change (String a (String b w') ++ String c r)
      with (String a (String b (w' ++ String c r))).
    rewrite (str_split_two a b _ Ha Hb).
    change (String b (w' ++ String c r)) with (String b w' ++ String c r).
    rewrite (IH c r Hw' Hc). reflexivity.
Qed.

Lemma str_split_word w : is_word w -> str_split w = [w].
Proof.
  induction w as [| a w IH]; intros Hw; [destruct Hw; congruence |].
  destruct (is_word_cons a w Hw) as [Ha [-> | Hw']].
  - cbn [str_split]. rewrite Ha. reflexivity.
  - destruct w as [| b w']; [destruct Hw'; congruence |].
    destruct (is_word_cons b w' Hw') as [Hb _].
    rewrite (str_split_two a b _ Ha Hb), (IH Hw'). reflexivity.
Qed.

(** Joining words by single spaces and splitting again gives the words. *)
Lemma str_split_join words :
  Forall is_word words -> str_split (String.concat " " words) = words.
Proof.
  induction 1 as [| w words Hw Hwords IH]; [reflexivity |].
  destruct words as [| w' words'].
  - cbn [String.concat]. apply str_split_word, Hw.
  - change (String.concat " " (w :: w' :: words'))
      with (w ++ String " " (String.concat " " (w' :: words'))).
    rewrite str_split_word_then by (exact Hw || reflexivity).
    change (str_split (String " " (String.concat " " (w' :: words'))))
      with (str_split (String.concat " " (w' :: words'))).
    rewrite IH. reflexivity.
Qed.

Lemma splitlines_inside c r :
  is_line_boundary c = false ->
  splitlines (String c r)
  = match splitlines r with
    | [] => [String c ""]
    | line :: lines => String c line :: lines
    end.
Proof.
  intro Hc.
  change (splitlines (String c r))
    with (if is_line_boundary c then
            match r with
            | String d r' =>
                if Ascii.eqb c "013" && Ascii.eqb d "010"
                then EmptyString :: splitlines r'
                else EmptyString :: splitlines r
            | EmptyString => [EmptyString]
            end
          else
            match splitlines r with
            | [] => [String c ""]
            | line :: lines => String c line :: lines
            end).
  rewrite Hc. reflexivity.
Qed.

Lemma is_line_cons c l :
  is_line (String c l) -> is_line_boundary c = false /\ is_line l.
Proof.
  unfold is_line. cbn [all_chars]. intro H. apply andb_prop in H.
  destruct H as [Hc Hl]. apply negb_true_iff in Hc. split; assumption.
Qed.

(** A text without line boundaries is one line, or none when it is empty. *)
Lemma splitlines_line l :
  is_line l -> splitlines l = match l with EmptyString => [] | _ => [l] end.
Proof.
  induction l as [| c l IH]; intro Hl; [reflexivity |].
  destruct (is_line_cons c l Hl) as [Hc Hl'].
  rewrite (splitlines_inside c l Hc), (IH Hl').
  destruct l; reflexivity.
Qed.

Lemma splitlines_line_then a b :
  is_line a -> splitlines (a ++ String "010" b) = a :: splitlines b.
Proof.
  induction a as [| c a IH]; intro Ha.
  - destruct b; reflexivity.
  - destruct (is_line_cons c a Ha) as [Hc Ha'].
    change (String c a ++ String "010" b) with (String c (a ++ String "010" b)).
    rewrite (splitlines_inside c _ Hc), (IH Ha'). reflexivity.
Qed.

Lemma splitlines_lines_upto n : forall s,
  (String.length s <= n)%nat -> Forall is_line (splitlines s).
Proof.
  induction n as [| n IH]; intros [| c r] Hlen; cbn [String.length] in Hlen;
    try (constructor; fail); [lia |].
  assert (Hr : Forall is_line (splitlines r)) by (apply IH; lia).
  destruct (is_line_boundary c) eqn:Hc.
  - change (splitlines (String c r))
      with (if is_line_boundary c then
              match r with
              | String d r' =>
                  if Ascii.eqb c "013" && Ascii.eqb d "010"
                  then EmptyString :: splitlines r'
                  else EmptyString :: splitlines r
              | EmptyString => [EmptyString]
              end
            else
              match splitlines r with
              | [] => [String c ""]
              | line :: lines => String c line :: lines
              end).
    rewrite Hc. destruct r as [| d r'].
    + constructor; [reflexivity | constructor].
    + destruct (Ascii.eqb c "013" && Ascii.eqb d "010").
      * constructor; [reflexivity |]. apply IH. cbn [String.length] in Hlen. lia.
      * constructor; [reflexivity | exact Hr].
  - rewrite (splitlines_inside c r Hc).
    destruct (splitlines r) as [| line lines].
    + constructor; [| constructor]. unfold is_line. cbn [all_chars].
      rewrite Hc. reflexivity.
    + inversion Hr as [| ? ? Hline Hlines]; subst.
      constructor; [| exact Hlines]. unfold is_line in *. cbn [all_chars].
      rewrite Hc, Hline. reflexivity.
Qed.

(** The lines of a text hold no line boundary. *)
Lemma splitlines_lines s : Forall is_line (splitlines s).
Proof. apply (splitlines_lines_upto (String.length s)). lia. Qed.

Lemma join_words_is_line words :
  Forall is_word words -> is_line (String.concat " " words).
Proof.
  induction 1 as [| w words Hw Hwords IH]; [reflexivity |].
  destruct words as [| w' words']; [apply word_is_line, Hw |].
  change (String.concat " " (w :: w' :: words'))
    with (w ++ String " " (String.concat " " (w' :: words'))).
  apply is_line_app; [apply word_is_line, Hw |].
  unfold is_line in *. cbn [all_chars]. rewrite IH. reflexivity.
Qed.

Lemma Forall_first {A} (P : A -> Prop) n : forall l,
  Forall P l -> Forall P (firstn n l).
Proof.
  induction n as [| n IH]; intros l Hl; [constructor |].
  destruct Hl as [| a l Ha Hl]; [constructor |].
  cbn [firstn]. constructor; [exact Ha | apply IH, Hl].
Qed.

Lemma firstn_two_cases {A} (l : list A) :
  firstn 2 l = [] \/ (exists a, firstn 2 l = [a]) \/ (exists a b, firstn 2 l = [a; b]).
Proof.
  destruct l as [| a [| b l]]; simpl; eauto.
Qed.

(** The first two lines of a text, joined by a line feed, are at most two
    lines. *)
Lemma two_lines_at_most text :
  (List.length (splitlines (String.concat LF (firstn 2 (splitlines text)))) <= 2)%nat.
Proof.
  pose proof (splitlines_lines text) as Hlines.
  apply (Forall_first _ 2) in Hlines.
  destruct (firstn_two_cases (splitlines text)) as [H | [[a H] | [a [b H]]]];
    rewrite H in *.
  - simpl. lia.
  - inversion Hlines as [| ? ? Ha _]; subst. cbn [String.concat].
    rewrite (splitlines_line a Ha). destruct a; simpl; lia.
  - inversion Hlines as [| ? ? Ha Hrest]; subst.
    inversion Hrest as [| ? ? Hb _]; subst.
    change (String.concat LF [a; b]) with (a ++ String "010" b).
    rewrite (splitlines_line_then a b Ha), (splitlines_line b Hb).
    destruct b; simpl; lia.
Qed.

(** The preview of a text has at most two lines and at most 200 words. *)
Lemma snippet_of_bounds text :
  (List.length (splitlines (MainWeb.snippet_of text)) <= 2)%nat
  /\ (List.length (str_split (MainWeb.snippet_of text)) <= 200)%nat.
Proof.
  unfold MainWeb.snippet_of. cbv zeta.
  set (snippet := String.concat LF (firstn 2 (splitlines text))).
  pose proof (str_split_words snippet) as Hwords.
  destruct (100 <? List.length (str_split snippet))%nat eqn:Hmany.
  - apply (Forall_first _ 200) in Hwords. split.
    + rewrite (splitlines_line _ (join_words_is_line _ Hwords)).
      destruct (String.concat " " (firstn 200 (str_split snippet))); simpl; lia.
    + rewrite (str_split_join _ Hwords). apply firstn_le_length.
  - apply Nat.ltb_ge in Hmany. split; [apply two_lines_at_most | lia].
Qed.

(** X9. The web crawler lists every regular file once, in the order [rglob]
    yields them, and nothing else. The test for the names [venv] and [.venv]
    changes nothing: it only skips paths that are not regular files, which
    are never listed anyway, so the result is the same under any other
    names, and the regular files below such a directory are listed like all
    others. *)
Theorem crawl_directory_lists_every_file
    (found : list found_path) (max_file_size : Z) :
  (forall f, MainWeb.crawl_directory (map (with_name f) found) max_file_size
             = MainWeb.crawl_directory found max_file_size)
  /\ map MainWeb.path (MainWeb.crawl_directory found max_file_size)
     = map relative_to (filter is_file found)
  /\ map MainWeb.size (MainWeb.crawl_directory found max_file_size)
     = map st_size (filter is_file found).
Proof.
  split; [intro f | split].
  - induction found as [| fp rest IH]; [reflexivity |].
    cbn [map MainWeb.crawl_directory with_name relative_to name is_file st_size
         read_text].
    rewrite IH. destruct (is_file fp); cbn [negb andb].
    + reflexivity.
    + destruct ((f fp =? "venv") || (f fp =? ".venv"));
        destruct ((name fp =? "venv") || (name fp =? ".venv")); reflexivity.
  - induction found as [| fp rest IH]; [reflexivity |].
    cbn [MainWeb.crawl_directory filter].
    destruct (is_file fp); cbn [negb andb map MainWeb.path].
    + rewrite IH. reflexivity.
    + destruct ((name fp =? "venv") || (name fp =? ".venv")); exact IH.
  - induction found as [| fp rest IH]; [reflexivity |].
    cbn [MainWeb.crawl_directory filter].
    destruct (is_file fp); cbn [negb andb map MainWeb.size].
    + rewrite IH. reflexivity.
    + destruct ((name fp =? "venv") || (name fp =? ".venv")); exact IH.
Qed.

(** X10. The previews of the web crawler are bounded. An entry has the key
    [content] exactly when its file is no larger than [max_file_size]; the
    content is then [None] (the read failed) or a preview of at most two
    lines and at most 200 words. *)
Theorem crawl_directory_previews (found : list found_path) (max_file_size : Z) :
  Forall (fun entry =>
            match MainWeb.content entry with
            | Some (Some text) =>
                (MainWeb.size entry <= max_file_size)%Z
                /\ (List.length (splitlines text) <= 2)%nat
                /\ (List.length (str_split text) <= 200)%nat
            | Some None => (MainWeb.size entry <= max_file_size)%Z
            | None => (max_file_size < MainWeb.size entry)%Z
            end)
         (MainWeb.crawl_directory found max_file_size).
Proof.
  induction found as [| fp rest IH]; cbn [MainWeb.crawl_directory]; [constructor |].
  destruct (negb (is_file fp) && ((name fp =? "venv") || (name fp =? ".venv")));
    [exact IH |].
  destruct (is_file fp); [| exact IH].
  constructor; [| exact IH]. cbn [MainWeb.content MainWeb.size].
  destruct (st_size fp <=? max_file_size)%Z eqn:Hsize.
  - apply Z.leb_le in Hsize.
    destruct (read_text fp) as [text |]; [| exact Hsize].
    destruct (snippet_of_bounds text) as [Hlines Hwords]. auto.
  - apply Z.leb_gt in Hsize. exact Hsize.
Qed.

(** ** [run_async] and [run_validation]: the synchronous entry point *)

(** What [run_async] makes of one run of its coroutine. *)
Lemma run_async_of_run {A} (loop : event_loop) (coro : M A) (s : state) :
  run_async loop coro s
  = match coro s with
    | (Return a, s') => (Return a, s')
    | (Raise e, s') =>
        if is_instance e RuntimeError then
          match loop with
          | NoEventLoop => (Raise e, s')
          | IdleLoop =>
              (Raise (Exn RuntimeError "cannot reuse already awaited coroutine"), s')
          | RunningLoop =>
              (Raise (Exn RuntimeError
                        "asyncio.run() cannot be called from a running event loop"), s')
          end
        else (Raise e, s')
    end.
Proof.
  unfold run_async, try_except, raise.
  destruct loop; cbn [is_instance exn_cls exn_class_eqb];
    destruct (coro s) as [[a | e] s']; try reflexivity;
    destruct (is_instance e RuntimeError); reflexivity.
Qed.

Lemma run_returns_when_close_succeeds lib env fs pp prov model key pc s :
  close_calls_succeed env ->
  exists r, fst (run_validation_async lib env fs pp prov model key pc s) = Return r.
Proof.
  intro Hc.
  unfold run_validation_async, bind at 1, set_process, try_finally.
  match goal with
  | |- context [try_except ?c ?h ?s0] =>
      destruct (guarded_body_returns lib env fs pp prov model key pc s0) as (r & Hr);
      destruct (try_except c h s0) as [r0 s1]
  end.
  simpl in Hr. subst r0.
  pose proof (close_returns env s1 Hc) as Hcl.
  destruct (close env s1) as [[u | e] s2]; simpl in *; [eauto | discriminate].
Qed.

(** X11. The synchronous entry point runs the pipeline exactly once, whatever
    event loop the calling thread has: [run_validation] always ends in the
    state in which the one run of [run_validation_async] ends. It hands on
    the record the run returns, and so returns a record whenever the calls
    of [close] on the worker do not raise; it hands on an exception of the
    run that is no [RuntimeError]; and in a thread without event loop it
    hands on whatever the run yields. Only a [RuntimeError] that escapes the
    run under an idle or running loop is replaced, by the [RuntimeError] of
    the second [asyncio.run], which does not run the pipeline again. *)
Theorem run_validation_runs_once
    (lib : Lib) (env : Env) (fs : node) (loop : event_loop)
    (project_path llm_provider model api_key : string)
    (policy_content : option string) (s : state) :
  let sync := run_validation lib env fs loop project_path llm_provider model api_key
                policy_content s in
  let async := run_validation_async lib env fs project_path llm_provider model api_key
                 policy_content s in
  snd sync = snd async
  /\ (forall r, fst async = Return r -> fst sync = Return r)
  /\ (close_calls_succeed env -> exists r, fst sync = Return r)
  /\ (forall e, fst async = Raise e -> is_instance e RuntimeError = false ->
      fst sync = Raise e)
  /\ (loop = NoEventLoop -> sync = async)
  /\ (forall e, fst async = Raise e -> is_instance e RuntimeError = true ->
      (loop = IdleLoop ->
       fst sync = Raise (Exn RuntimeError "cannot reuse already awaited coroutine"))
      /\ (loop = RunningLoop ->
          fst sync
          = Raise (Exn RuntimeError
                     "asyncio.run() cannot be called from a running event loop"))).
Proof.
  cbv zeta. unfold run_validation. rewrite run_async_of_run.
  set (async := run_validation_async lib env fs project_path llm_provider model
                  api_key policy_content s).
  assert (Hret : close_calls_succeed env -> exists r, fst async = Return r).
  { intro Hc. apply run_returns_when_close_succeeds, Hc. }
  destruct async as [[r | e] s'] eqn:Hrun; cbn [fst snd] in *.
  - repeat split; intros; subst; try discriminate; eauto.
  - destruct (is_instance e RuntimeError) eqn:Hcls; destruct loop; cbn [fst snd];
      repeat split; intros; subst; try discriminate; try reflexivity;
      try match goal with
          | Hc : close_calls_succeed _ |- _ => destruct (Hret Hc); discriminate
          end;
      match goal with
      | H : Raise _ = Raise _ |- _ => inversion H; subst; congruence
      end.
Qed.

Lemma run_validation_runs_once_witness :
  let good := Sample.world Sample.alive [] None (inr (VStr "report")) in
  let bad := Sample.world Sample.alive [] (Some (Exn RuntimeError "Event loop is closed"))
               (inr (VStr "report")) in
  (exists r, fst (run_validation Sample.lib good Sample.project RunningLoop "/tmp/p"
                    "OpenAI" "gpt-4" "key" None Sample.start) = Return r)
  /\ fst (run_validation Sample.lib bad Sample.project IdleLoop "/tmp/p"
            "OpenAI" "gpt-4" "key" None Sample.start)
     = Raise (Exn RuntimeError "cannot reuse already awaited coroutine")
  /\ fst (run_validation Sample.lib bad Sample.project NoEventLoop "/tmp/p"
            "OpenAI" "gpt-4" "key" None Sample.start)
     = Raise (Exn RuntimeError "Event loop is closed").
Proof.
  cbv zeta. split; [| split].
  - apply (run_validation_runs_once Sample.lib _ Sample.project RunningLoop "/tmp/p"
             "OpenAI" "gpt-4" "key" None Sample.start).
    apply sample_close_calls_succeed.
  - destruct (run_validation_runs_once Sample.lib
                (Sample.world Sample.alive []
                   (Some (Exn RuntimeError "Event loop is closed"))
                   (inr (VStr "report")))
                Sample.project IdleLoop "/tmp/p" "OpenAI" "gpt-4" "key" None
                Sample.start) as (_ & _ & _ & _ & _ & Hmasked).
    apply (Hmasked (Exn RuntimeError "Event loop is closed"));
      [vm_compute; reflexivity | reflexivity | reflexivity].
  - destruct (run_validation_runs_once Sample.lib
                (Sample.world Sample.alive []
                   (Some (Exn RuntimeError "Event loop is closed"))
                   (inr (VStr "report")))
                Sample.project NoEventLoop "/tmp/p" "OpenAI" "gpt-4" "key" None
                Sample.start) as (_ & _ & _ & _ & Hsame & _).
    cbv zeta in Hsame. rewrite (Hsame eq_refl). vm_compute. reflexivity.
Defined.

(** ** [start_server] *)

(** X12. The outcomes of [start_server] on a client that holds no process yet.
    It returns only [True], and then it has probed for the launcher, spawned
    the worker with the project path as its one argument, slept two seconds
    and found the worker running, in this order and with no other call. A
    launcher probe that fails with [CalledProcessError] or
    [FileNotFoundError] gives the [RuntimeError] that npx is not available,
    and no worker is spawned. A worker that has exited within the two
    seconds gives the [RuntimeError] that carries its error output. And
    whenever [start_server] raises, the client is left without a worker that
    could still be running. *)
Theorem start_server_outcomes
    (lib : Lib) (env : Env) (project_path : string) (s : state) :
  let run := start_server lib env project_path s in
  self_process s = None ->
  (forall b, fst run = Return b ->
     b = true
     /\ snd run = {| self_process := Some {| returncode := None |};
                     trace := after_grace project_path (trace s) |})
  /\ (forall e, env_npx_version env (EvNpxVersion :: trace s) = Some e ->
      is_instance e CalledProcessError || is_instance e FileNotFoundError = true ->
      run = (Raise (Exn RuntimeError
                      "npx is not available. Please install Node.js and npm."),
             {| self_process := None; trace := EvNpxVersion :: trace s |}))
  /\ (forall rc stderr text,
        env_npx_version env (EvNpxVersion :: trace s) = None ->
        env_spawn env (EvSpawn (server_argv project_path) :: EvNpxVersion :: trace s)
        = None ->
        env_exited env (after_grace project_path (trace s)) = Some rc ->
        env_stderr_read env (EvStderrRead :: after_grace project_path (trace s))
        = inr stderr ->
        bytes_decode lib stderr = Some text ->
        run = (Raise (Exn RuntimeError ("MCP server failed to start: " ++ text)),
               {| self_process := Some {| returncode := Some rc |};
                  trace := EvStderrRead :: after_grace project_path (trace s) |}))
  /\ (forall e, fst run = Raise e -> no_live_worker (snd run)).
Proof.
  cbv zeta. intro Hnone.
  unfold start_server, subprocess_run_npx_version, create_subprocess_exec,
    asyncio_sleep, process_returncode, stderr_read, decode, try_except, bind, emit,
    ask, get_process, set_process, or_raise, ret, raise, after_grace, server_argv,
    no_live_worker.
  cbn [fst snd trace self_process returncode].
  destruct (env_npx_version env (EvNpxVersion :: trace s)) as [e0 |] eqn:Hnpx.
  - cbn [fst snd trace self_process]. rewrite Hnone.
    destruct (is_instance e0 CalledProcessError || is_instance e0 FileNotFoundError)
      eqn:Hcls; cbn [fst snd trace self_process];
      repeat split; intros; try discriminate; try congruence; exact I.
  - cbn [fst snd trace self_process returncode].
    destruct (env_spawn env _) as [e1 |] eqn:Hspawn;
      cbn [fst snd trace self_process returncode].
    + rewrite Hnone. repeat split; intros; try discriminate; try congruence; exact I.
    + destruct (env_exited env _) as [rc |] eqn:Hexit;
        cbn [fst snd trace self_process returncode].
      * destruct (env_stderr_read env _) as [e2 | bytes] eqn:Herr;
          cbn [fst snd trace self_process returncode].
        -- repeat split; intros; try discriminate; try congruence.
        -- destruct (bytes_decode lib bytes) as [text |] eqn:Hdec;
             cbn [fst snd trace self_process returncode];
             repeat split; intros; try discriminate; try congruence.
      * repeat split; intros; try discriminate; congruence.
Qed.

Lemma start_server_outcomes_witness :
  let gone := Sample.world (fun _ => Some 1%Z) [] None (inr (VStr "report")) in
  self_process Sample.start = None
  /\ start_server Sample.lib sample_no_launcher "/tmp/p" Sample.start
     = (Raise (Exn RuntimeError "npx is not available. Please install Node.js and npm."),
        {| self_process := None; trace := [EvNpxVersion] |})
  /\ start_server Sample.lib gone "/tmp/p" Sample.start
     = (Raise (Exn RuntimeError "MCP server failed to start: npm error code E404"),
        {| self_process := Some {| returncode := Some 1%Z |};
           trace := EvStderrRead :: after_grace "/tmp/p" [] |}).
Proof.
  cbv zeta. split; [reflexivity | split].
  - destruct (start_server_outcomes Sample.lib sample_no_launcher "/tmp/p" Sample.start
                eq_refl) as (_ & Hprobe & _).
    apply (Hprobe (Exn FileNotFoundError "[Errno 2] No such file or directory: 'npx'"));
      reflexivity.
  - destruct (start_server_outcomes Sample.lib
                (Sample.world (fun _ => Some 1%Z) [] None (inr (VStr "report")))
                "/tmp/p" Sample.start eq_refl) as (_ & _ & Hgone & _).
    apply (Hgone 1%Z "npm error code E404" "npm error code E404"); reflexivity.
Defined.

(** ** [send_request]: one round trip *)

(** X13. What [send_request] does on the pipes. It writes nothing to a worker
    that is not running; otherwise it writes the request line once, then
    drains, then reads one line with the timeout 15, in this order, and it
    stops at the first of the three that raises. It returns a payload only
    after the full round trip. *)
Theorem send_request_round_trip
    (lib : Lib) (env : Env) (method : string) (params : option value) (s : state) :
  let run := send_request lib env method params s in
  let written := EvStdinWrite (request_line lib method params) in
  exists evs,
    trace (snd run) = (evs ++ trace s)%list
    /\ (evs = [] \/ evs = [written] \/ evs = [EvStdinDrain; written]
        \/ evs = [EvReadline 15; EvStdinDrain; written])
    /\ (is_running env s = false -> evs = [])
    /\ (is_running env s = true -> evs <> [])
    /\ (forall payload, fst run = Return payload ->
        evs = [EvReadline 15; EvStdinDrain; written]).
Proof.
  cbv zeta.
  unfold send_request, not_running, process_returncode, stdin_write, stdin_drain,
    stdout_readline, decode, request_line, is_running, try_except, bind, emit, ask,
    get_process, set_process, or_raise, lift, ret, raise.
  cbv zeta. destruct s as [process t]. cbn [self_process trace fst snd].
  destruct process as [[[rc |]] |]; cbn [returncode self_process trace fst snd].
  - exists []. repeat split; intros; try discriminate; auto.
  - destruct (env_exited env t) as [rc |]; cbn [returncode self_process trace fst snd].
    + exists []. repeat split; intros; try discriminate; auto.
    + destruct (env_stdin_write env _) as [e |];
        cbn [returncode self_process trace fst snd].
      * destruct (is_instance e TimeoutError); [| destruct (is_instance e JSONDecodeError)];
          cbn [trace fst snd];
          (eexists [_]; repeat split; intros; try discriminate; auto).
      * destruct (env_stdin_drain env _) as [e |];
          cbn [returncode self_process trace fst snd].
        -- destruct (is_instance e TimeoutError);
             [| destruct (is_instance e JSONDecodeError)];
             cbn [trace fst snd];
             (eexists [_; _]; repeat split; intros; try discriminate; auto).
        -- exists [EvReadline 15; EvStdinDrain;
                   EvStdinWrite (json_dumps lib (request_envelope method params) ++ LF)].
           split; [| repeat split; intros; try discriminate; auto].
           destruct (env_readline env _) as [| e | bytes];
             cbn [is_instance exn_cls exn_class_eqb trace fst snd];
             try reflexivity.
           ++ destruct (is_instance e TimeoutError);
                [| destruct (is_instance e JSONDecodeError)]; reflexivity.
           ++ destruct (bytes =? ""); [reflexivity |].
              destruct (bytes_decode lib bytes) as [text |]; [| reflexivity].
              destruct (json_loads lib (strip text)) as [msg | response];
                [reflexivity |].
              destruct (py_contains "error" response) as [[|] | e];
                cbn [is_instance exn_cls exn_class_eqb trace fst snd];
                try reflexivity.
              ** destruct (py_getitem response "error") as [err | e];
                   cbn [trace fst snd]; [reflexivity |].
                 destruct (is_instance e TimeoutError);
                   [| destruct (is_instance e JSONDecodeError)]; reflexivity.
              ** destruct (py_get response "result" (VDict [])) as [v | e];
                   cbn [trace fst snd]; [reflexivity |].
                 destruct (is_instance e TimeoutError);
                   [| destruct (is_instance e JSONDecodeError)]; reflexivity.
              ** destruct (is_instance e TimeoutError);
                   [| destruct (is_instance e JSONDecodeError)]; reflexivity.
  - exists []. repeat split; intros; try discriminate; auto.
Qed.

(** ** What a run sends to the model endpoint *)

(** [prepare] returns the snapshot of the project tree, and the supplied
    policy text when there is one. *)
Lemma prepare_result lib env fs pp pc s pf s1 :
  prepare lib env fs pp pc s = (Return pf, s1) ->
  list_project_structure_sync lib pp fs = Return (snd pf)
  /\ (forall text, pc = Some text -> supplied pc = true -> fst pf = VStr text).
Proof.
  unfold prepare, bind, lift, ret.
  destruct (start_server lib env pp s) as [[b | e] s0]; [| discriminate].
  destruct (initialize lib env s0) as [[v | e] s2]; [| discriminate].
  destruct (get_project_guidelines lib (call_tool lib env) pp pc s2)
    as [[policy | e] s3] eqn:Hpolicy; [| discriminate].
  destruct (list_project_structure_sync lib pp fs) as [files | e]; [| discriminate].
  intro H. inversion H; subst. cbn [fst snd]. split; [reflexivity |].
  intros text -> Hsup. unfold get_project_guidelines in Hpolicy.
  rewrite Hsup in Hpolicy. inversion Hpolicy. reflexivity.
Qed.

(** The provider dispatch: one request to a supported provider, none
    otherwise. *)
Lemma evaluate_run lib env prov model key policy files s :
  evaluate lib env prov model key policy files s
  = if (prov =? "OpenAI") || (prov =? "Anthropic") then
      let s' := {| self_process := self_process s;
                   trace := model_request lib prov key model policy files :: trace s |} in
      match env_chat env (trace s') with
      | inl e => (Raise e, s')
      | inr content => (Return (Success policy files content), s')
      end
    else (Raise (Exn ValueError ("Unsupported LLM provider: " ++ prov)), s).
Proof.
  unfold evaluate, chat_completion, model_request, bind, emit, ask, ret, raise.
  destruct (prov =? "OpenAI") eqn:H1.
  - apply String.eqb_eq in H1. subst prov. cbn [orb trace].
    destruct (env_chat env _); reflexivity.
  - destruct (prov =? "Anthropic") eqn:H2.
    + apply String.eqb_eq in H2. subst prov. cbn [orb trace].
      destruct (env_chat env _); reflexivity.
    + reflexivity.
Qed.

(** The run in two steps: the guarded block, then [close]. *)
Lemma run_validation_async_steps lib env fs pp prov model key pc s :
  run_validation_async lib env fs pp prov model key pc s
  = let (r, s1) :=
      match prepare lib env fs pp pc (fresh s) with
      | (Return pf, s0) =>
          match evaluate lib env prov model key (fst pf) (snd pf) s0 with
          | (Return r, s1) => (Return r, s1)
          | (Raise e, s1) => (Return (Failure (exn_str e)), s1)
          end
      | (Raise e, s0) => (Return (Failure (exn_str e)), s0)
      end in
    match close env s1 with
    | (Return _, s2) => (r, s2)
    | (Raise e, s2) => (Raise e, s2)
    end.
Proof.
  unfold run_validation_async, bind, set_process, try_finally, try_except, ret.
  fold (fresh s).
  destruct (prepare lib env fs pp pc (fresh s)) as [[pf | e] s0]; [| reflexivity].
  destruct (evaluate lib env prov model key (fst pf) (snd pf) s0) as [[r | e] s1];
    reflexivity.
Qed.

(** [prepare] step by step. *)
Lemma prepare_steps lib env fs pp pc s :
  prepare lib env fs pp pc s
  = match start_server lib env pp s with
    | (Raise e, s_started) => (Raise e, s_started)
    | (Return _, s_started) =>
        match initialize lib env s_started with
        | (Raise e, s_ready) => (Raise e, s_ready)
        | (Return _, s_ready) =>
            match get_project_guidelines lib (call_tool lib env) pp pc s_ready with
            | (Raise e, s_resolved) => (Raise e, s_resolved)
            | (Return policy, s_resolved) =>
                match list_project_structure_sync lib pp fs with
                | Raise e => (Raise e, s_resolved)
                | Return files => (Return (policy, files), s_resolved)
                end
            end
        end
    end.
Proof.
  unfold prepare, bind, lift, ret.
  destruct (start_server lib env pp s) as [[b | e] s0]; [ | reflexivity ].
  destruct (initialize lib env s0) as [[v | e] s2]; [ | reflexivity ].
  destruct (get_project_guidelines lib (call_tool lib env) pp pc s2)
    as [[policy | e] s3]; [ | reflexivity ].
  destruct (list_project_structure_sync lib pp fs); reflexivity.
Qed.

Lemma start_server_not_chat lib env pp : extends not_chat (start_server lib env pp).
Proof. extends_auto ltac:(reflexivity). Qed.

Lemma send_request_not_chat lib env method params :
  extends not_chat (send_request lib env method params).
Proof. extends_auto ltac:(reflexivity). Qed.

Lemma get_project_guidelines_not_chat lib env pp pc :
  extends not_chat (get_project_guidelines lib (call_tool lib env) pp pc).
Proof. extends_auto ltac:(reflexivity). Qed.

(** The run once start, handshake, policy resolution and snapshot have
    succeeded and the provider is a supported one. *)
Lemma run_validation_async_after_steps
    lib env fs pp prov model key pc s b s_started v s_ready policy s_resolved files :
  start_server lib env pp (fresh s) = (Return b, s_started) ->
  initialize lib env s_started = (Return v, s_ready) ->
  get_project_guidelines lib (call_tool lib env) pp pc s_ready
  = (Return policy, s_resolved) ->
  list_project_structure_sync lib pp fs = Return files ->
  prov = "OpenAI" \/ prov = "Anthropic" ->
  let sent := {| self_process := self_process s_resolved;
                 trace := model_request lib prov key model policy files
                          :: trace s_resolved |} in
  run_validation_async lib env fs pp prov model key pc s
  = match close env sent with
    | (Return _, s2) =>
        (match env_chat env (trace sent) with
         | inl e => Return (Failure (exn_str e))
         | inr report => Return (Success policy files report)
         end, s2)
    | (Raise e, s2) => (Raise e, s2)
    end.
Proof.
  intros Hstart Hinit Hpolicy Hfiles Hprov sent.
  rewrite run_validation_async_steps, prepare_steps, Hstart, Hinit, Hpolicy, Hfiles.
  cbn [fst snd]. rewrite evaluate_run.
  assert (Hs : (prov =? "OpenAI") || (prov =? "Anthropic") = true).
  { destruct Hprov as [-> | ->]; reflexivity. }
  rewrite Hs. cbv zeta. fold sent.
  destruct (env_chat env (trace sent)); destruct (close env sent) as [[u | e'] s2];
    reflexivity.
Qed.

Lemma steps_not_chat lib env pp pc s b s_started v s_ready policy s_resolved :
  start_server lib env pp (fresh s) = (Return b, s_started) ->
  initialize lib env s_started = (Return v, s_ready) ->
  get_project_guidelines lib (call_tool lib env) pp pc s_ready
  = (Return policy, s_resolved) ->
  chats (trace s_resolved) = chats (trace s).
Proof.
  intros Hstart Hinit Hpolicy.
  destruct (start_server_not_chat lib env pp (fresh s)) as (e1 & Ht1 & He1).
  destruct (send_request_not_chat lib env "initialize"
              (Some (VDict [ ("protocolVersion", VStr "2024-11-05");
                             ("capabilities", VDict [("tools", VDict [])]);
                             ("clientInfo",
                              VDict [ ("name", VStr "project-validator");
                                      ("version", VStr "1.0.0") ]) ])) s_started)
    as (e2 & Ht2 & He2).
  fold (initialize lib env) in Ht2.
  destruct (get_project_guidelines_not_chat lib env pp pc s_ready)
    as (e3 & Ht3 & He3).
  rewrite Hstart in Ht1. rewrite Hinit in Ht2. rewrite Hpolicy in Ht3.
  cbn [snd fresh trace] in *.
  rewrite Ht3, chats_app_none, Ht2, chats_app_none, Ht1, chats_app_none
    by assumption.
  reflexivity.
Qed.

Lemma run_validation_async_sent
    lib env fs pp prov model key pc s b s_started v s_ready policy s_resolved files :
  start_server lib env pp (fresh s) = (Return b, s_started) ->
  initialize lib env s_started = (Return v, s_ready) ->
  get_project_guidelines lib (call_tool lib env) pp pc s_ready
  = (Return policy, s_resolved) ->
  list_project_structure_sync lib pp fs = Return files ->
  prov = "OpenAI" \/ prov = "Anthropic" ->
  exists closing,
    trace (snd (run_validation_async lib env fs pp prov model key pc s))
    = (closing ++ model_request lib prov key model policy files
       :: trace s_resolved)%list
    /\ Forall not_chat closing.
Proof.
  intros Hstart Hinit Hpolicy Hfiles Hprov.
  rewrite (run_validation_async_after_steps lib env fs pp prov model key pc s
             b s_started v s_ready policy s_resolved files
             Hstart Hinit Hpolicy Hfiles Hprov).
  cbv zeta.
  match goal with
  | |- context [close env ?st] =>
      destruct (close_not_chat env st) as (closing & Ht & Hc);
      destruct (close env st) as [[u | e] s2]
  end; exists closing; cbn [snd trace] in *; split; assumption.
Qed.

(** A failure of an early step: nothing is sent. *)
Lemma closes_without_request env sc s :
  chats (trace sc) = chats (trace s) ->
  chats (trace (snd (close env sc))) = chats (trace s).
Proof.
  intro Hq. destruct (close_not_chat env sc) as (closing & Ht & Hc).
  rewrite Ht, chats_app_none by exact Hc. exact Hq.
Qed.

(** X14. What leaves for the model endpoint. A run sends a request to a
    model endpoint only when [start_server], [initialize], the policy
    resolver and the snapshot have returned, in this order from the state of
    the new client, and the provider is one of the two supported ones; and
    then it sends exactly one, right after the log of these steps, followed
    by nothing but the calls of [close]. The request carries the fixed
    system prompt, the token limit 2000 and the user prompt built from the
    policy the resolver returned and the snapshot of the project tree, that
    is, the names of the visible files and directories and nothing of their
    contents. A success record holds exactly that policy and that snapshot
    and the reply of the endpoint to this request, and its policy is the
    supplied text when one was supplied. *)
Theorem run_validation_async_model_request
    (lib : Lib) (env : Env) (fs : node)
    (project_path llm_provider model api_key : string)
    (policy_content : option string) (s : state) :
  let run := run_validation_async lib env fs project_path llm_provider model api_key
               policy_content s in
  let steps b s_started v s_ready policy s_resolved files :=
    start_server lib env project_path (fresh s) = (Return b, s_started)
    /\ initialize lib env s_started = (Return v, s_ready)
    /\ get_project_guidelines lib (call_tool lib env) project_path policy_content
         s_ready = (Return policy, s_resolved)
    /\ list_project_structure_sync lib project_path fs = Return files
    /\ (llm_provider = "OpenAI" \/ llm_provider = "Anthropic") in
  let sent policy files :=
    model_request lib llm_provider api_key model policy files in
  (chats (trace (snd run)) = chats (trace s)
   \/ exists b s_started v s_ready policy s_resolved files closing,
        steps b s_started v s_ready policy s_resolved files
        /\ trace (snd run)
           = (closing ++ sent policy files :: trace s_resolved)%list
        /\ Forall not_chat closing
        /\ chats (trace s_resolved) = chats (trace s))
  /\ (forall b s_started v s_ready policy s_resolved files,
        steps b s_started v s_ready policy s_resolved files ->
        chats (trace (snd run)) = sent policy files :: chats (trace s))
  /\ (forall policy files report,
        fst run = Return (Success policy files report) ->
        exists b s_started v s_ready s_resolved,
          steps b s_started v s_ready policy s_resolved files
          /\ env_chat env (sent policy files :: trace s_resolved) = inr report
          /\ (forall text, policy_content = Some text ->
              supplied policy_content = true -> policy = VStr text)).
Proof.
  cbv zeta. split; [ | split ].
  - rewrite run_validation_async_steps, prepare_steps.
    destruct (start_server lib env project_path (fresh s)) as [[b | e] sa] eqn:Hstart.
    2: { left.
         destruct (start_server_not_chat lib env project_path (fresh s))
           as (e1 & Ht1 & He1). rewrite Hstart in Ht1. cbn [snd fresh trace] in Ht1.
         assert (Hq : chats (trace sa) = chats (trace s))
           by (rewrite Ht1; apply chats_app_none; exact He1).
         pose proof (closes_without_request env sa s Hq) as Hc.
         destruct (close env sa) as [[u | e'] s2]; exact Hc. }
    destruct (initialize lib env sa) as [[v | e] sb] eqn:Hinit.
    2: { left.
         destruct (start_server_not_chat lib env project_path (fresh s))
           as (e1 & Ht1 & He1). rewrite Hstart in Ht1. cbn [snd fresh trace] in Ht1.
         destruct (send_request_not_chat lib env "initialize"
                     (Some (VDict [ ("protocolVersion", VStr "2024-11-05");
                                    ("capabilities", VDict [("tools", VDict [])]);
                                    ("clientInfo",
                                     VDict [ ("name", VStr "project-validator");
                                             ("version", VStr "1.0.0") ]) ])) sa)
           as (e2 & Ht2 & He2).
         fold (initialize lib env) in Ht2. rewrite Hinit in Ht2. cbn [snd] in Ht2.
         assert (Hq : chats (trace sb) = chats (trace s))
           by (rewrite Ht2, chats_app_none, Ht1, chats_app_none by assumption;
               reflexivity).
         pose proof (closes_without_request env sb s Hq) as Hc.
         destruct (close env sb) as [[u | e'] s2]; exact Hc. }
    destruct (get_project_guidelines lib (call_tool lib env) project_path
                policy_content sb) as [[policy | e] sc] eqn:Hpolicy.
    2: { left.
         destruct (start_server_not_chat lib env project_path (fresh s))
           as (e1 & Ht1 & He1). rewrite Hstart in Ht1. cbn [snd fresh trace] in Ht1.
         destruct (send_request_not_chat lib env "initialize"
                     (Some (VDict [ ("protocolVersion", VStr "2024-11-05");
                                    ("capabilities", VDict [("tools", VDict [])]);
                                    ("clientInfo",
                                     VDict [ ("name", VStr "project-validator");
                                             ("version", VStr "1.0.0") ]) ])) sa)
           as (e2 & Ht2 & He2).
         fold (initialize lib env) in Ht2. rewrite Hinit in Ht2. cbn [snd] in Ht2.
         destruct (get_project_guidelines_not_chat lib env project_path
                     policy_content sb) as (e3 & Ht3 & He3).
         rewrite Hpolicy in Ht3. cbn [snd] in Ht3.
         assert (Hq : chats (trace sc) = chats (trace s))
           by (rewrite Ht3, chats_app_none, Ht2, chats_app_none, Ht1, chats_app_none
                 by assumption; reflexivity).
         pose proof (closes_without_request env sc s Hq) as Hc.
         destruct (close env sc) as [[u | e'] s2]; exact Hc. }
    pose proof (steps_not_chat lib env project_path policy_content s b sa v sb policy
                  sc Hstart Hinit Hpolicy) as Hq.
    destruct (list_project_structure_sync lib project_path fs) as [files | e]
      eqn:Hfiles.
    2: { left. pose proof (closes_without_request env sc s Hq) as Hc.
         destruct (close env sc) as [[u | e'] s2]; exact Hc. }
    cbn [fst snd]. rewrite evaluate_run.
    destruct ((llm_provider =? "OpenAI") || (llm_provider =? "Anthropic")) eqn:Hprov.
    + right.
      assert (Hp : llm_provider = "OpenAI" \/ llm_provider = "Anthropic").
      { apply orb_prop in Hprov. destruct Hprov as [H | H];
          apply String.eqb_eq in H; auto. }
      destruct (run_validation_async_sent lib env fs project_path llm_provider model
                  api_key policy_content s b sa v sb policy sc files
                  Hstart Hinit Hpolicy Hfiles Hp) as (closing & Ht & Hc).
      exists b, sa, v, sb, policy, sc, files, closing.
      rewrite run_validation_async_steps, prepare_steps, Hstart, Hinit, Hpolicy,
        Hfiles, evaluate_run, Hprov in Ht.
      repeat split; assumption.
    + left. pose proof (closes_without_request env sc s Hq) as Hc.
      destruct (close env sc) as [[u | e'] s2]; exact Hc.
  - intros b sa v sb policy sc files (Hstart & Hinit & Hpolicy & Hfiles & Hp).
    destruct (run_validation_async_sent lib env fs project_path llm_provider model
                api_key policy_content s b sa v sb policy sc files
                Hstart Hinit Hpolicy Hfiles Hp) as (closing & Ht & Hc).
    rewrite Ht, chats_app_none by exact Hc.
    unfold chats at 1. cbn [filter model_request is_chat].
    fold (chats (trace sc)).
    rewrite (steps_not_chat lib env project_path policy_content s b sa v sb policy sc
               Hstart Hinit Hpolicy).
    reflexivity.
  - intros policy files report.
    rewrite run_validation_async_steps, prepare_steps.
    destruct (start_server lib env project_path (fresh s)) as [[b | e] sa] eqn:Hstart.
    2: { destruct (close env sa) as [[u | e'] s2]; discriminate. }
    destruct (initialize lib env sa) as [[v | e] sb] eqn:Hinit.
    2: { destruct (close env sb) as [[u | e'] s2]; discriminate. }
    destruct (get_project_guidelines lib (call_tool lib env) project_path
                policy_content sb) as [[policy' | e] sc] eqn:Hpolicy.
    2: { destruct (close env sc) as [[u | e'] s2]; discriminate. }
    destruct (list_project_structure_sync lib project_path fs) as [files' | e]
      eqn:Hfiles.
    2: { destruct (close env sc) as [[u | e'] s2]; discriminate. }
    cbn [fst snd]. rewrite evaluate_run.
    destruct ((llm_provider =? "OpenAI") || (llm_provider =? "Anthropic")) eqn:Hprov.
    2: { destruct (close env sc) as [[u | e'] s2]; discriminate. }
    assert (Hp : llm_provider = "OpenAI" \/ llm_provider = "Anthropic").
    { apply orb_prop in Hprov. destruct Hprov as [H | H];
        apply String.eqb_eq in H; auto. }
    cbv zeta. cbn [trace].
    destruct (env_chat env (model_request lib llm_provider api_key model policy' files'
                            :: trace sc)) as [e | content] eqn:Hchat;
      match goal with
      | |- context [close env ?st] => destruct (close env st) as [[u | e'] s2]
      end; cbn [fst]; intro H; try discriminate.
    inversion H; subst.
    exists b, sa, v, sb, sc. repeat split; try assumption.
    intros text -> Hsup. unfold get_project_guidelines in Hpolicy.
    rewrite Hsup in Hpolicy. inversion Hpolicy. reflexivity.
Qed.

Lemma run_validation_async_model_request_witness :
  let run := run_validation_async Sample.lib (sample_world "The structure follows the policy.")
               Sample.project "/tmp/p" "Anthropic" "claude" "key"
               (Some "Keep a README.") Sample.start in
  fst run
  = Return (Success (VStr "Keep a README.")
              ["README.md"; "policy.txt"; "src/"; "src/main.x"; "tests/";
               "tests/test_main.x"]
              (VStr "The structure follows the policy."))
  /\ chats (trace (snd run))
     = [ model_request Sample.lib "Anthropic" "key" "claude" (VStr "Keep a README.")
           ["README.md"; "policy.txt"; "src/"; "src/main.x"; "tests/";
            "tests/test_main.x"] ].
Proof.
  cbv zeta.
  assert (Hrun : fst (run_validation_async Sample.lib
                        (sample_world "The structure follows the policy.")
                        Sample.project "/tmp/p" "Anthropic" "claude" "key"
                        (Some "Keep a README.") Sample.start)
                 = Return (Success (VStr "Keep a README.")
                             ["README.md"; "policy.txt"; "src/"; "src/main.x"; "tests/";
                              "tests/test_main.x"]
                             (VStr "The structure follows the policy.")))
    by (vm_compute; reflexivity).
  split; [ exact Hrun | ].
  destruct (run_validation_async_model_request Sample.lib
              (sample_world "The structure follows the policy.")
              Sample.project "/tmp/p" "Anthropic" "claude" "key"
              (Some "Keep a README.") Sample.start) as (_ & Hsends & Hsuccess).
  cbv zeta in Hsends, Hsuccess.
  destruct (Hsuccess _ _ _ Hrun) as (b & sa & v & sb & sc & Hsteps & _).
  exact (Hsends b sa v sb _ sc _ Hsteps).
Defined.

(** ** A worker that exits during start-up *)

Lemma start_server_worker_gone lib env pp s rc :
  env_npx_version env (EvNpxVersion :: trace s) = None ->
  env_spawn env (EvSpawn (server_argv pp) :: EvNpxVersion :: trace s) = None ->
  env_exited env (after_grace pp (trace s)) = Some rc ->
  exists e s1,
    start_server lib env pp s = (Raise e, s1)
    /\ self_process s1 = Some {| returncode := Some rc |}.
Proof.
  intros Hnpx Hspawn Hexit.
  unfold start_server, subprocess_run_npx_version, create_subprocess_exec,
    asyncio_sleep, process_returncode, stderr_read, decode, try_except, bind, emit,
    ask, get_process, set_process, or_raise, ret, raise, after_grace, server_argv in *.
  cbn [fst snd trace self_process returncode]. rewrite Hnpx.
  cbn [fst snd trace self_process returncode]. rewrite Hspawn.
  cbn [fst snd trace self_process returncode]. rewrite Hexit.
  cbn [fst snd trace self_process returncode].
  destruct (env_stderr_read env _) as [e | bytes];
    cbn [fst snd trace self_process returncode]; [eauto |].
  destruct (bytes_decode lib bytes); cbn [fst snd trace self_process returncode]; eauto.
Qed.

Lemma close_terminate_raises env s p e :
  self_process s = Some p ->
  (forall t, env_terminate env t = Some e) ->
  fst (close env s) = Raise e.
Proof.
  intros Hp Hterm.
  unfold close, process_terminate, bind, emit, ask, get_process, or_raise, raise.
  cbn [fst snd trace self_process]. rewrite Hp. cbn [fst snd trace self_process].
  rewrite Hterm. reflexivity.
Qed.

(** X15. A worker that exits during start-up turns a failed run into an
    exception. When the launcher is there and the worker is spawned but has
    exited within the two seconds of grace, and [terminate()] raises on the
    exited process, every run raises that exception to its caller: the
    failure record that the handler builds for the failed start is lost in
    the [finally] clause. *)
Theorem run_validation_async_worker_exits_early
    (lib : Lib) (env : Env) (fs : node)
    (project_path llm_provider model api_key : string)
    (policy_content : option string) (s : state) (rc : Z) (e : exn) :
  env_npx_version env (EvNpxVersion :: trace s) = None ->
  env_spawn env (EvSpawn (server_argv project_path) :: EvNpxVersion :: trace s) = None ->
  env_exited env (after_grace project_path (trace s)) = Some rc ->
  (forall t, env_terminate env t = Some e) ->
  fst (run_validation_async lib env fs project_path llm_provider model api_key
         policy_content s) = Raise e.
Proof.
  intros Hnpx Hspawn Hexit Hterm.
  rewrite run_validation_async_steps.
  destruct (start_server_worker_gone lib env project_path (fresh s) rc Hnpx Hspawn Hexit)
    as (e' & s1 & Hstart & Hproc).
  unfold prepare, bind at 1. rewrite Hstart.
  pose proof (close_terminate_raises env s1 _ e Hproc Hterm) as Hclose.
  destruct (close env s1) as [[u | e''] s2]; cbn [fst] in *; congruence.
Qed.

Lemma run_validation_async_worker_exits_early_witness :
  fst (run_validation_async Sample.lib
         (Sample.world (fun _ => Some 1%Z) [] (Some (Exn ProcessLookupError ""))
            (inr (VStr "report")))
         Sample.project "/tmp/p" "Anthropic" "claude" "key" (Some "Keep a README.")
         Sample.start)
  = Raise (Exn ProcessLookupError "").
Proof.
  apply (run_validation_async_worker_exits_early Sample.lib _ Sample.project "/tmp/p"
           "Anthropic" "claude" "key" (Some "Keep a README.") Sample.start 1%Z);
    reflexivity.
Defined.

(** ** How much a run does *)

Section Bounds.

Variable p : event -> bool.

Lemma count_app (evs evs' : list event) :
  count p (evs ++ evs') = (count p evs + count p evs')%nat.
Proof. unfold count. rewrite filter_app, length_app. reflexivity. Qed.

(** A coroutine that adds no entry of the kind adds at most none. *)
Lemma adds_none {A} (c : M A) :
  extends (fun ev => p ev = false) c -> adds_at_most p 0 c.
Proof.
  intros H s. destruct (H s) as (evs & Ht & Hevs). exists evs. split; [exact Ht |].
  clear Ht. unfold count. induction Hevs as [| ev evs Hev _ IH]; simpl; [lia |].
  rewrite Hev. exact IH.
Qed.

Lemma adds_weaken {A} (c : M A) n m :
  (n <= m)%nat -> adds_at_most p n c -> adds_at_most p m c.
Proof.
  intros Hle H s. destruct (H s) as (evs & Ht & Hevs). exists evs.
  split; [exact Ht | lia].
Qed.

Lemma adds_emit ev : adds_at_most p 1 (emit ev).
Proof.
  intro s. exists [ev]. split; [reflexivity |].
  unfold count. simpl. destruct (p ev); simpl; lia.
Qed.

Lemma adds_bind {A B} (c : M A) (k : A -> M B) n m :
  adds_at_most p n c -> (forall a, adds_at_most p m (k a)) ->
  adds_at_most p (n + m) (bind c k).
Proof.
  intros Hc Hk s. unfold bind.
  destruct (Hc s) as (evs & Ht & Hevs).
  destruct (c s) as [[a | e] s1]; simpl in *.
  - destruct (Hk a s1) as (evs' & Ht' & Hevs').
    exists (evs' ++ evs)%list. rewrite Ht', Ht, app_assoc, count_app.
    split; [reflexivity | lia].
  - exists evs. split; [exact Ht | lia].
Qed.

Lemma adds_try_except {A} (c : M A) (h : exn -> M A) n m :
  adds_at_most p n c -> (forall e, adds_at_most p m (h e)) ->
  adds_at_most p (n + m) (try_except c h).
Proof.
  intros Hc Hh s. unfold try_except.
  destruct (Hc s) as (evs & Ht & Hevs).
  destruct (c s) as [[a | e] s1]; simpl in *.
  - exists evs. split; [exact Ht | lia].
  - destruct (Hh e s1) as (evs' & Ht' & Hevs').
    exists (evs' ++ evs)%list. rewrite Ht', Ht, app_assoc, count_app.
    split; [reflexivity | lia].
Qed.

Lemma adds_try_finally {A} (c : M A) (f : M unit) n m :
  adds_at_most p n c -> adds_at_most p m f ->
  adds_at_most p (n + m) (try_finally c f).
Proof.
  intros Hc Hf s. unfold try_finally.
  destruct (Hc s) as (evs & Ht & Hevs).
  destruct (c s) as [r s1]; simpl in *.
  destruct (Hf s1) as (evs' & Ht' & Hevs').
  exists (evs' ++ evs)%list.
  destruct (f s1) as [[u | e] s2]; simpl in *;
    rewrite Ht', Ht, app_assoc, count_app; split; try reflexivity; lia.
Qed.

Variable lib : Lib.
Variable env : Env.
Variable fs : node.
Variables a b c d : nat.

Hypothesis start_adds : forall pp, adds_at_most p a (start_server lib env pp).
Hypothesis request_adds :
  forall method params, adds_at_most p b (send_request lib env method params).
Hypothesis evaluate_adds :
  forall prov model key policy files,
    adds_at_most p c (evaluate lib env prov model key policy files).
Hypothesis close_adds : adds_at_most p d (close env).

Lemma attempt_adds policy_path :
  adds_at_most p b (attempt (read_policy lib (call_tool lib env) policy_path)).
Proof.
  unfold attempt, read_policy, call_tool.
  apply (adds_weaken _ (b + 0 + 0 + 0)); [lia |].
  apply adds_try_except; [| intro; apply adds_none; apply extends_ret].
  apply adds_bind; [| intro; apply adds_none; apply extends_ret].
  apply adds_bind; [apply request_adds | intro; apply adds_none; apply extends_lift].
Qed.

Lemma get_project_guidelines_adds pp pc :
  adds_at_most p (if supplied pc then 0 else b + b)
    (get_project_guidelines lib (call_tool lib env) pp pc).
Proof.
  unfold get_project_guidelines. destruct (supplied pc).
  - apply adds_none, extends_ret.
  - apply adds_bind; [apply attempt_adds |].
    intros [text |]; [apply (adds_weaken _ 0); [lia |]; apply adds_none, extends_ret |].
    apply (adds_weaken _ (b + 0)); [lia |].
    apply adds_bind; [apply attempt_adds |].
    intros [text |]; apply adds_none; [apply extends_ret | apply extends_raise].
Qed.

Lemma run_validation_async_adds pp prov model key pc :
  adds_at_most p (a + b + (if supplied pc then 0 else b + b) + c + d)
    (run_validation_async lib env fs pp prov model key pc).
Proof.
  unfold run_validation_async.
  apply (adds_weaken _ (0 + (a + (b + ((if supplied pc then 0 else b + b) + 0)) + c + 0
                             + d))); [lia |].
  apply adds_bind; [apply adds_none, extends_set_process | intros _].
  apply adds_try_finally; [| apply close_adds].
  apply adds_try_except; [| intro; apply adds_none, extends_ret].
  apply adds_bind; [| intro; apply evaluate_adds].
  unfold prepare.
  apply adds_bind; [apply start_adds | intros _].
  apply adds_bind; [apply request_adds | intros _].
  apply adds_bind; [apply get_project_guidelines_adds | intro].
  apply (adds_weaken _ (0 + 0)); [lia |].
  apply adds_bind; [apply adds_none, extends_lift | intro; apply adds_none, extends_ret].
Qed.

End Bounds.

Ltac adds_nothing := apply adds_none; extends_auto ltac:(reflexivity).

Lemma start_server_spawns lib env pp :
  adds_at_most is_spawn 1 (start_server lib env pp).
Proof.
  unfold start_server.
  apply (adds_weaken _ _ (0 + (1 + 0 + 0))); [lia |].
  apply adds_bind; [adds_nothing | intros _].
  apply adds_bind; [| intro; adds_nothing].
  unfold create_subprocess_exec.
  apply adds_bind; [apply adds_emit | intro; adds_nothing].
Qed.

Lemma send_request_writes lib env method params :
  adds_at_most is_write 1 (send_request lib env method params).
Proof.
  unfold send_request. cbv zeta.
  apply (adds_weaken _ _ (0 + (1 + 0 + 0 + 0))); [lia |].
  apply adds_bind; [adds_nothing | intros [|]].
  - apply (adds_weaken _ _ 0); [lia |]. adds_nothing.
  - apply adds_try_except; [| intro; adds_nothing].
    apply adds_bind; [| intro; adds_nothing].
    unfold stdin_write.
    apply adds_bind; [apply adds_emit | intro; adds_nothing].
Qed.

Lemma send_request_reads lib env method params :
  adds_at_most is_read 1 (send_request lib env method params).
Proof.
  unfold send_request. cbv zeta.
  apply (adds_weaken _ _ (0 + (0 + (0 + (1 + 0 + 0)) + 0))); [lia |].
  apply adds_bind; [adds_nothing | intros [|]].
  - apply (adds_weaken _ _ 0); [lia |]. adds_nothing.
  - apply adds_try_except; [| intro; adds_nothing].
    apply adds_bind; [adds_nothing | intros _].
    apply adds_bind; [adds_nothing | intros _].
    apply adds_bind; [| intro; adds_nothing].
    unfold stdout_readline.
    apply adds_bind; [apply adds_emit | intro; adds_nothing].
Qed.

(** X16. What one run costs. Whatever the world answers, a run spawns at most
    one worker, writes at most three requests to it (the handshake and the
    two attempts to read a policy file) and reads at most three response
    lines; when a policy text is supplied it writes the handshake at most
    and so asks the worker to read no file. *)
Theorem run_validation_async_bounds
    (lib : Lib) (env : Env) (fs : node)
    (project_path llm_provider model api_key : string)
    (policy_content : option string) (s : state) :
  exists evs,
    trace (snd (run_validation_async lib env fs project_path llm_provider model
                  api_key policy_content s)) = (evs ++ trace s)%list
    /\ (count is_spawn evs <= 1)%nat
    /\ (count is_write evs <= 3)%nat
    /\ (count is_read evs <= 3)%nat
    /\ (supplied policy_content = true ->
        (count is_write evs <= 1)%nat /\ (count is_read evs <= 1)%nat).
Proof.
  destruct (run_validation_async_adds is_spawn lib env fs 1 0 0 0
              (start_server_spawns lib env)
              ltac:(intros; adds_nothing) ltac:(intros; adds_nothing)
              ltac:(adds_nothing)
              project_path llm_provider model api_key policy_content s)
    as (evs & Ht & Hspawn).
  destruct (run_validation_async_adds is_write lib env fs 0 1 0 0
              ltac:(intros; adds_nothing) (send_request_writes lib env)
              ltac:(intros; adds_nothing) ltac:(adds_nothing)
              project_path llm_provider model api_key policy_content s)
    as (evs1 & Ht1 & Hwrite).
  destruct (run_validation_async_adds is_read lib env fs 0 1 0 0
              ltac:(intros; adds_nothing) (send_request_reads lib env)
              ltac:(intros; adds_nothing) ltac:(adds_nothing)
              project_path llm_provider model api_key policy_content s)
    as (evs2 & Ht2 & Hread).
  rewrite Ht in Ht1, Ht2. apply app_inv_tail in Ht1, Ht2. subst evs1 evs2.
  exists evs. split; [exact Ht |].
  destruct (supplied policy_content); repeat split; try lia; intro; discriminate.
Qed.

Lemma run_validation_async_bounds_witness :
  supplied (Some "Keep a README.") = true
  /\ exists evs,
       trace (snd (run_validation_async Sample.lib (sample_world "report")
                     Sample.project "/tmp/p" "OpenAI" "gpt-4" "key"
                     (Some "Keep a README.") Sample.start)) = (evs ++ [])%list
       /\ (count is_write evs <= 1)%nat.
Proof.
  split; [reflexivity |].
  destruct (run_validation_async_bounds Sample.lib (sample_world "report")
              Sample.project "/tmp/p" "OpenAI" "gpt-4" "key"
              (Some "Keep a README.") Sample.start)
    as (evs & Ht & _ & _ & _ & Hsupplied).
  exists evs. split; [exact Ht | apply Hsupplied; reflexivity].
Defined.

(** ** Unreadable directories and special files *)

Section Readable.

Variable lib : Lib.
Variable project_path : string.

Let walk := get_files_recursive lib project_path.

Lemma walk_item_special path name :
  walk_item lib project_path path (name, Special) = Return [].
Proof. unfold walk_item. destruct (startswith name "."); reflexivity. Qed.

Lemma walk_item_readable path name d :
  d <> Special ->
  (forall p, walk p (readable_part d) = walk p d) ->
  walk_item lib project_path path (name, readable_part d)
  = walk_item lib project_path path (name, d).
Proof.
  intros Hd IH. unfold walk_item.
  destruct (startswith name "."); [reflexivity |].
  destruct d as [| entries | e |]; try reflexivity.
  - cbn [isfile isdir]. fold walk. fold (readable_part (Dir entries)).
    rewrite IH. reflexivity.
  - fold walk. specialize (IH (os_path_join lib path name)).
    cbn [readable_part] in *.
    destruct (is_instance e PermissionError); cbn [isfile isdir] in *;
      fold walk; first [reflexivity | rewrite IH; reflexivity].
Qed.

Lemma walk_readable_part t :
  forall path, walk path (readable_part t) = walk path t.
Proof.
  pattern t. apply node_induction; clear t; try reflexivity.
  - intros e path. cbn [readable_part]. unfold walk.
    destruct (is_instance e PermissionError) eqn:He; [| reflexivity].
    cbn [get_files_recursive]. rewrite He. reflexivity.
  - intros entries IH path.
    induction IH as [| [name d] entries Hd _ IHentries]; [reflexivity |].
    unfold walk in *. rewrite walk_dir_cons.
    change (readable_part (Dir ((name, d) :: entries)))
      with (match readable_part (Dir entries) with
            | Dir rest =>
                Dir (match d with
                     | Special => rest
                     | _ => (name, readable_part d) :: rest
                     end)
            | other => other
            end).
    simpl in Hd.
    destruct (readable_part (Dir entries)) as [| rest | |] eqn:Hp;
      try (simpl in Hp; discriminate).
    destruct d as [| entries' | e |].
    + rewrite walk_dir_cons, IHentries. reflexivity.
    + rewrite walk_dir_cons, IHentries.
      rewrite (walk_item_readable path name (Dir entries')); [reflexivity | | exact Hd].
      discriminate.
    + rewrite walk_dir_cons, IHentries.
      rewrite (walk_item_readable path name (DirError e)); [reflexivity | | exact Hd].
      discriminate.
    + rewrite walk_item_special, both_nil_l. exact IHentries.
Qed.

End Readable.

(** X17. Unreadable directories and special files do not disturb the snapshot.
    The snapshot of a tree is the snapshot of the tree in which every
    directory that may not be read ([os.listdir] raises [PermissionError]) is
    an empty directory and every entry that is neither a regular file nor a
    directory (a socket, a broken link) is absent: such a directory is
    listed by its name alone, such an entry is left out, and neither makes
    the snapshot fail. *)
Theorem list_project_structure_sync_tolerant
    (lib : Lib) (project_path : string) (t : node) :
  list_project_structure_sync lib project_path (readable_part t)
  = list_project_structure_sync lib project_path t.
Proof.
  unfold list_project_structure_sync. rewrite walk_readable_part. reflexivity.
Qed.

Example snapshot_of_guarded_project :
  list_project_structure_sync Sample.lib "/tmp/p" sample_guarded
  = Return ["README.md"; "private/"; "src/"; "src/main.x"].
Proof. vm_compute. reflexivity. Qed.

Section Listable.

Variable lib : Lib.
Variable project_path : string.

Let walk := get_files_recursive lib project_path.

Lemma returns_both r1 r2 : returns (both r1 r2) = returns r1 && returns r2.
Proof. destruct r1, r2; reflexivity. Qed.

Lemma returns_walk_item path name d :
  (forall p, returns (walk p d) = listable d) ->
  returns (walk_item lib project_path path (name, d))
  = hidden name || negb (isdir d) || listable d.
Proof.
  intro IH. unfold walk_item, hidden.
  destruct (startswith name "."); [reflexivity |].
  destruct d as [| entries | e |]; try reflexivity.
  - cbn [isfile isdir negb orb]. fold walk.
    rewrite <- (IH (os_path_join lib path name)).
    destruct (walk _ (Dir entries)); reflexivity.
  - cbn [isfile isdir negb orb]. fold walk.
    rewrite <- (IH (os_path_join lib path name)).
    destruct (walk _ (DirError e)); reflexivity.
Qed.

Lemma returns_walk t : forall path, returns (walk path t) = listable t.
Proof.
  pattern t. apply node_induction; clear t; try reflexivity.
  - intros e path. unfold walk. cbn [get_files_recursive listable].
    destruct (is_instance e PermissionError); reflexivity.
  - intros entries IH path.
    induction IH as [| [name d] entries Hd _ IHentries]; [reflexivity |].
    unfold walk in *. rewrite walk_dir_cons, returns_both, IHentries.
    rewrite (returns_walk_item path name d Hd). reflexivity.
Qed.

End Listable.

(** X18. When the snapshot succeeds. [list_project_structure_sync] returns a list
    exactly when the project root is a directory and every directory the
    walk enters can be listed or may not be read; a listing that raises any
    other error makes it fail, unless it lies below a hidden name, where the
    walk never goes. *)
Theorem list_project_structure_sync_succeeds
    (lib : Lib) (project_path : string) (t : node) :
  (exists files, list_project_structure_sync lib project_path t = Return files)
  <-> listable t = true.
Proof.
  unfold list_project_structure_sync.
  rewrite <- (returns_walk lib project_path t project_path).
  destruct (get_files_recursive lib project_path project_path t) as [files | e];
    cbn [returns]; split.
  - reflexivity.
  - eauto.
  - intros [files H]. discriminate.
  - discriminate.
Qed.

(** ** What a run does to its worker *)

Section KeepsProcess.

Lemma keeps_ret {A} (a : A) : keeps_process (ret a).
Proof. intros s H. exact H. Qed.

Lemma keeps_raise {A} (e : exn) : keeps_process (@raise A e).
Proof. intros s H. exact H. Qed.

Lemma keeps_lift {A} (o : outcome A) : keeps_process (lift o).
Proof. intros s H. exact H. Qed.

Lemma keeps_ask {A} (f : list event -> A) : keeps_process (ask f).
Proof. intros s H. exact H. Qed.

Lemma keeps_get_process : keeps_process get_process.
Proof. intros s H. exact H. Qed.

Lemma keeps_emit ev : keeps_process (emit ev).
Proof. intros s H. exact H. Qed.

Lemma keeps_or_raise r : keeps_process (or_raise r).
Proof. destruct r; intros s H; exact H. Qed.

Lemma keeps_set_process p : keeps_process (set_process (Some p)).
Proof. intros s _. discriminate. Qed.

Lemma keeps_bind {A B} (c : M A) (k : A -> M B) :
  keeps_process c -> (forall a, keeps_process (k a)) -> keeps_process (bind c k).
Proof.
  intros Hc Hk s H. unfold bind. specialize (Hc s H).
  destruct (c s) as [[a | e] s1]; cbn [snd] in *; [ apply Hk, Hc | exact Hc ].
Qed.

Lemma keeps_try_except {A} (c : M A) (h : exn -> M A) :
  keeps_process c -> (forall e, keeps_process (h e)) ->
  keeps_process (try_except c h).
Proof.
  intros Hc Hh s H. unfold try_except. specialize (Hc s H).
  destruct (c s) as [[a | e] s1]; cbn [snd] in *; [ exact Hc | apply Hh, Hc ].
Qed.

End KeepsProcess.

(** One step of a proof of [keeps_process c] along the structure of [c]. *)
Ltac keeps_step :=
  lazymatch goal with
  | |- keeps_process (ret _) => apply keeps_ret
  | |- keeps_process (raise _) => apply keeps_raise
  | |- keeps_process (lift _) => apply keeps_lift
  | |- keeps_process (ask _) => apply keeps_ask
  | |- keeps_process get_process => apply keeps_get_process
  | |- keeps_process (set_process (Some _)) => apply keeps_set_process
  | |- keeps_process (or_raise _) => apply keeps_or_raise
  | |- keeps_process (emit _) => apply keeps_emit
  | |- keeps_process (bind _ _) => apply keeps_bind; [ | intro ]
  | |- keeps_process (try_except _ _) => apply keeps_try_except; [ | intro ]
  | |- keeps_process (match ?x with _ => _ end) => destruct x
  | |- keeps_process _ => progress (autounfold with py_ops; cbv zeta)
  end.

Ltac keeps_auto := repeat keeps_step.

Lemma send_request_keeps_process lib env method params :
  keeps_process (send_request lib env method params).
Proof. keeps_auto. Qed.

Lemma get_project_guidelines_keeps_process lib env pp pc :
  keeps_process (get_project_guidelines lib (call_tool lib env) pp pc).
Proof. keeps_auto. Qed.

Lemma evaluate_keeps_process lib env prov model key policy files :
  keeps_process (evaluate lib env prov model key policy files).
Proof. keeps_auto. Qed.

(** [start_server] leaves the client without a process exactly when the
    launcher probe or the spawn fails. *)
Lemma start_server_process lib env pp s :
  self_process s = None ->
  (no_worker_spawned env pp (trace s) ->
   self_process (snd (start_server lib env pp s)) = None
   /\ exists e, fst (start_server lib env pp s) = Raise e)
  /\ (~ no_worker_spawned env pp (trace s) ->
      has_process (snd (start_server lib env pp s))).
Proof.
  intro Hnone.
  unfold no_worker_spawned, has_process, start_server, subprocess_run_npx_version,
    create_subprocess_exec, asyncio_sleep, process_returncode, stderr_read, decode,
    try_except, bind, emit, ask, get_process, set_process, or_raise, ret, raise,
    server_argv.
  cbn [fst snd trace self_process returncode].
  destruct (env_npx_version env (EvNpxVersion :: trace s)) as [e0 |] eqn:Hnpx;
    cbn [fst snd trace self_process returncode].
  - split.
    + intros _.
      destruct (is_instance e0 CalledProcessError || is_instance e0 FileNotFoundError);
        cbn [fst snd self_process]; split; eauto.
    + intro H. exfalso. apply H. left. discriminate.
  - destruct (env_spawn env _) as [e1 |] eqn:Hspawn;
      cbn [fst snd trace self_process returncode].
    + split; [ intros _; split; eauto | ].
      intro H. exfalso. apply H. right. discriminate.
    + split; [ intros [H | H]; exfalso; apply H; reflexivity | intros _ ].
      destruct (env_exited env _) as [rc |];
        cbn [fst snd trace self_process returncode]; [ | discriminate ].
      destruct (env_stderr_read env _) as [e2 | bytes];
        cbn [fst snd trace self_process returncode]; [ discriminate | ].
      destruct (bytes_decode lib bytes);
        cbn [fst snd trace self_process returncode]; discriminate.
Qed.

(** After the guarded block of a run the client is without a process
    exactly when the launcher probe or the spawn failed. *)
Lemma guarded_block_process lib env fs pp prov model key pc s :
  self_process s = None ->
  self_process
    (snd (try_except
            (pf <- prepare lib env fs pp pc ;;
             evaluate lib env prov model key (fst pf) (snd pf))
            (fun e => ret (Failure (exn_str e))) s)) = None
  <-> no_worker_spawned env pp (trace s).
Proof.
  intro Hnone.
  destruct (start_server_process lib env pp s Hnone) as [Hfail Hok].
  assert (Hrest : forall b : bool,
             keeps_process
               (initialize lib env ;;
                policy <- get_project_guidelines lib (call_tool lib env) pp pc ;;
                project_files <- lift (list_project_structure_sync lib pp fs) ;;
                pf <- ret (policy, project_files) ;;
                evaluate lib env prov model key (fst pf) (snd pf))).
  { intro b. apply keeps_bind; [ apply send_request_keeps_process | intros _ ].
    apply keeps_bind; [ apply get_project_guidelines_keeps_process | intro policy ].
    apply keeps_bind; [ apply keeps_lift | intro files ].
    apply keeps_bind; [ apply keeps_ret | intro pf ].
    apply evaluate_keeps_process. }
  assert (Hshape :
            snd (try_except
                   (pf <- prepare lib env fs pp pc ;;
                    evaluate lib env prov model key (fst pf) (snd pf))
                   (fun e => ret (Failure (exn_str e))) s)
            = match start_server lib env pp s with
              | (Return b, s0) =>
                  snd ((initialize lib env ;;
                        policy <- get_project_guidelines lib (call_tool lib env) pp pc ;;
                        project_files <-
                          lift (list_project_structure_sync lib pp fs) ;;
                        pf <- ret (policy, project_files) ;;
                        evaluate lib env prov model key (fst pf) (snd pf)) s0)
              | (Raise _, s0) => s0
              end).
  { unfold try_except, prepare, bind, ret, lift.
    destruct (start_server lib env pp s) as [[b | e] s0]; [ | reflexivity ].
    destruct (initialize lib env s0) as [[v | e] s2]; [ | reflexivity ].
    destruct (get_project_guidelines lib (call_tool lib env) pp pc s2)
      as [[policy | e] s3]; [ | reflexivity ].
    destruct (list_project_structure_sync lib pp fs) as [files | e]; [ | reflexivity ].
    cbn [fst snd].
    destruct (evaluate lib env prov model key policy files s3) as [[r | e] s4];
      reflexivity. }
  rewrite Hshape. clear Hshape.
  split.
  - intro Hgone.
    destruct (env_npx_version env (EvNpxVersion :: trace s)) as [e0 |] eqn:Hnpx;
      [ left; rewrite Hnpx; discriminate | ].
    destruct (env_spawn env (EvSpawn (server_argv pp) :: EvNpxVersion :: trace s))
      as [e1 |] eqn:Hspawn; [ right; rewrite Hspawn; discriminate | ].
    exfalso.
    assert (Hnot : ~ no_worker_spawned env pp (trace s)).
    { unfold no_worker_spawned. rewrite Hnpx, Hspawn. intros [H | H]; apply H;
        reflexivity. }
    specialize (Hok Hnot).
    destruct (start_server lib env pp s) as [[b | e] s0]; cbn [snd] in *.
    + apply (Hrest b s0 Hok). exact Hgone.
    + apply Hok. exact Hgone.
  - intro Hno. destruct (Hfail Hno) as [Hstate [e He]].
    destruct (start_server lib env pp s) as [[b | e'] s0]; cbn [fst snd] in *;
      [ discriminate | exact Hstate ].
Qed.

(** The actions of [close] on the worker, by what it finds. *)
Lemma close_actions env s :
  worker_actions (trace (snd (close env s)))
  = ((match self_process s with
      | None => []
      | Some _ =>
          match env_terminate env (EvTerminate :: EvCloseCalled :: trace s) with
          | Some _ => [EvTerminate]
          | None =>
              if wait_times_out env s then [EvKill; EvTerminate] else [EvTerminate]
          end
      end) ++ worker_actions (trace s))%list.
Proof.
  unfold close, process_terminate, process_wait_for, process_kill, process_wait,
    process_returncode, wait_times_out, at_wait, try_except, bind, emit, ask,
    get_process, set_process, or_raise, ret, raise.
  destruct s as [[[rc0] |] t]; cbn [fst snd trace self_process returncode];
    [ | reflexivity ].
  destruct (env_terminate env _); cbn [fst snd trace self_process returncode];
    [ reflexivity | ].
  destruct rc0 as [rc |]; cbn [fst snd trace self_process returncode];
    [ reflexivity | ].
  destruct (env_exited env _); cbn [fst snd trace self_process returncode];
    [ reflexivity | ].
  destruct (env_wait_for env _) as [| e |];
    cbn [fst snd trace self_process returncode is_instance exn_cls exn_class_eqb].
  - destruct (env_kill env _); cbn [fst snd trace self_process returncode];
      [ reflexivity | ].
    destruct (env_exited env _); reflexivity.
  - destruct (is_instance e TimeoutError);
      cbn [fst snd trace self_process returncode]; [ | reflexivity ].
    destruct (env_kill env _); cbn [fst snd trace self_process returncode];
      [ reflexivity | ].
    destruct (env_exited env _); reflexivity.
  - reflexivity.
Qed.

(** X3. The actions of a run on its worker. The guarded block issues none.
    The client is without a process after it exactly when the launcher
    probe or the spawn failed, and then [close] issues none either.
    Otherwise the run issues exactly one [terminate()]; and when that call
    does not raise and the worker does not exit within the 5 time units
    [close] waits, exactly one [kill()] after it. *)
Theorem run_validation_async_worker_actions
    (lib : Lib) (env : Env) (fs : node)
    (project_path llm_provider model api_key : string)
    (policy_content : option string) (s : state) :
  exists r s1,
    try_except
      (pf <- prepare lib env fs project_path policy_content ;;
       evaluate lib env llm_provider model api_key (fst pf) (snd pf))
      (fun e => ret (Failure (exn_str e))) (fresh s) = (Return r, s1)
    /\ worker_actions (trace s1) = worker_actions (trace s)
    /\ (self_process s1 = None <-> no_worker_spawned env project_path (trace s))
    /\ worker_actions
         (trace (snd (run_validation_async lib env fs project_path llm_provider model
                        api_key policy_content s)))
       = ((match self_process s1 with
           | None => []
           | Some _ =>
               match env_terminate env (EvTerminate :: EvCloseCalled :: trace s1) with
               | Some _ => [EvTerminate]
               | None =>
                   if wait_times_out env s1 then [EvKill; EvTerminate]
                   else [EvTerminate]
               end
           end) ++ worker_actions (trace s))%list.
Proof.
  pose proof (guarded_body_returns lib env fs project_path llm_provider model api_key
                policy_content (fresh s)) as (r & Hr).
  pose proof (guarded_block_process lib env fs project_path llm_provider model api_key
                policy_content (fresh s) eq_refl) as Hproc.
  assert (Hquiet : extends not_worker_action
                     (try_except
                        (pf <- prepare lib env fs project_path policy_content ;;
                         evaluate lib env llm_provider model api_key (fst pf) (snd pf))
                        (fun e => ret (Failure (exn_str e))))).
  { apply extends_try_except.
    - apply extends_bind;
        [ apply prepare_not_worker_action | intro; apply evaluate_not_worker_action ].
    - intro. apply extends_ret. }
  destruct (Hquiet (fresh s)) as (evs & Ht & Hevs).
  assert (Hrun : run_validation_async lib env fs project_path llm_provider model
                   api_key policy_content s
                 = let (r0, s1) :=
                     try_except
                       (pf <- prepare lib env fs project_path policy_content ;;
                        evaluate lib env llm_provider model api_key (fst pf) (snd pf))
                       (fun e => ret (Failure (exn_str e))) (fresh s) in
                   match close env s1 with
                   | (Return _, s2) => (r0, s2)
                   | (Raise e, s2) => (Raise e, s2)
                   end) by reflexivity.
  rewrite Hrun. clear Hrun.
  set (body := try_except _ _) in *.
  destruct (body (fresh s)) as [r0 s1]. cbn [fst snd] in *. subst r0.
  exists r, s1.
  assert (Hs1 : worker_actions (trace s1) = worker_actions (trace s)).
  { rewrite Ht. apply worker_actions_app_none, Hevs. }
  split; [ reflexivity | split; [ exact Hs1 | split; [ exact Hproc | ] ] ].
  rewrite <- Hs1, <- close_actions.
  destruct (close env s1) as [[u | e] s2]; reflexivity.
Qed.

(** A worker that ignores [terminate()] is killed; without the launcher
    there is no worker to act on. *)
Lemma run_validation_async_worker_actions_witness :
  worker_actions
    (trace (snd (run_validation_async Sample.lib sample_stubborn Sample.project
                   "/tmp/p" "OpenAI" "gpt-4" "key" None Sample.start)))
  = [EvKill; EvTerminate]
  /\ worker_actions
       (trace (snd (run_validation_async Sample.lib sample_no_launcher Sample.project
                      "/tmp/p" "OpenAI" "gpt-4" "key" None Sample.start)))
     = [].
Proof.
  split.
  - destruct (run_validation_async_worker_actions Sample.lib sample_stubborn
                Sample.project "/tmp/p" "OpenAI" "gpt-4" "key" None Sample.start)
      as (r & s1 & Hbody & _ & _ & Hacts).
    rewrite Hacts. vm_compute in Hbody. inversion Hbody; subst. reflexivity.
  - destruct (run_validation_async_worker_actions Sample.lib sample_no_launcher
                Sample.project "/tmp/p" "OpenAI" "gpt-4" "key" None Sample.start)
      as (r & s1 & Hbody & _ & _ & Hacts).
    rewrite Hacts. vm_compute in Hbody. inversion Hbody; subst. reflexivity.
Defined.

(** ** [_md_to_details]: the nesting of the sections *)

Lemma no_markup_cons c s :
  no_markup (String c s) = true -> Ascii.eqb c "<" = false /\ no_markup s = true.
Proof.
  unfold no_markup. cbn [all_chars]. intro H. apply andb_prop in H.
  destruct H as [Hc Hs]. apply negb_true_iff in Hc. split; assumption.
Qed.

(** Text without markup holds no tag and hides none of what follows it. *)
Lemma section_tags_text t x :
  no_markup t = true -> section_tags (t ++ x) = section_tags x.
Proof.
  induction t as [| c t IH]; intro Ht; [ reflexivity | ].
  destruct (no_markup_cons c t Ht) as [Hc Ht'].
  change (section_tags (String c t ++ x))
    with (if Ascii.eqb c "<" then
            if String.prefix "details" (t ++ x) then true :: section_tags (t ++ x)
            else if String.prefix "/details" (t ++ x)
                 then false :: section_tags (t ++ x)
                 else section_tags (t ++ x)
          else section_tags (t ++ x)).
  rewrite Hc. apply IH, Ht'.
Qed.

Lemma section_tags_closing x :
  section_tags (MainWeb.closing_tag ++ x) = false :: section_tags x.
Proof. reflexivity. Qed.

Lemma section_tags_opening level title x :
  (1 <= level <= 6)%nat -> no_markup title = true ->
  section_tags (MainWeb.opening_tag level title ++ x) = true :: section_tags x.
Proof.
  intros Hlevel Htitle. unfold MainWeb.opening_tag.
  rewrite !string_app_assoc.
  destruct level as [| [| [| [| [| [| [| level]]]]]]]; try lia;
    match goal with
    | |- context [str_of_nat ?n] =>
        let d := eval vm_compute in (str_of_nat n) in
        change (str_of_nat n) with d
    end;
    match goal with
    | |- section_tags (_ ++ _ ++ _ ++ title ++ ?rest) = _ =>
        transitivity (true :: section_tags (title ++ rest)); [ reflexivity | ]
    end;
    rewrite (section_tags_text title _ Htitle); reflexivity.
Qed.

Lemma section_tags_of_text line : no_markup line = true -> section_tags line = [].
Proof.
  intro H. rewrite <- (string_app_empty_r line).
  apply (section_tags_text line "" H).
Qed.

Lemma section_tags_of_opening level title :
  (1 <= level <= 6)%nat -> no_markup title = true ->
  section_tags (MainWeb.opening_tag level title) = [true].
Proof.
  intros Hlevel Htitle.
  rewrite <- (string_app_empty_r (MainWeb.opening_tag level title)).
  apply (section_tags_opening level title "" Hlevel Htitle).
Qed.

(** The tags of a rendered line followed by more text. *)
Lemma section_tags_line l x :
  rendered_line l ->
  section_tags (l ++ x) = (section_tags l ++ section_tags x)%list.
Proof.
  intros [line Hline | level title Hlevel Htitle |].
  - rewrite (section_tags_text line x Hline), (section_tags_of_text line Hline).
    reflexivity.
  - rewrite (section_tags_opening level title x Hlevel Htitle).
    rewrite (section_tags_of_opening level title Hlevel Htitle). reflexivity.
  - reflexivity.
Qed.

(** The tags of lines joined by line feeds are the tags of the lines. *)
Lemma section_tags_joined html :
  Forall rendered_line html ->
  section_tags (String.concat LF html) = flat_map section_tags html.
Proof.
  induction 1 as [| l html Hl Hhtml IH]; [ reflexivity | ].
  destruct html as [| l' html'].
  - cbn [String.concat flat_map]. rewrite app_nil_r. reflexivity.
  - change (String.concat LF (l :: l' :: html'))
      with (l ++ String "010" (String.concat LF (l' :: html'))).
    rewrite (section_tags_line l _ Hl).
    change (section_tags (String "010" (String.concat LF (l' :: html'))))
      with (section_tags (String.concat LF (l' :: html'))).
    rewrite IH. reflexivity.
Qed.

Lemma open_sections_app bound tags1 : forall depth tags2,
  open_sections bound depth (tags1 ++ tags2)
  = match open_sections bound depth tags1 with
    | Some d => open_sections bound d tags2
    | None => None
    end.
Proof.
  induction tags1 as [| [|] rest IH]; intros depth tags2;
    cbn [open_sections app]; [ reflexivity | | ].
  - destruct (S depth <=? bound)%nat; [ apply IH | reflexivity ].
  - destruct depth; [ reflexivity | apply IH ].
Qed.

Lemma open_sections_closing bound k : forall depth,
  (k <= depth)%nat ->
  open_sections bound depth (flat_map section_tags (repeat MainWeb.closing_tag k))
  = Some (depth - k)%nat.
Proof.
  induction k as [| k IH]; intros depth Hk.
  - cbn [repeat flat_map open_sections]. f_equal. lia.
  - destruct depth as [| d]; [ lia | ].
    change (flat_map section_tags (repeat MainWeb.closing_tag (S k)))
      with (false :: flat_map section_tags (repeat MainWeb.closing_tag k)).
    cbn [open_sections]. rewrite IH by lia. reflexivity.
Qed.

Lemma rendered_closings k : Forall rendered_line (repeat MainWeb.closing_tag k).
Proof.
  induction k as [| k IH]; cbn [repeat]; [ constructor | ].
  constructor; [ apply rendered_closing | exact IH ].
Qed.

(** *** The title of a heading is part of its line *)

Section Chars.

Variable p : ascii -> bool.

Lemma all_chars_lstrip s : all_chars p s = true -> all_chars p (lstrip s) = true.
Proof.
  induction s as [| c s IH]; [ reflexivity | ].
  intro H. cbn [lstrip]. destruct (isspace c); [ | exact H ].
  cbn [all_chars] in H. apply andb_prop in H. apply IH, H.
Qed.

Lemma all_chars_span_hashes s :
  all_chars p s = true -> all_chars p (snd (MainWeb.span_hashes s)) = true.
Proof.
  induction s as [| c s IH]; [ reflexivity | ].
  intro H. cbn [MainWeb.span_hashes]. destruct (Ascii.eqb c "#"); [ | exact H ].
  cbn [all_chars] in H. apply andb_prop in H. destruct H as [_ Hs].
  specialize (IH Hs). destruct (MainWeb.span_hashes s). exact IH.
Qed.

Lemma all_chars_title_of s : forall t,
  MainWeb.title_of s = Some t -> all_chars p s = true -> all_chars p t = true.
Proof.
  induction s as [| c s IH]; intros t Ht Hs.
  - inversion Ht. reflexivity.
  - cbn [MainWeb.title_of] in Ht. cbn [all_chars] in Hs. apply andb_prop in Hs.
    destruct Hs as [Hc Hs].
    destruct (Ascii.eqb c "010").
    + destruct s; inversion Ht. reflexivity.
    + destruct (MainWeb.title_of s) as [t' |]; [ | discriminate ].
      inversion Ht; subst. cbn [all_chars]. rewrite Hc. apply (IH t' eq_refl Hs).
Qed.

Lemma all_chars_title line level title :
  MainWeb.match_heading line = Some (level, title) ->
  all_chars p line = true -> all_chars p title = true.
Proof.
  unfold MainWeb.match_heading. intros Hm Hline.
  pose proof (all_chars_span_hashes line Hline) as Hrest.
  destruct (MainWeb.span_hashes line) as [n rest]. cbn [snd] in Hrest.
  destruct ((1 <=? n)%nat && (n <=? 6)%nat); [ | discriminate ].
  destruct rest as [| c r]; [ discriminate | ].
  destruct (isspace c); [ | discriminate ].
  destruct (MainWeb.title_of (lstrip (String c r))) as [t |] eqn:Ht; [ | discriminate ].
  inversion Hm; subst.
  apply (all_chars_title_of _ _ Ht). apply all_chars_lstrip, Hrest.
Qed.

Lemma all_chars_splitlines_upto n : forall s,
  (String.length s <= n)%nat -> all_chars p s = true ->
  Forall (fun line => all_chars p line = true) (splitlines s).
Proof.
  induction n as [| n IH]; intros [| c r] Hlen Hs; cbn [String.length] in Hlen;
    try (constructor; fail); [ lia | ].
  cbn [all_chars] in Hs. apply andb_prop in Hs. destruct Hs as [Hc Hr].
  assert (Hlines : Forall (fun line => all_chars p line = true) (splitlines r))
    by (apply IH; [ lia | exact Hr ]).
  destruct (is_line_boundary c) eqn:Hb.
  - change (splitlines (String c r))
      with (if is_line_boundary c then
              match r with
              | String d r' =>
                  if Ascii.eqb c "013" && Ascii.eqb d "010"
                  then EmptyString :: splitlines r'
                  else EmptyString :: splitlines r
              | EmptyString => [EmptyString]
              end
            else
              match splitlines r with
              | [] => [String c ""]
              | line :: lines => String c line :: lines
              end).
    rewrite Hb. destruct r as [| d r'].
    + constructor; [ reflexivity | constructor ].
    + destruct (Ascii.eqb c "013" && Ascii.eqb d "010").
      * constructor; [ reflexivity | ].
        cbn [all_chars] in Hr. apply andb_prop in Hr.
        apply IH; [ cbn [String.length] in Hlen; lia | apply Hr ].
      * constructor; [ reflexivity | exact Hlines ].
  - rewrite (splitlines_inside c r Hb).
    destruct (splitlines r) as [| line lines].
    + constructor; [ | constructor ]. cbn [all_chars]. rewrite Hc. reflexivity.
    + inversion Hlines as [| ? ? Hline Hrest]; subst.
      constructor; [ | exact Hrest ]. cbn [all_chars]. rewrite Hc, Hline. reflexivity.
Qed.

Lemma all_chars_splitlines s :
  all_chars p s = true -> Forall (fun line => all_chars p line = true) (splitlines s).
Proof. apply (all_chars_splitlines_upto (String.length s)). lia. Qed.

End Chars.

(** *** The loop *)

(** The loop writes rendered lines only, keeps the levels on the stack
    nested, and keeps as many sections open in [html] as the stack has
    levels. *)
Lemma step_keeps_sections st line :
  no_markup line = true ->
  Forall rendered_line (MainWeb.html st) ->
  nested_levels (MainWeb.stack st) ->
  open_sections 6 0 (flat_map section_tags (MainWeb.html st))
  = Some (List.length (MainWeb.stack st)) ->
  Forall rendered_line (MainWeb.html (MainWeb.step st line))
  /\ nested_levels (MainWeb.stack (MainWeb.step st line))
  /\ open_sections 6 0 (flat_map section_tags (MainWeb.html (MainWeb.step st line)))
     = Some (List.length (MainWeb.stack (MainWeb.step st line))).
Proof.
  intros Hline Hhtml Hnested Hdepth. unfold MainWeb.step.
  assert (Hkeep :
            Forall rendered_line (MainWeb.html st ++ [line])
            /\ nested_levels (MainWeb.stack st)
            /\ open_sections 6 0 (flat_map section_tags (MainWeb.html st ++ [line]))
               = Some (List.length (MainWeb.stack st))).
  { split; [ | split; [ exact Hnested | ] ].
    - apply Forall_app. split; [ exact Hhtml | ].
      constructor; [ apply rendered_text, Hline | constructor ].
    - rewrite flat_map_app, open_sections_app, Hdepth. cbn [flat_map].
      rewrite (section_tags_of_text line Hline). reflexivity. }
  destruct (MainWeb.is_fence line); [ exact Hkeep | ].
  destruct (if MainWeb.in_code st then None else MainWeb.match_heading line)
    as [[level title] |] eqn:Hm; [ | exact Hkeep ].
  assert (Hheading : MainWeb.match_heading line = Some (level, title)).
  { destruct (MainWeb.in_code st); [ discriminate | exact Hm ]. }
  pose proof (match_heading_level line level title Hheading) as Hlevel.
  assert (Htitle : no_markup title = true).
  { apply (all_chars_title _ line level title Hheading Hline). }
  rewrite close_popped. cbn [MainWeb.html MainWeb.stack].
  destruct (close_leaves_lower level (MainWeb.stack st) Hnested) as [Hn' Hlow].
  pose proof (popped_le (Some level) (MainWeb.stack st)) as Hle.
  pose proof (nested_levels_length _ level (proj1 Hlevel) Hn' Hlow) as Hlen.
  split; [ | split ].
  - apply Forall_app. split.
    + apply Forall_app. split; [ exact Hhtml | apply rendered_closings ].
    + constructor; [ apply rendered_opening; assumption | constructor ].
  - destruct Hn' as [Hs' Hr']. split; constructor; assumption.
  - rewrite !flat_map_app, !open_sections_app, Hdepth.
    rewrite open_sections_closing by exact Hle.
    cbn [flat_map]. rewrite (section_tags_of_opening level title Hlevel Htitle).
    rewrite length_skipn in Hlen. cbn [app open_sections List.length].
    rewrite length_skipn.
    destruct (S (List.length (MainWeb.stack st) - popped (Some level) (MainWeb.stack st))
              <=? 6)%nat eqn:Hb; [ reflexivity | ].
    apply Nat.leb_gt in Hb. lia.
Qed.

Lemma loop_keeps_sections lines : forall st,
  Forall (fun line => no_markup line = true) lines ->
  Forall rendered_line (MainWeb.html st) ->
  nested_levels (MainWeb.stack st) ->
  open_sections 6 0 (flat_map section_tags (MainWeb.html st))
  = Some (List.length (MainWeb.stack st)) ->
  Forall rendered_line (MainWeb.html (fold_left MainWeb.step lines st))
  /\ open_sections 6 0
       (flat_map section_tags (MainWeb.html (fold_left MainWeb.step lines st)))
     = Some (List.length (MainWeb.stack (fold_left MainWeb.step lines st))).
Proof.
  induction lines as [| line rest IH]; intros st Hlines Hhtml Hnested Hdepth;
    cbn [fold_left]; [ split; assumption | ].
  inversion Hlines as [| ? ? Hline Hrest]; subst.
  destruct (step_keeps_sections st line Hline Hhtml Hnested Hdepth)
    as (Hh & Hn & Hd).
  apply IH; assumption.
Qed.

(** X5. The sections of a rendered report are well nested. For a report
    without markup of its own (it holds no [<], so that every tag of the
    result is one the rendering wrote, titles included), the tags of
    collapsible sections in the text [_md_to_details] returns, read from
    its first character to its last, open and close like brackets: no
    closing tag without an open section, never more than six sections open
    at once, and none left open at the end. *)
Theorem md_to_details_well_nested (md : string) :
  no_markup md = true ->
  open_sections 6 0 (section_tags (MainWeb._md_to_details None md)) = Some O.
Proof.
  intro Hmd. unfold MainWeb._md_to_details, MainWeb.details_lines. cbv zeta.
  pose proof (all_chars_splitlines _ md Hmd) as Hlines.
  destruct (loop_keeps_sections (splitlines md)
              {| MainWeb.html := []; MainWeb.stack := []; MainWeb.in_code := false |}
              Hlines) as [Hh Hd].
  { constructor. }
  { split; constructor. }
  { reflexivity. }
  rewrite close_popped, popped_all. cbn [fst].
  rewrite section_tags_joined
    by (apply Forall_app; split; [ exact Hh | apply rendered_closings ]).
  rewrite flat_map_app, open_sections_app, Hd, open_sections_closing by lia.
  f_equal. lia.
Qed.

Lemma md_to_details_well_nested_witness :
  no_markup sample_report_text = true
  /\ section_tags (MainWeb._md_to_details None sample_report_text)
     = [true; true; false; true; false; false; true; false]
  /\ open_sections 6 0 (section_tags (MainWeb._md_to_details None sample_report_text))
     = Some O.
Proof.
  split; [ reflexivity | split; [ vm_compute; reflexivity | ] ].
  apply (md_to_details_well_nested sample_report_text). reflexivity.
Defined.
